(** * spla-roulette: the staged filter state, the catalog refresh, the
    roulette draw and the team division of [app.js], as a shallow embedding.

    The embedding follows the most evolved variant of the script (the one
    with [tempFilterSelections]).  Module-level [let] variables become the
    fields of [State]; the browser (DOM inputs, [localStorage], [fetch],
    [Math.random], [alert], [console.error], [setTimeout]) becomes either a
    field of [State] or a field of the environment [Env].

    JavaScript arrays of the filter state are only ever assigned through
    spreads, [map] and [filter], which all build fresh arrays, so they are
    values here.  The one place where in-place mutation of an array is at
    stake, [shuffleArray], is embedded over an explicit heap of arrays. *)

From stdpp Require Import base strings list gmap pretty.

Open Scope string_scope.
Open Scope list_scope.
Open Scope nat_scope.

(** ** Completions and the state-and-exception monad *)

Inductive exn : Type :=
| TypeError                 (* property access or call on undefined / null *)
| SyntaxError               (* [JSON.parse] rejected the text *)
| ApiError (status : nat)   (* [new Error(`API error: ${response.status}`)] *)
| NetworkError              (* [fetch] itself rejected *)
| QuotaExceeded.            (* [localStorage.setItem] refused the write *)

Inductive completion (A : Type) : Type :=
| Normal (a : A)
| Throw (e : exn).
Arguments Normal {A} a.
Arguments Throw {A} e.

(** A statement sequence over state [St]: it always yields the state it
    reached, also when it throws (JavaScript does not roll back). *)
Definition prog (St A : Type) : Type := St → St * completion A.

Definition ret {St A} (a : A) : prog St A := λ s, (s, Normal a).
Definition throw {St A} (e : exn) : prog St A := λ s, (s, Throw e).
Definition bind {St A B} (m : prog St A) (k : A → prog St B) : prog St B :=
  λ s, match m s with
       | (s', Normal a) => k a s'
       | (s', Throw e) => (s', Throw e)
       end.
Definition get {St} : prog St St := λ s, (s, Normal s).
Definition modify {St} (f : St → St) : prog St unit := λ s, (f s, Normal tt).
(** [try { body } catch (error) { handler(error) }] *)
Definition tryCatch {St A} (body : prog St A) (handler : exn → prog St A) : prog St A :=
  λ s, match body s with
       | (s', Normal a) => (s', Normal a)
       | (s', Throw e) => handler e s'
       end.

Declare Scope prog_scope.
Delimit Scope prog_scope with prog.
Notation "'do' x <- m ; k" := (bind m (λ x, k))
  (at level 10, x name, m at level 100, k at level 200) : prog_scope.
Notation "m ;;; k" := (bind m (λ _, k))
  (at level 100, k at level 200, right associativity) : prog_scope.

(** [for (let i = 1; i <= n; i++) body(i)], stopping at the first throw. *)
Fixpoint forUpTo {St} (body : nat → prog St unit) (i : nat) (steps : nat) : prog St unit :=
  match steps with
  | 0 => ret tt
  | S steps' => (body i ;;; forUpTo body (S i) steps')%prog
  end.
Definition forFrom1 {St} (n : nat) (body : nat → prog St unit) : prog St unit :=
  forUpTo body 1 n.

(** ** Property lookup on the object literals keyed by catalog type

    [selectedItems], [tempFilterSelections], [itemsMap] and [typeNames] are
    object literals with the own keys [rule], [stage] and [weapon].  A
    lookup [o[type]] with another string walks to [Object.prototype]: it
    finds one of its members or yields [undefined]. *)

Record byType (A : Type) : Type := ByType { rule : A; stage : A; weapon : A }.
Arguments ByType {A} _ _ _.
Arguments rule {A} _.
Arguments stage {A} _.
Arguments weapon {A} _.

(** The members of [Object.prototype] with their [length] property: the
    arity for the functions, none for the object behind [__proto__]. *)
Definition objectPrototype : list (string * option nat) :=
  [ ("constructor", Some 1); ("hasOwnProperty", Some 1);
    ("isPrototypeOf", Some 1); ("propertyIsEnumerable", Some 1);
    ("toString", Some 0); ("toLocaleString", Some 0); ("valueOf", Some 0);
    ("__defineGetter__", Some 2); ("__defineSetter__", Some 2);
    ("__lookupGetter__", Some 1); ("__lookupSetter__", Some 1);
    ("__proto__", None) ].

Fixpoint assoc {A} (k : string) (l : list (string * A)) : option A :=
  match l with
  | [] => None
  | (k', v) :: l' => if bool_decide (k = k') then Some v else assoc k l'
  end.

Inductive property (A : Type) : Type :=
| Own (a : A)
| Inherited (member : string) (len : option nat)
| Undefined.
Arguments Own {A} a.
Arguments Inherited {A} member len.
Arguments Undefined {A}.

Definition getProp {A} (o : byType A) (type : string) : property A :=
  if bool_decide (type = "rule") then Own (rule o)
  else if bool_decide (type = "stage") then Own (stage o)
  else if bool_decide (type = "weapon") then Own (weapon o)
  else match assoc type objectPrototype with
       | Some len => Inherited type len
       | None => Undefined
       end.

(** ** Data model *)

Inductive itemName : Type :=
| NameText (s : string)
| NameLocales (names : list (string * string)).

Record Item : Type := { key : string; name : itemName }.

(** [data]: the three catalogs. *)
Record Data : Type := { rules : list Item; stages : list Item; weapons : list Item }.

(** [EXCLUDED_ITEMS] has the keys [rule] and [stage] only. *)
Record Exclusions : Type := { excludedRule : list string; excludedStage : list string }.
Definition EXCLUDED_ITEMS : Exclusions :=
  {| excludedRule := ["tricolor"]; excludedStage := ["grand_arena"] |}.

Definition API_URLS : byType string :=
  ByType "https://stat.ink/api/v3/rule" "https://stat.ink/api/v3/stage"
         "https://stat.ink/api/v3/weapon".

Definition CACHE_KEYS : byType string := ByType "spla-rules" "spla-stages" "spla-weapons".
Definition CACHE_KEYS_selectedItems : string := "spla-selected-items".

Inductive team : Type := alpha | bravo.

(** What [localStorage] holds under the keys of this program.  The values
    are JSON texts; a text written by [JSON.stringify] is represented by
    the value it parses back to.  [NotJson] is a text [JSON.parse] rejects. *)
Inductive json : Type :=
| CatalogJson (items : list Item)
| SelectionJson (selection : byType (list string)).

Inductive blob : Type :=
| Json (v : json)
| NotJson (text : string).

(** [Math.random()] returns a double in [[0, 1)]: a significand of at most
    53 bits over [2^(53 + scale)].  Every double in [[0, 1)] has this form,
    the subnormal ones included, with a scale of at most 1021; [bits] is
    taken modulo [2^53], so that every value of the record is below one.
    A record with a larger scale stands for no double; it is smaller than
    any and, like the smallest, has [0] as the integer part of its product
    with a length. *)
Record unitInterval : Type := { bits : N; scale : N }.
Definition significand (u : unitInterval) : N := (bits u `mod` 2 ^ 53)%N.
Definition exponent (u : unitInterval) : N := (53 + scale u)%N.

(** The rounding of a double operation whose exact result is [p / 2^e],
    applied to [p]: the nearest number with at most 53 significant bits,
    ties to the even significand.  Where the format keeps fewer bits, in
    the subnormal range, the result is below one either way. *)
Definition roundToDouble (p : N) : N :=
  let shift := (N.size p - 53)%N in
  let q := (p `div` 2 ^ shift)%N in
  let r := (p `mod` 2 ^ shift)%N in
  let up := ((2 ^ shift <? 2 * r) || ((2 * r =? 2 ^ shift) && N.odd q))%N in
  ((if up then q + 1 else q) * 2 ^ shift)%N.

(** The double [u * n] over [2^(exponent u)], for a length or an index [n],
    which is a double itself: array lengths are below [2^32]. *)
Definition timesDouble (u : unitInterval) (n : nat) : N :=
  roundToDouble (significand u * N.of_nat n).

(** [Math.floor(u * n)] *)
Definition floorTimes (u : unitInterval) (n : nat) : nat :=
  N.to_nat (timesDouble u n `div` 2 ^ exponent u).

(** A response of the remote catalog source. *)
Inductive response : Type :=
| Ok (json : list Item)        (* [response.ok], body parsed *)
| NotOk (status : nat)         (* [!response.ok] *)
| Unreachable.                 (* [fetch] rejected *)

(** The collaborators outside the script. *)
Record Env : Type := {
  random : nat → unitInterval;     (* the k-th call of [Math.random] *)
  remote : string → response;      (* [fetch(url)] *)
  setItemThrows : string → bool;   (* keys whose [localStorage.setItem] throws *)
  markup : list string → nat → string → bool;
    (* the HTML parser on result cards whose names have markup in them:
       whether [#result-i .result-type] then selects an element *)
}.

(** The part of the page the embedded functions read or write.  Elements of
    the static page are present; the member name inputs and the result
    cards are created by the script and may be missing.  The member count
    input holds a natural number; [NaN] and negative values are outside
    the embedding. *)
Record Dom : Type := {
  memberCount : nat;                 (* [parseInt(#memberCount.value)], a count *)
  memberNameInputs : list string;    (* values of [#memberName1], [#memberName2], ... *)
  commonRule : bool;                 (* [#commonRule] present *)
  commonStage : bool;                (* [#commonStage] present *)
  resultCards : nat;                 (* [#result-1] .. [#result-k] rendered *)
  applyFilterSettingsBtn : bool;     (* [style.display] is ['block'] *)
  loadingStatus : option string;     (* text of [#loadingStatus] *)
  cardNames : list string;           (* the names written into the cards' [innerHTML] *)
}.

Inductive logEntry : Type :=
| ErrorFetching (e : exn)            (* 'Error fetching data from API:' *)
| ErrorRefreshing (e : exn)          (* 'Error refreshing data:' *)
| ErrorSavingSelected (e : exn)      (* 'Error saving selected items:' *)
| ErrorLoadingSelected (e : exn).    (* 'Error loading selected items:' *)

(** What [getTypeName] interpolates into the notice: a text, or a member of
    [Object.prototype] whose printed form is left to the engine. *)
Inductive label : Type :=
| LabelText (s : string)
| LabelMember (member : string).

(** [alert(`利用可能な${label}がありません`)]. *)
Inductive notice : Type := NoneAvailable (category : label).

Record State : Type := {
  data : Data;
  selectedItems : byType (list string);
  tempFilterSelections : byType (list string);
  filterStateSnapshot : byType (list string);
  currentResults : gmap string Item;
  currentTeams : gmap nat team;
  localStorage : gmap string blob;
  dom : Dom;
  timers : list (string * Item);   (* writes queued by [setTimeout] *)
  randomCalls : nat;               (* calls of [Math.random] so far *)
  console : list logEntry;
  alerts : list notice;
}.

(** Field updates of [State] and [Dom]. *)
Definition withData (d : Data) (s : State) : State :=
  {| data := d; selectedItems := selectedItems s;
     tempFilterSelections := tempFilterSelections s;
     filterStateSnapshot := filterStateSnapshot s;
     currentResults := currentResults s; currentTeams := currentTeams s;
     localStorage := localStorage s; dom := dom s; timers := timers s;
     randomCalls := randomCalls s; console := console s; alerts := alerts s |}.
Definition withSelectedItems (x : byType (list string)) (s : State) : State :=
  {| data := data s; selectedItems := x;
     tempFilterSelections := tempFilterSelections s;
     filterStateSnapshot := filterStateSnapshot s;
     currentResults := currentResults s; currentTeams := currentTeams s;
     localStorage := localStorage s; dom := dom s; timers := timers s;
     randomCalls := randomCalls s; console := console s; alerts := alerts s |}.
Definition withTempFilterSelections (x : byType (list string)) (s : State) : State :=
  {| data := data s; selectedItems := selectedItems s;
     tempFilterSelections := x;
     filterStateSnapshot := filterStateSnapshot s;
     currentResults := currentResults s; currentTeams := currentTeams s;
     localStorage := localStorage s; dom := dom s; timers := timers s;
     randomCalls := randomCalls s; console := console s; alerts := alerts s |}.
Definition withFilterStateSnapshot (x : byType (list string)) (s : State) : State :=
  {| data := data s; selectedItems := selectedItems s;
     tempFilterSelections := tempFilterSelections s;
     filterStateSnapshot := x;
     currentResults := currentResults s; currentTeams := currentTeams s;
     localStorage := localStorage s; dom := dom s; timers := timers s;
     randomCalls := randomCalls s; console := console s; alerts := alerts s |}.
Definition withCurrentResults (x : gmap string Item) (s : State) : State :=
  {| data := data s; selectedItems := selectedItems s;
     tempFilterSelections := tempFilterSelections s;
     filterStateSnapshot := filterStateSnapshot s;
     currentResults := x; currentTeams := currentTeams s;
     localStorage := localStorage s; dom := dom s; timers := timers s;
     randomCalls := randomCalls s; console := console s; alerts := alerts s |}.
Definition withCurrentTeams (x : gmap nat team) (s : State) : State :=
  {| data := data s; selectedItems := selectedItems s;
     tempFilterSelections := tempFilterSelections s;
     filterStateSnapshot := filterStateSnapshot s;
     currentResults := currentResults s; currentTeams := x;
     localStorage := localStorage s; dom := dom s; timers := timers s;
     randomCalls := randomCalls s; console := console s; alerts := alerts s |}.
Definition withLocalStorage (x : gmap string blob) (s : State) : State :=
  {| data := data s; selectedItems := selectedItems s;
     tempFilterSelections := tempFilterSelections s;
     filterStateSnapshot := filterStateSnapshot s;
     currentResults := currentResults s; currentTeams := currentTeams s;
     localStorage := x; dom := dom s; timers := timers s;
     randomCalls := randomCalls s; console := console s; alerts := alerts s |}.
Definition withDom (x : Dom) (s : State) : State :=
  {| data := data s; selectedItems := selectedItems s;
     tempFilterSelections := tempFilterSelections s;
     filterStateSnapshot := filterStateSnapshot s;
     currentResults := currentResults s; currentTeams := currentTeams s;
     localStorage := localStorage s; dom := x; timers := timers s;
     randomCalls := randomCalls s; console := console s; alerts := alerts s |}.
Definition withTimers (x : list (string * Item)) (s : State) : State :=
  {| data := data s; selectedItems := selectedItems s;
     tempFilterSelections := tempFilterSelections s;
     filterStateSnapshot := filterStateSnapshot s;
     currentResults := currentResults s; currentTeams := currentTeams s;
     localStorage := localStorage s; dom := dom s; timers := x;
     randomCalls := randomCalls s; console := console s; alerts := alerts s |}.
Definition withRandomCalls (x : nat) (s : State) : State :=
  {| data := data s; selectedItems := selectedItems s;
     tempFilterSelections := tempFilterSelections s;
     filterStateSnapshot := filterStateSnapshot s;
     currentResults := currentResults s; currentTeams := currentTeams s;
     localStorage := localStorage s; dom := dom s; timers := timers s;
     randomCalls := x; console := console s; alerts := alerts s |}.
Definition withConsole (x : list logEntry) (s : State) : State :=
  {| data := data s; selectedItems := selectedItems s;
     tempFilterSelections := tempFilterSelections s;
     filterStateSnapshot := filterStateSnapshot s;
     currentResults := currentResults s; currentTeams := currentTeams s;
     localStorage := localStorage s; dom := dom s; timers := timers s;
     randomCalls := randomCalls s; console := x; alerts := alerts s |}.
Definition withAlerts (x : list notice) (s : State) : State :=
  {| data := data s; selectedItems := selectedItems s;
     tempFilterSelections := tempFilterSelections s;
     filterStateSnapshot := filterStateSnapshot s;
     currentResults := currentResults s; currentTeams := currentTeams s;
     localStorage := localStorage s; dom := dom s; timers := timers s;
     randomCalls := randomCalls s; console := console s; alerts := x |}.

(** The cards [#result-1] .. [#result-k], as [initializeResults] renders
    them from the name inputs. *)
Definition withResultCards (k : nat) (d : Dom) : Dom :=
  {| memberCount := memberCount d; memberNameInputs := memberNameInputs d;
     commonRule := commonRule d; commonStage := commonStage d;
     resultCards := k; applyFilterSettingsBtn := applyFilterSettingsBtn d;
     loadingStatus := loadingStatus d;
     cardNames := take k (memberNameInputs d) |}.
Definition withApplyFilterSettingsBtn (shown : bool) (d : Dom) : Dom :=
  {| memberCount := memberCount d; memberNameInputs := memberNameInputs d;
     commonRule := commonRule d; commonStage := commonStage d;
     resultCards := resultCards d; applyFilterSettingsBtn := shown;
     loadingStatus := loadingStatus d; cardNames := cardNames d |}.
Definition withLoadingStatus (message : string) (d : Dom) : Dom :=
  {| memberCount := memberCount d; memberNameInputs := memberNameInputs d;
     commonRule := commonRule d; commonStage := commonStage d;
     resultCards := resultCards d; applyFilterSettingsBtn := applyFilterSettingsBtn d;
     loadingStatus := Some message; cardNames := cardNames d |}.

Definition withMembers (count : nat) (names : list string) (d : Dom) : Dom :=
  {| memberCount := count; memberNameInputs := names;
     commonRule := commonRule d; commonStage := commonStage d;
     resultCards := resultCards d; applyFilterSettingsBtn := applyFilterSettingsBtn d;
     loadingStatus := loadingStatus d; cardNames := cardNames d |}.

(** [shuffleArray] mutates an array in place, so it runs over a heap of
    array objects, addressed by position, next to the count of
    [Math.random] calls. *)
Record Machine (A : Type) : Type := {
  arrays : list (list A);
  randomCount : nat;
}.
Arguments arrays {A} _.
Arguments randomCount {A} _.

(** ** Browser primitives *)

(** [array.includes(k)] on an array of strings. *)
Definition includes (l : list string) (k : string) : bool := bool_decide (k ∈ l).

(** [document.getElementById(`memberName${i}`).value]: the lookup yields
    [null] when the input was not rendered, and [.value] then throws. *)
Definition memberNameValue (i : nat) : prog State string :=
  λ s, match i with
       | 0 => (s, Throw TypeError)
       | S i' => match memberNameInputs (dom s) !! i' with
                 | Some v => (s, Normal v)
                 | None => (s, Throw TypeError)
                 end
       end.

Definition consoleError (entry : logEntry) : prog State unit :=
  modify (λ s, withConsole (console s ++ [entry]) s).

Definition alert (n : notice) : prog State unit :=
  modify (λ s, withAlerts (alerts s ++ [n]) s).

Section WithEnv.
Variable env : Env.

(** [localStorage.setItem(k, JSON.stringify(v))] *)
Definition setItem (k : string) (v : json) : prog State unit :=
  λ s, if setItemThrows env k then (s, Throw QuotaExceeded)
       else (withLocalStorage (<[k := Json v]> (localStorage s)) s, Normal tt).

Definition removeItem (k : string) : prog State unit :=
  modify (λ s, withLocalStorage (delete k (localStorage s)) s).

(** [Math.floor(Math.random() * n)] *)
Definition randomBelow (n : nat) : prog State nat :=
  λ s, (withRandomCalls (S (randomCalls s)) s,
        Normal (floorTimes (random env (randomCalls s)) n)).

(** ** Data management *)

(** [fetchFromAPI(url)] *)
Definition fetchFromAPI (url : string) : prog State (list Item) :=
  match remote env url with
  | Ok json => ret json
  | NotOk status => throw (ApiError status)
  | Unreachable => throw NetworkError
  end.

(** [fetchAndCacheData()].  [Promise.all] over the three requests: the
    first rejection in array order stands for the one that rejects first. *)
Definition fetchAndCacheData : prog State unit :=
  tryCatch
    (do rulesData <- fetchFromAPI (rule API_URLS);
     do stagesData <- fetchFromAPI (stage API_URLS);
     do weaponsData <- fetchFromAPI (weapon API_URLS);
     modify (withData
       {| rules := filter (λ item, negb (includes (excludedRule EXCLUDED_ITEMS) (key item))) rulesData;
          stages := filter (λ item, negb (includes (excludedStage EXCLUDED_ITEMS) (key item))) stagesData;
          weapons := weaponsData |}) ;;;
     (do s <- get; setItem (rule CACHE_KEYS) (CatalogJson (rules (data s)))) ;;;
     (do s <- get; setItem (stage CACHE_KEYS) (CatalogJson (stages (data s)))) ;;;
     (do s <- get; setItem (weapon CACHE_KEYS) (CatalogJson (weapons (data s)))))%prog
    (λ error, (consoleError (ErrorFetching error) ;;; throw error)%prog).

(** The four [removeItem] calls that open [refreshData()]. *)
Definition clearCache : prog State unit :=
  (removeItem (rule CACHE_KEYS) ;;;
   removeItem (stage CACHE_KEYS) ;;;
   removeItem (weapon CACHE_KEYS) ;;;
   removeItem CACHE_KEYS_selectedItems)%prog.

Definition updateLoadingStatus (message : string) : prog State unit :=
  modify (λ s, withDom (withLoadingStatus message (dom s)) s).

(** [saveSelectedItems()] *)
Definition saveSelectedItems : prog State unit :=
  tryCatch
    (do s <- get; setItem CACHE_KEYS_selectedItems (SelectionJson (selectedItems s)))%prog
    (λ error, consoleError (ErrorSavingSelected error)).

(** [loadSelectedItems()]: an absent entry and the empty text are falsy; a
    text that does not parse is logged; all three yield [null]. *)
Definition loadSelectedItems : prog State (option json) :=
  (do s <- get;
   match localStorage s !! CACHE_KEYS_selectedItems with
   | Some (Json v) => ret (Some v)
   | Some (NotJson text) =>
       if bool_decide (text = "") then ret None
       else (consoleError (ErrorLoadingSelected SyntaxError) ;;; ret None)
   | None => ret None
   end)%prog.

(** ** UI initialization *)

(** [initializeResults()]: empties the container and renders one card per
    member, reading the member's name input. *)
Definition initializeResults : prog State unit :=
  (modify (λ s, withDom (withResultCards 0 (dom s)) s) ;;;
   do s <- get;
   forFrom1 (memberCount (dom s)) (λ i,
     do memberName <- memberNameValue i;
     modify (λ s, withDom (withResultCards i (dom s)) s)))%prog.

(** [initializeFilters()].  [createFilterList] and
    [updateGroupSelectAllCheckbox] only render and are left out. *)
Definition initializeFilters : prog State unit :=
  (modify (λ s, withSelectedItems
     (ByType (map key (rules (data s))) (map key (stages (data s)))
             (map key (weapons (data s)))) s) ;;;
   do cachedSelections <- loadSelectedItems;
   match cachedSelections with
   | Some (SelectionJson cached) =>
       modify (λ s, withSelectedItems
         (ByType (filter (λ key, includes (rule cached) key) (rule (selectedItems s)))
                 (filter (λ key, includes (stage cached) key) (stage (selectedItems s)))
                 (filter (λ key, includes (weapon cached) key) (weapon (selectedItems s)))) s)
   | Some (CatalogJson _) =>
       (* the parsed array has no [rule], [stage] or [weapon]: the first
          filter callback that runs throws *)
       do s <- get;
       match rule (selectedItems s), stage (selectedItems s), weapon (selectedItems s) with
       | [], [], [] => ret tt
       | _, _, _ => throw TypeError
       end
   | None => ret tt
   end ;;;
   modify (λ s, withTempFilterSelections
     (ByType (rule (selectedItems s)) (stage (selectedItems s)) (weapon (selectedItems s))) s))%prog.

(** [initializeUI()] *)
Definition initializeUI : prog State unit :=
  (initializeFilters ;;; initializeResults)%prog.

(** [refreshData()] *)
Definition refreshData : prog State unit :=
  tryCatch
    (clearCache ;;; fetchAndCacheData ;;; initializeUI)%prog
    (λ error, (consoleError (ErrorRefreshing error) ;;;
               updateLoadingStatus "更新に失敗しました")%prog).

(** ** The staged filter state *)

(** [saveCurrentFilterState()] *)
Definition saveCurrentFilterState : prog State unit :=
  modify (λ s, withFilterStateSnapshot
    (ByType (rule (selectedItems s)) (stage (selectedItems s)) (weapon (selectedItems s))) s).

(** The copy of the saved selections into the temporary ones, as
    [initializeButtonVisibility()] does it after saving the snapshots; the
    member snapshot and the listener wiring are not part of [State]. *)
Definition initializeButtonVisibility : prog State unit :=
  (saveCurrentFilterState ;;;
   modify (λ s, withTempFilterSelections
     (ByType (rule (selectedItems s)) (stage (selectedItems s)) (weapon (selectedItems s))) s))%prog.

(** One of [ruleChanged], [stageChanged], [weaponChanged]. *)
Definition changed (temp saved : list string) : bool :=
  negb (bool_decide (length temp = length saved))
  || negb (forallb (λ item, includes saved item) temp).

Definition filtersChanged (s : State) : bool :=
  changed (rule (tempFilterSelections s)) (rule (selectedItems s))
  || changed (stage (tempFilterSelections s)) (stage (selectedItems s))
  || changed (weapon (tempFilterSelections s)) (weapon (selectedItems s)).

(** [checkFilterChanges()]: shows or hides the apply button. *)
Definition checkFilterChanges : prog State unit :=
  modify (λ s, withDom (withApplyFilterSettingsBtn (filtersChanged s) (dom s)) s).

(** [applyFilterSettings()] *)
Definition applyFilterSettings : prog State unit :=
  (modify (λ s, withSelectedItems
     (ByType (rule (tempFilterSelections s)) (stage (tempFilterSelections s))
             (weapon (tempFilterSelections s))) s) ;;;
   saveSelectedItems ;;;
   saveCurrentFilterState ;;;
   modify (λ s, withDom (withApplyFilterSettingsBtn false (dom s)) s) ;;;
   initializeResults)%prog.

(** ** Roulette logic *)

(** What [getAvailableItems] can return: an array of items, or, for a type
    name found on [Object.prototype], that member. *)
Inductive pool : Type :=
| Items (items : list Item)
| Member (member : string) (len : option nat).

(** [pool.length]; [None] is [undefined]. *)
Definition poolLength (p : pool) : option nat :=
  match p with
  | Items items => Some (length items)
  | Member _ len => len
  end.

(** [getAvailableItems(type)].  It reads the state only. *)
Definition getAvailableItems (s : State) (type : string) : completion pool :=
  let itemsMap := ByType (rules (data s)) (stages (data s)) (weapons (data s)) in
  let items :=                               (* [itemsMap[type] || []] *)
    match getProp itemsMap type with
    | Own items => Items items
    | Inherited member len => Member member len
    | Undefined => Items []
    end in
  match getProp (selectedItems s) type with
  | Undefined => Throw TypeError             (* [undefined.length] *)
  | Own selected =>
      if bool_decide (length selected = 0) then Normal items
      else match items with
           | Items items => Normal (Items (filter (λ item, includes selected (key item)) items))
           | Member _ _ => Throw TypeError   (* [items.filter] is not a function *)
           end
  | Inherited _ len =>
      if bool_decide (len = Some 0) then Normal items
      else match items with
           | Items [] => Normal (Items [])
           | Items (_ :: _) => Throw TypeError   (* [includes] is not a function *)
           | Member _ _ => Throw TypeError       (* [items.filter] is not a function *)
           end
  end.

(** [getTypeName(type)]: [typeNames[type] || type]. *)
Definition getTypeName (type : string) : label :=
  match getProp (ByType "ルール" "ステージ" "ブキ") type with
  | Own name => LabelText name
  | Inherited member _ => LabelMember member
  | Undefined => LabelText type
  end.

(** [selectRandomItem(items)]; [None] is [null] or [undefined]. *)
Definition selectRandomItem (items : pool) : prog State (option Item) :=
  match poolLength items with
  | Some 0 => ret None
  | Some n =>
      (do j <- randomBelow n;
       ret (match items with Items items => items !! j | Member _ _ => None end))%prog
  | None => (do j <- randomBelow 0; ret None)%prog   (* index [NaN] *)
  end.

(** [setTimeout(() => { ...; currentResults[slot] = item; }, 10)].  With
    [item] null the callback throws in [getItemName] before the write. *)
Definition queueResult (slot : string) (item : option Item) : prog State unit :=
  match item with
  | Some item => modify (λ s, withTimers (timers s ++ [(slot, item)]) s)
  | None => ret tt
  end.

(** The queued callbacks run, in order. *)
Definition runTimers (s : State) : State :=
  withTimers []
    (withCurrentResults
       (foldl (λ results w, <[w.1 := w.2]> results) (currentResults s) (timers s)) s).

(** A name without [<] is text wherever it is parsed as HTML. *)
Fixpoint plainText (name : string) : bool :=
  match name with
  | "" => true
  | String c rest => negb (bool_decide (String c "" = "<")) && plainText rest
  end.

(** [document.querySelector(`#result-${i} .result-${type}`)].
    [initializeResults] writes the member names into the cards through
    [innerHTML] without escaping them.  While every name is plain text the
    cards are the template's: the element is present when card [i] is
    rendered and [type] is [weapon], the one class the cards carry.  A name
    with a [<] in it can open a tag or a comment that changes the elements
    of the cards; what is selected then is for the parser to say. *)
Definition hasResultElement (s : State) (i : nat) (type : string) : bool :=
  if forallb plainText (cardNames (dom s))
  then bool_decide (type = "weapon") && bool_decide (1 ≤ i ≤ resultCards (dom s))%nat
  else markup env (cardNames (dom s)) i type.

(** [runRoulette(type)] *)
Definition runRoulette (type : string) : prog State unit :=
  (do s <- get;
   let memberCount := memberCount (dom s) in
   do availableItems <- (λ s, (s, getAvailableItems s type));
   if bool_decide (poolLength availableItems = Some 0) then
     alert (NoneAvailable (getTypeName type))
   else if bool_decide (type = "rule") || bool_decide (type = "stage") then
     do item <- selectRandomItem availableItems;
     do s <- get;
     if (if bool_decide (type = "rule") then commonRule (dom s) else commonStage (dom s))
     then queueResult ("common-" +:+ type) item
     else ret tt
   else
     forFrom1 memberCount (λ i,
       do item <- selectRandomItem availableItems;
       do s <- get;
       if hasResultElement s i type
       then queueResult (pretty i +:+ "-" +:+ type) item
       else ret tt))%prog.

(** ** Team division *)

Section Shuffle.
Context {A : Type}.

(** [[...array]]: a new array object with the same elements. *)
Definition spread (array : nat) : prog (Machine A) nat :=
  λ m, match arrays m !! array with
       | Some elements =>
           ({| arrays := arrays m ++ [elements]; randomCount := randomCount m |},
            Normal (length (arrays m)))
       | None => (m, Throw TypeError)
       end.

(** [[a[i], a[j]] = [a[j], a[i]]] on the elements: both reads, then the
    write to [i], then the write to [j].  The loop below keeps
    [j ≤ i < a.length], so both reads find an element. *)
Definition swapElements (i j : nat) (elements : list A) : list A :=
  match elements !! i, elements !! j with
  | Some x, Some y => <[j := x]> (<[i := y]> elements)
  | _, _ => elements
  end.

(** The same on the array object at address [a]. *)
Definition swap (a : nat) (i j : nat) : prog (Machine A) unit :=
  modify (λ m,
    match arrays m !! a with
    | Some elements =>
        {| arrays := <[a := swapElements i j elements]> (arrays m);
           randomCount := randomCount m |}
    | None => m
    end).

Definition randomIndex (n : nat) : prog (Machine A) nat :=
  λ m, ({| arrays := arrays m; randomCount := S (randomCount m) |},
        Normal (floorTimes (random env (randomCount m)) n)).

(** [for (let i = ...; i > 0; i--) { j = ...; swap }] from a given [i]. *)
Fixpoint shuffleLoop (shuffled : nat) (i : nat) : prog (Machine A) unit :=
  match i with
  | 0 => ret tt
  | S i' =>
      (do j <- randomIndex (i + 1);
       swap shuffled i j ;;;
       shuffleLoop shuffled i')%prog
  end.

(** [shuffleArray(array)] *)
Definition shuffleArray (array : nat) : prog (Machine A) nat :=
  (do shuffled <- spread array;
   do m <- get;
   shuffleLoop shuffled (length (default [] (arrays m !! shuffled)) - 1) ;;;
   ret shuffled)%prog.

End Shuffle.

(** [Math.ceil(memberCount / 2)] *)
Definition ceilHalf (n : nat) : nat := (n + 1) `div` 2.

(** The loop of [divideTeams] that pushes the member names. *)
Fixpoint memberNamesFrom (i : nat) (steps : nat) : prog State (list string) :=
  match steps with
  | 0 => ret []
  | S steps' =>
      (do memberName <- memberNameValue i;
       do rest <- memberNamesFrom (S i) steps';
       ret (memberName :: rest))%prog
  end.

(** The call [shuffleArray(members)] made by [divideTeams]: [members] is
    the one array object involved, and the calls of [Math.random] count on. *)
Definition shuffleMembers (members : list string) : prog State (list string) :=
  λ s, match shuffleArray 0 {| arrays := [members]; randomCount := randomCalls s |} with
       | (m, Normal shuffled) =>
           (withRandomCalls (randomCount m) s, Normal (default [] (arrays m !! shuffled)))
       | (m, Throw e) => (withRandomCalls (randomCount m) s, Throw e)
       end.

(** [divideTeams()] up to the two slices. *)
Definition splitTeams : prog State (list string * list string) :=
  (do s <- get;
   let memberCount := memberCount (dom s) in
   do members <- memberNamesFrom 1 memberCount;
   do shuffledMembers <- shuffleMembers members;
   let alphaSize := ceilHalf memberCount in
   let alphaTeam := take alphaSize shuffledMembers in
   let bravoTeam := drop alphaSize shuffledMembers in
   ret (alphaTeam, bravoTeam))%prog.

(** The inner loop of [displayTeamResults]: the first [i], counted from
    [i], whose name is [memberName]. *)
Fixpoint firstNamed (memberName : string) (memberNames : list string) (i : nat) : option nat :=
  match memberNames with
  | [] => None
  | n :: rest => if bool_decide (n = memberName) then Some i
                 else firstNamed memberName rest (S i)
  end.

(** One [forEach] of [displayTeamResults]. *)
Definition assignTeam (t : team) (memberNames : list string)
    (members : list string) (teams : gmap nat team) : gmap nat team :=
  foldl (λ teams memberName,
           match firstNamed memberName memberNames 1 with
           | Some i => <[i := t]> teams
           | None => teams
           end) teams members.

(** [displayTeamResults(alphaTeam, bravoTeam)] *)
Definition displayTeamResults (alphaTeam bravoTeam : list string) : prog State unit :=
  (do s <- get;
   do memberNames <- memberNamesFrom 1 (memberCount (dom s));
   modify (withCurrentTeams ∅) ;;;
   modify (λ s, withCurrentTeams (assignTeam alpha memberNames alphaTeam (currentTeams s)) s) ;;;
   modify (λ s, withCurrentTeams (assignTeam bravo memberNames bravoTeam (currentTeams s)) s))%prog.

(** [divideTeams()]; [updateResultCardsTeamColor] only renders. *)
Definition divideTeams : prog State unit :=
  (do teams <- splitTeams;
   displayTeamResults teams.1 teams.2)%prog.

End WithEnv.

(** * The other handlers of the script *)

(** ** Editing the filters *)

(** The three type literals that [createFilterList],
    [updateGroupSelectAllCheckbox] and the select-all handlers are called
    with. *)
Inductive catalogType : Type := Rule | Stage | Weapon.

Global Instance catalogType_eq_dec : EqDecision catalogType.
Proof. solve_decision. Defined.

(** [o[type]] and [o[type] = x] for one of the three literals. *)
Definition selection {A} (t : catalogType) (o : byType A) : A :=
  match t with Rule => rule o | Stage => stage o | Weapon => weapon o end.
Definition withSelection {A} (t : catalogType) (x : A) (o : byType A) : byType A :=
  match t with
  | Rule => ByType x (stage o) (weapon o)
  | Stage => ByType (rule o) x (weapon o)
  | Weapon => ByType (rule o) (stage o) x
  end.

Definition typeName (t : catalogType) : string :=
  match t with Rule => "rule" | Stage => "stage" | Weapon => "weapon" end.

(** The catalog [createFilterList(type, items)] is called with. *)
Definition catalog (t : catalogType) (d : Data) : list Item :=
  match t with Rule => rules d | Stage => stages d | Weapon => weapons d end.

(** The [change] listener that [createFilterList(type, items)] attaches to
    the checkbox of the item with key [itemKey]; [checked] is the state the
    checkbox has after the click. *)
Definition onFilterCheckboxChange (t : catalogType) (itemKey : string) (checked : bool)
    : prog State unit :=
  (modify (λ s,
     let temp := tempFilterSelections s in
     if checked then
       if includes (selection t temp) itemKey then s
       else withTempFilterSelections
              (withSelection t (selection t temp ++ [itemKey]) temp) s
     else withTempFilterSelections
            (withSelection t
               (filter (λ key, negb (bool_decide (key = itemKey))) (selection t temp))
               temp) s) ;;;
   checkFilterChanges)%prog.

(** [handleSelectAllRules(event)], with [event.target.checked]. *)
Definition handleSelectAllRules (checked : bool) : prog State unit :=
  (modify (λ s, withTempFilterSelections
     (ByType (if checked then map key (rules (data s)) else [])
             (stage (tempFilterSelections s)) (weapon (tempFilterSelections s))) s) ;;;
   checkFilterChanges)%prog.

(** [handleSelectAllStages(event)] *)
Definition handleSelectAllStages (checked : bool) : prog State unit :=
  (modify (λ s, withTempFilterSelections
     (ByType (rule (tempFilterSelections s))
             (if checked then map key (stages (data s)) else [])
             (weapon (tempFilterSelections s))) s) ;;;
   checkFilterChanges)%prog.

(** [handleSelectAllWeapons(event)] *)
Definition handleSelectAllWeapons (checked : bool) : prog State unit :=
  (modify (λ s, withTempFilterSelections
     (ByType (rule (tempFilterSelections s)) (stage (tempFilterSelections s))
             (if checked then map key (weapons (data s)) else [])) s) ;;;
   checkFilterChanges)%prog.

(** The state [updateGroupSelectAllCheckbox(type)] gives the select-all
    checkbox of the type. *)
Definition updateGroupSelectAllCheckbox (t : catalogType) (s : State) : bool :=
  let items := catalog t (data s) in
  let selectedCount := length (selection t (tempFilterSelections s)) in
  bool_decide (0 < length items) && bool_decide (selectedCount = length items).

(** The steps that write the selections once the lists are rendered: a
    click on the checkbox of an item, on a select-all checkbox or on the
    apply button, and [initializeFilters] run again by a load. *)
Inductive filterIntent : Type :=
| ToggleItem (t : catalogType) (itemKey : string) (checked : bool)
| SelectAll (t : catalogType) (checked : bool)
| ApplyFilters
| ReloadFilters.

Definition runFilterIntent (env : Env) (intent : filterIntent) : prog State unit :=
  match intent with
  | ToggleItem t itemKey checked => onFilterCheckboxChange t itemKey checked
  | SelectAll Rule checked => handleSelectAllRules checked
  | SelectAll Stage checked => handleSelectAllStages checked
  | SelectAll Weapon checked => handleSelectAllWeapons checked
  | ApplyFilters => applyFilterSettings env
  | ReloadFilters => initializeFilters
  end.

(** A handler that throws ends its own event only: the next event finds the
    state the handler left. *)
Definition runFilterIntents (env : Env) (intents : list filterIntent) (s : State) : State :=
  foldl (λ s intent, (runFilterIntent env intent s).1) s intents.

(** A checkbox exists for the items of the catalog only. *)
Definition rendered (d : Data) (intent : filterIntent) : Prop :=
  match intent with
  | ToggleItem t itemKey _ => itemKey ∈ map key (catalog t d)
  | _ => True
  end.

(** The selections of a type hold catalog keys, each once. *)
Definition withinCatalog (s : State) : Prop :=
  ∀ t, NoDup (map key (catalog t (data s)))
       ∧ NoDup (selection t (selectedItems s))
       ∧ NoDup (selection t (tempFilterSelections s))
       ∧ selection t (selectedItems s) ⊆ map key (catalog t (data s))
       ∧ selection t (tempFilterSelections s) ⊆ map key (catalog t (data s)).

(** ** The member settings and the page load

    The functions below use more of the page and of the script's variables
    than [State] holds.  [App] adds them: the snapshot of the member
    settings, the team division checkbox, the two buttons these functions
    show and hide, the entries of [localStorage] under [memberCount],
    [memberName<i>] and [teamDivisionToggle] (plain texts, under keys
    disjoint from the cache keys), and the console messages of these
    functions. *)

(** [memberStateSnapshot] once saved. *)
Record MemberSnapshot : Type := {
  snapshotMemberCount : nat;
  snapshotTeamDivisionEnabled : bool;
  snapshotMemberNames : gmap nat string;
}.

Inductive appLogEntry : Type :=
| ErrorLoadingData (e : exn)          (* 'Error loading data:' *)
| ErrorParsingCached (e : exn).       (* 'Error parsing cached data:' *)

Record App : Type := {
  core : State;
  memberStateSnapshot : option MemberSnapshot;   (* [None] is the initial [{}] *)
  teamDivisionToggle : bool;                     (* [#teamDivisionToggle.checked] *)
  confirmMembersBtn : bool;                      (* [style.display] is ['block'] *)
  teamDivisionOnlyBtn : bool;                    (* [style.display] is [''] *)
  memberStorage : gmap string string;
  appConsole : list appLogEntry;
}.

Definition withCore (x : State) (a : App) : App :=
  {| core := x; memberStateSnapshot := memberStateSnapshot a;
     teamDivisionToggle := teamDivisionToggle a;
     confirmMembersBtn := confirmMembersBtn a;
     teamDivisionOnlyBtn := teamDivisionOnlyBtn a;
     memberStorage := memberStorage a; appConsole := appConsole a |}.
Definition withMemberStateSnapshot (x : option MemberSnapshot) (a : App) : App :=
  {| core := core a; memberStateSnapshot := x;
     teamDivisionToggle := teamDivisionToggle a;
     confirmMembersBtn := confirmMembersBtn a;
     teamDivisionOnlyBtn := teamDivisionOnlyBtn a;
     memberStorage := memberStorage a; appConsole := appConsole a |}.
Definition withTeamDivisionToggle (x : bool) (a : App) : App :=
  {| core := core a; memberStateSnapshot := memberStateSnapshot a;
     teamDivisionToggle := x;
     confirmMembersBtn := confirmMembersBtn a;
     teamDivisionOnlyBtn := teamDivisionOnlyBtn a;
     memberStorage := memberStorage a; appConsole := appConsole a |}.
Definition withConfirmMembersBtn (x : bool) (a : App) : App :=
  {| core := core a; memberStateSnapshot := memberStateSnapshot a;
     teamDivisionToggle := teamDivisionToggle a;
     confirmMembersBtn := x;
     teamDivisionOnlyBtn := teamDivisionOnlyBtn a;
     memberStorage := memberStorage a; appConsole := appConsole a |}.
Definition withTeamDivisionOnlyBtn (x : bool) (a : App) : App :=
  {| core := core a; memberStateSnapshot := memberStateSnapshot a;
     teamDivisionToggle := teamDivisionToggle a;
     confirmMembersBtn := confirmMembersBtn a;
     teamDivisionOnlyBtn := x;
     memberStorage := memberStorage a; appConsole := appConsole a |}.
Definition withMemberStorage (x : gmap string string) (a : App) : App :=
  {| core := core a; memberStateSnapshot := memberStateSnapshot a;
     teamDivisionToggle := teamDivisionToggle a;
     confirmMembersBtn := confirmMembersBtn a;
     teamDivisionOnlyBtn := teamDivisionOnlyBtn a;
     memberStorage := x; appConsole := appConsole a |}.
Definition withAppConsole (x : list appLogEntry) (a : App) : App :=
  {| core := core a; memberStateSnapshot := memberStateSnapshot a;
     teamDivisionToggle := teamDivisionToggle a;
     confirmMembersBtn := confirmMembersBtn a;
     teamDivisionOnlyBtn := teamDivisionOnlyBtn a;
     memberStorage := memberStorage a; appConsole := x |}.

(** A function of the first part, run on the [State] inside [App]. *)
Definition onCore {A} (p : prog State A) : prog App A :=
  λ a, let '(s, r) := p (core a) in (withCore s a, r).

Section MembersWithEnv.
Variable env : Env.

(** [localStorage.setItem(k, v)] for the member settings. *)
Definition setMemberItem (k : string) (v : string) : prog App unit :=
  λ a, if setItemThrows env k then (a, Throw QuotaExceeded)
       else (withMemberStorage (<[k := v]> (memberStorage a)) a, Normal tt).

(** [`memberName${i}`], the key in the store and the id of the input. *)
Definition memberNameKey (i : nat) : string := "memberName" +:+ pretty i.

(** [document.getElementById(`memberName${i}`)], and its value if it is
    there. *)
Definition memberInput (a : App) (i : nat) : option string :=
  match i with
  | 0 => None
  | S i' => memberNameInputs (dom (core a)) !! i'
  end.

(** [initializeMemberNames()]: one input per member, holding the stored
    name, or the placeholder when none or the empty text is stored. *)
Definition initializeMemberNames : prog App unit :=
  modify (λ a,
    let memberCount := memberCount (dom (core a)) in
    withCore
      (withDom
         (withMembers memberCount
            (map (λ i, match memberStorage a !! memberNameKey i with
                       | Some v => if bool_decide (v = "") then "メンバー" +:+ pretty i else v
                       | None => "メンバー" +:+ pretty i
                       end) (seq 1 memberCount))
            (dom (core a))) (core a)) a).

(** [saveCurrentMemberState()] *)
Definition saveCurrentMemberState : prog App unit :=
  modify (λ a,
    let memberCount := memberCount (dom (core a)) in
    withMemberStateSnapshot
      (Some {| snapshotMemberCount := memberCount;
               snapshotTeamDivisionEnabled := teamDivisionToggle a;
               snapshotMemberNames :=
                 foldl (λ names i, match memberInput a i with
                                   | Some v => <[i := v]> names
                                   | None => names
                                   end) ∅ (seq 1 memberCount) |}) a).

(** The test of [checkMemberChanges()]: some setting differs from the
    snapshot. *)
Definition memberChanges (a : App) : bool :=
  let memberCount := memberCount (dom (core a)) in
  match memberStateSnapshot a with
  | None => true                       (* [memberCount !== undefined] *)
  | Some snapshot =>
      negb (bool_decide (memberCount = snapshotMemberCount snapshot))
      || negb (bool_decide (teamDivisionToggle a = snapshotTeamDivisionEnabled snapshot))
      || existsb (λ i, match memberInput a i with
                       | Some currentValue =>
                           negb (bool_decide
                                   (currentValue
                                    = default "" (snapshotMemberNames snapshot !! i)))
                       | None => false
                       end) (seq 1 memberCount)
  end.

(** [checkMemberChanges()]: shows or hides the confirm button. *)
Definition checkMemberChanges : prog App unit :=
  modify (λ a, withConfirmMembersBtn (memberChanges a) a).

(** [applyTeamDivisionState(isChecked)]; [updateResultCardsTeamColor] only
    renders. *)
Definition applyTeamDivisionState (isChecked : bool) : prog App unit :=
  if isChecked then
    (onCore (divideTeams env) ;;;
     modify (withTeamDivisionOnlyBtn true))%prog
  else
    (onCore (modify (withCurrentTeams ∅)) ;;;
     modify (withTeamDivisionOnlyBtn false))%prog.

(** The loop of [confirmMembers] that stores the names. *)
Fixpoint storeMemberNames (i : nat) (steps : nat) : prog App unit :=
  match steps with
  | 0 => ret tt
  | S steps' =>
      (do a <- get;
       match memberInput a i with
       | Some v => setMemberItem (memberNameKey i) v
       | None => ret tt
       end ;;;
       storeMemberNames (S i) steps')%prog
  end.

(** [confirmMembers()] *)
Definition confirmMembers : prog App unit :=
  (do a <- get;
   let memberCount := memberCount (dom (core a)) in
   setMemberItem "memberCount" (pretty memberCount) ;;;
   storeMemberNames 1 memberCount ;;;
   let teamDivisionEnabled := teamDivisionToggle a in
   setMemberItem "teamDivisionToggle" (if teamDivisionEnabled then "true" else "false") ;;;
   applyTeamDivisionState teamDivisionEnabled ;;;
   saveCurrentMemberState ;;;
   modify (withConfirmMembersBtn false) ;;;
   onCore initializeResults)%prog.

(** The [change] listener of the member count input, once the user has
    set it to [n]. *)
Definition onMemberCountChange (n : nat) : prog App unit :=
  (onCore (modify (λ s, withDom (withMembers n (memberNameInputs (dom s)) (dom s)) s)) ;;;
   initializeMemberNames ;;;
   checkMemberChanges)%prog.

(** The [input] listener of the name input of member [i], once the user
    has typed [v] into it. *)
Definition onMemberNameInput (i : nat) (v : string) : prog App unit :=
  (onCore (modify (λ s, withDom
     (withMembers (memberCount (dom s))
        (match i with 0 => memberNameInputs (dom s)
                    | S i' => <[i' := v]> (memberNameInputs (dom s)) end)
        (dom s)) s)) ;;;
   checkMemberChanges)%prog.

(** The [change] listener of the team division checkbox, once the user has
    set it to [checked]. *)
Definition onTeamDivisionToggleChange (checked : bool) : prog App unit :=
  (modify (withTeamDivisionToggle checked) ;;; checkMemberChanges)%prog.

(** [runAllRoulette()] *)
Definition runAllRoulette : prog App unit :=
  (onCore initializeResults ;;;
   do a <- get;
   (if teamDivisionToggle a then applyTeamDivisionState true else ret tt) ;;;
   onCore (runRoulette env "rule") ;;;
   onCore (runRoulette env "stage") ;;;
   onCore (runRoulette env "weapon"))%prog.

(** What [loadFromCache] finds under one cache key: [JSON.parse] of a text
    that is there and not empty. *)
Definition parseCached (entry : option blob) : completion (option json) :=
  match entry with
  | None => Normal None
  | Some (NotJson text) => if bool_decide (text = "") then Normal None else Throw SyntaxError
  | Some (Json v) => Normal (Some v)
  end.

(** [loadFromCache()]: the three fields start as empty arrays; the first
    text that does not parse ends the parsing and is logged. *)
Definition loadFromCache : prog App (byType json) :=
  λ a,
    let ruleCache := localStorage (core a) !! rule CACHE_KEYS in
    let stageCache := localStorage (core a) !! stage CACHE_KEYS in
    let weaponCache := localStorage (core a) !! weapon CACHE_KEYS in
    let empty := CatalogJson [] in
    match parseCached ruleCache with
    | Throw e => (withAppConsole (appConsole a ++ [ErrorParsingCached e]) a,
                  Normal (ByType empty empty empty))
    | Normal r =>
        match parseCached stageCache with
        | Throw e => (withAppConsole (appConsole a ++ [ErrorParsingCached e]) a,
                      Normal (ByType (default empty r) empty empty))
        | Normal st =>
            match parseCached weaponCache with
            | Throw e => (withAppConsole (appConsole a ++ [ErrorParsingCached e]) a,
                          Normal (ByType (default empty r) (default empty st) empty))
            | Normal w => (a, Normal (ByType (default empty r) (default empty st)
                                             (default empty w)))
            end
        end
    end.

(** [cached.length > 0]: an object that is not an array has no length. *)
Definition cachedItems (v : json) : option (list Item) :=
  match v with
  | CatalogJson (item :: items) => Some (item :: items)
  | _ => None
  end.

(** [initializeButtonVisibility()] with the member snapshot. *)
Definition initializeButtonVisibilityApp : prog App unit :=
  (saveCurrentMemberState ;;; onCore initializeButtonVisibility)%prog.

(** [loadDataFromCacheOrAPI()] *)
Definition loadDataFromCacheOrAPI : prog App unit :=
  tryCatch
    (do cached <- loadFromCache;
     match cachedItems (rule cached), cachedItems (stage cached), cachedItems (weapon cached) with
     | Some r, Some st, Some w =>
         onCore (modify (withData {| rules := r; stages := st; weapons := w |})) ;;;
         onCore initializeUI
     | _, _, _ =>
         onCore (fetchAndCacheData env) ;;;
         onCore initializeUI
     end ;;;
     initializeButtonVisibilityApp)%prog
    (λ error,
       (modify (λ a, withAppConsole (appConsole a ++ [ErrorLoadingData error]) a) ;;;
        onCore (updateLoadingStatus "エラー: データを読み込めません"))%prog).

End MembersWithEnv.

(** ** Notions for the page load *)

(** The three cache entries hold catalogs that are not empty. *)
Definition cacheComplete (s : State) (d : Data) : Prop :=
  localStorage s !! rule CACHE_KEYS = Some (Json (CatalogJson (rules d)))
  ∧ localStorage s !! stage CACHE_KEYS = Some (Json (CatalogJson (stages d)))
  ∧ localStorage s !! weapon CACHE_KEYS = Some (Json (CatalogJson (weapons d)))
  ∧ rules d ≠ [] ∧ stages d ≠ [] ∧ weapons d ≠ [].

(** The entry of the stored selection is absent, a text, or a selection as
    [saveSelectedItems] writes it. *)
Definition selectionEntryUsable (s : State) : Prop :=
  ∀ items, localStorage s !! CACHE_KEYS_selectedItems ≠ Some (Json (CatalogJson items)).

(** ** Notions for the catalog cache *)

(** The three requests are answered. *)
Definition allFetched (env : Env) : Prop :=
  ∃ rulesData stagesData weaponsData,
    remote env (rule API_URLS) = Ok rulesData
    ∧ remote env (stage API_URLS) = Ok stagesData
    ∧ remote env (weapon API_URLS) = Ok weaponsData.

(** The catalogs [fetchAndCacheData] keeps of the fetched ones. *)
Definition kept (rulesData stagesData weaponsData : list Item) : Data :=
  {| rules := filter (λ item, key item ∉ excludedRule EXCLUDED_ITEMS) rulesData;
     stages := filter (λ item, key item ∉ excludedStage EXCLUDED_ITEMS) stagesData;
     weapons := weaponsData |}.

(** The member name inputs of all counted members are rendered. *)
Definition inputsRendered (s : State) : Prop :=
  memberCount (dom s) ≤ length (memberNameInputs (dom s)).

(** ** Notions for the draw *)

(** The body of the member loop of [runRoulette], for member [i]. *)
Definition drawForMember (env : Env) (availableItems : pool) (type : string) (i : nat)
    : prog State unit :=
  (do item <- selectRandomItem env availableItems;
   do s <- get;
   if hasResultElement env s i type
   then queueResult (pretty i +:+ "-" +:+ type) item
   else ret tt)%prog.

(** The writes a weapon draw queues for the members after member [i], given
    the items drawn for them in order: one per member whose result card is
    rendered. *)
Fixpoint weaponEntries (i : nat) (cards : nat) (drawn : list Item) : list (string * Item) :=
  match drawn with
  | [] => []
  | item :: rest =>
      (if bool_decide (S i ≤ cards) then [(pretty (S i) +:+ "-weapon", item)] else [])
      ++ weaponEntries (S i) cards rest
  end.

(** ** Notions used to state the properties *)

(** The stored committed selection as [initializeFilters] finds it: a
    selection written by [saveSelectedItems], or nothing that parses. *)
Definition storedCommitted (s : State) (stored : option (byType (list string))) : Prop :=
  match stored with
  | Some selection =>
      localStorage s !! CACHE_KEYS_selectedItems = Some (Json (SelectionJson selection))
  | None => ∀ v, localStorage s !! CACHE_KEYS_selectedItems ≠ Some (Json v)
  end.

(** Positions [i] and [j] of [l] exchanged: each holds what the other
    held, every other position holds what it held. *)
Definition swapped {A} (i j : nat) (l l' : list A) : Prop :=
  length l' = length l
  ∧ l' !! i = l !! j
  ∧ l' !! j = l !! i
  ∧ ∀ k, k ≠ i → k ≠ j → l' !! k = l !! k.

(** [j] is the integer part of the double [u * n]. *)
Definition floorOf (u : unitInterval) (n j : nat) : Prop :=
  (N.of_nat j * 2 ^ exponent u ≤ timesDouble u n
   < (N.of_nat j + 1) * 2 ^ exponent u)%N.

(** Fisher-Yates in the words of the specification: for index [i] from
    [length - 1] down to [1], pick a random [j] in [[0, i]] and swap the
    elements at [i] and [j].  [fisherYatesFrom rand i calls l result]: the
    steps from index [i] down to [1] lead from [l] to [result], each [j]
    being the integer part of the next number of [rand], counted from
    [calls], times [i + 1]. *)
Inductive fisherYatesFrom {A} (rand : nat → unitInterval) :
    nat → nat → list A → list A → Prop :=
| fisherYates_done calls l : fisherYatesFrom rand 0 calls l l
| fisherYates_step i calls j l exchanged result :
    floorOf (rand calls) (S i + 1) j →
    j ≤ S i →
    swapped (S i) j l exchanged →
    fisherYatesFrom rand i (S calls) exchanged result →
    fisherYatesFrom rand (S i) calls l result.

(** The least multiple of [2^-26] that is at least [j / n], a double: it
    makes [j] the integer part of its product with [n]. *)
Definition doubleAbove (j n : nat) : unitInterval :=
  {| bits := ((N.of_nat j * 2 ^ 26 + N.of_nat n - 1) `div` N.of_nat n * 2 ^ 27)%N;
     scale := 0 |}.

(** The same as a fold over the indices, with the swap of [shuffleArray];
    [pick i] is the [j] picked at index [i]. *)
Definition fisherYates {A} (pick : nat → nat) (l : list A) : list A :=
  foldl (λ acc i, swapElements i (pick i) acc) l (reverse (seq 1 (length l - 1))).

(** The [j] that [shuffleArray] picks at index [i] of an array of length
    [n], when [calls] calls of [Math.random] were made before. *)
Definition picked (env : Env) (calls n : nat) (i : nat) : nat :=
  floorTimes (random env (calls + (n - 1 - i))) (i + 1).

(** Two states that differ in the page only. *)
Definition sameButDom (s s' : State) : Prop :=
  data s' = data s ∧ selectedItems s' = selectedItems s
  ∧ tempFilterSelections s' = tempFilterSelections s
  ∧ filterStateSnapshot s' = filterStateSnapshot s
  ∧ currentResults s' = currentResults s ∧ currentTeams s' = currentTeams s
  ∧ localStorage s' = localStorage s ∧ timers s' = timers s
  ∧ randomCalls s' = randomCalls s ∧ console s' = console s ∧ alerts s' = alerts s.

(** The keys of a catalog. *)
Definition keys (catalog : list Item) : list string := map key catalog.

(** ** Sample inputs *)

Definition sampleItem (k : string) : Item := {| key := k; name := NameText k |}.

Definition sampleRules : list Item :=
  [sampleItem "area"; sampleItem "tricolor"; sampleItem "nawabari"].
Definition sampleStages : list Item := [sampleItem "grand_arena"; sampleItem "yunohana"].
Definition sampleWeapons : list Item := [sampleItem "wakaba"; sampleItem "tricolor"].

(** A remote source that answers the three requests, a store that takes
    every write, as random numbers the doubles [⌊k / (k + 3) * 2^53⌋ / 2^53],
    and a parser for names that open a comment: the card of such a name
    loses its weapon element, the other cards keep theirs. *)
Definition sampleEnv : Env :=
  {| random := λ k, {| bits := (N.of_nat k * 2 ^ 53) `div` (N.of_nat k + 3); scale := 0 |};
     remote := λ url,
       if bool_decide (url = rule API_URLS) then Ok sampleRules
       else if bool_decide (url = stage API_URLS) then Ok sampleStages
       else Ok sampleWeapons;
     setItemThrows := λ _, false;
     markup := λ names i type,
       bool_decide (type = "weapon")
       && match i with
          | 0 => false
          | S i' => from_option plainText false (names !! i')
          end |}.

(** The same with a store that refuses every write. *)
Definition fullStoreEnv : Env :=
  {| random := random sampleEnv; remote := remote sampleEnv;
     setItemThrows := λ _, true; markup := markup sampleEnv |}.

Definition sampleDom : Dom :=
  {| memberCount := 3; memberNameInputs := ["A"; "B"; "C"];
     commonRule := true; commonStage := true; resultCards := 3;
     applyFilterSettingsBtn := false; loadingStatus := None;
     cardNames := ["A"; "B"; "C"] |}.

(** The state at startup: nothing loaded, nothing stored. *)
Definition initialState : State :=
  {| data := {| rules := []; stages := []; weapons := [] |};
     selectedItems := ByType [] [] [];
     tempFilterSelections := ByType [] [] [];
     filterStateSnapshot := ByType [] [] [];
     currentResults := ∅; currentTeams := ∅; localStorage := ∅;
     dom := sampleDom; timers := []; randomCalls := 0;
     console := []; alerts := [] |}.

(** A stored selection with a key, [gone], that no catalog has any more. *)
Definition sampleStored : byType (list string) :=
  ByType ["nawabari"; "gone"] ["yunohana"] [].

(** Catalogs loaded, the selection above in the store. *)
Definition loadedState : State :=
  withLocalStorage {[ CACHE_KEYS_selectedItems := Json (SelectionJson sampleStored) ]}
    (withData {| rules := [sampleItem "area"; sampleItem "nawabari"];
                 stages := [sampleItem "yunohana"];
                 weapons := [sampleItem "wakaba"] |} initialState).

(** A remote source that cannot be reached. *)
Definition offlineEnv : Env :=
  {| random := random sampleEnv; remote := λ _, Unreachable;
     setItemThrows := λ _, false; markup := markup sampleEnv |}.

(** Catalogs loaded, one key of each saved, nothing pending. *)
Definition selectedState : State :=
  withTempFilterSelections (ByType ["area"] ["yunohana"] ["wakaba"])
    (withSelectedItems (ByType ["area"] ["yunohana"] ["wakaba"]) loadedState).

(** Four members counted where three inputs are rendered. *)
Definition shortState : State :=
  withDom (withMembers 4 ["A"; "B"; "C"] sampleDom) loadedState.

(** The page around [loadedState], team division ticked, nothing confirmed
    yet. *)
Definition sampleApp : App :=
  {| core := loadedState; memberStateSnapshot := None; teamDivisionToggle := true;
     confirmMembersBtn := false; teamDivisionOnlyBtn := false;
     memberStorage := ∅; appConsole := [] |}.

(** The catalogs as an earlier load left them in the cache. *)
Definition sampleCached : Data :=
  {| rules := sampleRules; stages := sampleStages; weapons := sampleWeapons |}.

(** The page at startup with a complete cache. *)
Definition cachedApp : App :=
  withCore
    (withLocalStorage
       {[ rule CACHE_KEYS := Json (CatalogJson sampleRules);
          stage CACHE_KEYS := Json (CatalogJson sampleStages);
          weapon CACHE_KEYS := Json (CatalogJson sampleWeapons) ]}
       initialState)
    sampleApp.

(** Tick a rule, clear the stages, apply, reload. *)
Definition sampleIntents : list filterIntent :=
  [ToggleItem Rule "nawabari" true; SelectAll Stage false; ApplyFilters; ReloadFilters].

(** A heap with one array. *)
Definition sampleMachine : Machine nat := {| arrays := [[10; 20; 30]]; randomCount := 0 |}.

(** * Properties *)

(** ** The loops and the frame of [initializeResults] *)

Lemma forUpTo_invariant {St} (P : St → Prop) (body : nat → prog St unit) :
  (∀ i s, P s → P (body i s).1) →
  ∀ steps i s, P s → P (forUpTo body i steps s).1.
Proof.
  intros Hbody steps. induction steps as [|steps IH]; intros i s Hs; simpl; [done|].
  unfold bind. specialize (Hbody i s Hs).
  destruct (body i s) as [s' [[]|e]]; simpl in *; [by apply IH | done].
Qed.

Lemma initializeResults_frame s : sameButDom s (initializeResults s).1.
Proof.
  unfold initializeResults, forFrom1, bind, modify, get. simpl.
  apply (forUpTo_invariant (sameButDom s)).
  - intros i s' Hs'. unfold bind, memberNameValue, modify.
    destruct i as [|i]; simpl; [done|].
    destruct (memberNameInputs (dom s') !! i); simpl; [|done].
    exact Hs'.
  - unfold sameButDom. simpl. repeat split.
Qed.

(** ** The dirty flag *)

Lemma includes_elem (l : list string) (k : string) : includes l k = true ↔ k ∈ l.
Proof. unfold includes. apply bool_decide_eq_true. Qed.

Lemma changed_same (l : list string) : changed l l = false.
Proof.
  unfold changed. rewrite bool_decide_eq_true_2 by done. simpl.
  apply negb_false_iff, forallb_forall. intros k Hk.
  apply includes_elem. by apply list_elem_of_In.
Qed.

Lemma filtersChanged_same s :
  tempFilterSelections s = selectedItems s → filtersChanged s = false.
Proof. intros H. unfold filtersChanged. rewrite H, !changed_same. done. Qed.

Lemma byType_eta {A} (x : byType A) : ByType (rule x) (stage x) (weapon x) = x.
Proof. by destruct x. Qed.

Lemma saveSelectedItems_frame env s :
  ∃ s', saveSelectedItems env s = (s', Normal tt)
        ∧ selectedItems s' = selectedItems s
        ∧ tempFilterSelections s' = tempFilterSelections s
        ∧ dom s' = dom s.
Proof.
  unfold saveSelectedItems, tryCatch, bind, get, setItem, consoleError, modify.
  destruct (setItemThrows env CACHE_KEYS_selectedItems); simpl; eauto.
Qed.

Lemma applyFilterSettings_selected env s s' r :
  applyFilterSettings env s = (s', r) →
  selectedItems s' = tempFilterSelections s
  ∧ tempFilterSelections s' = tempFilterSelections s
  ∧ filterStateSnapshot s' = tempFilterSelections s.
Proof.
  unfold applyFilterSettings, bind at 1. simpl.
  unfold bind at 1.
  destruct (saveSelectedItems_frame env
              (withSelectedItems (ByType (rule (tempFilterSelections s))
                 (stage (tempFilterSelections s)) (weapon (tempFilterSelections s))) s))
    as (s2 & -> & Hsel & Htmp & _).
  unfold bind, saveCurrentFilterState, modify. simpl.
  match goal with |- context [initializeResults ?x] =>
    pose proof (initializeResults_frame x) as Hf; destruct (initializeResults x) as [s3 r3] end.
  destruct Hf as (_ & Hs & Ht & Hsnap & _). simpl in *.
  intros [= <- <-].
  rewrite Hs, Ht, Hsnap, !byType_eta, Hsel, Htmp, byType_eta. done.
Qed.

(** C1.  Applying the filter settings copies the temporary selections into
    the saved ones, and the copy made by [initializeButtonVisibility] resets
    the temporary selections to the saved ones; after either, the change
    test of [checkFilterChanges] is false and the check hides the apply
    button.  This holds whether or not [applyFilterSettings] completes
    normally. *)
Theorem commit_or_discard_clears_dirty (env : Env) (s : State) :
  (let s' := (applyFilterSettings env s).1 in
   selectedItems s' = tempFilterSelections s
   ∧ filtersChanged s' = false
   ∧ applyFilterSettingsBtn (dom (checkFilterChanges s').1) = false)
  ∧ (let s' := (initializeButtonVisibility s).1 in
     tempFilterSelections s' = selectedItems s
     ∧ selectedItems s' = selectedItems s
     ∧ filtersChanged s' = false
     ∧ applyFilterSettingsBtn (dom (checkFilterChanges s').1) = false).
Proof.
  split.
  - destruct (applyFilterSettings env s) as [s' r] eqn:E. simpl.
    apply applyFilterSettings_selected in E as (Hsel & Htmp & _).
    assert (filtersChanged s' = false) as Hclean
      by (apply filtersChanged_same; congruence).
    unfold checkFilterChanges, modify. simpl. by rewrite Hclean.
  - unfold initializeButtonVisibility, saveCurrentFilterState, bind, modify. simpl.
    rewrite byType_eta.
    assert (∀ s0, tempFilterSelections s0 = selectedItems s0 →
                  applyFilterSettingsBtn (dom (checkFilterChanges s0).1) = false) as Hbtn.
    { intros s0 H0. unfold checkFilterChanges, modify. simpl.
      by rewrite filtersChanged_same. }
    split_and!; [done | done | by apply filtersChanged_same | by apply Hbtn].
Qed.

(** ** Initialization of the selections *)

Lemma loadSelectedItems_stored s stored :
  storedCommitted s stored →
  ∃ s', loadSelectedItems s = (s', Normal (SelectionJson <$> stored))
        ∧ data s' = data s ∧ selectedItems s' = selectedItems s.
Proof.
  unfold storedCommitted, loadSelectedItems, bind, get, consoleError, modify, ret.
  destruct stored as [selection|]; simpl.
  - intros ->. eauto.
  - intros Hnone. destruct (localStorage s !! CACHE_KEYS_selectedItems) as [[v|text]|].
    + by destruct (Hnone v).
    + case_bool_decide; simpl; eauto.
    + eauto.
Qed.

Lemma elem_of_filter_includes (selected : list string) (l : list string) (k : string) :
  k ∈ filter (λ key, includes selected key) l ↔ k ∈ selected ∧ k ∈ l.
Proof.
  rewrite list_elem_of_filter. unfold includes.
  by rewrite bool_decide_spec.
Qed.

(** C2.  [initializeFilters] completes normally on a stored selection or on
    none.  The saved selection is then the catalog keys that the stored
    selection includes (as sets: the intersection), or all catalog keys
    when nothing is stored; the temporary selection equals the saved one;
    and both hold keys of the current catalogs only. *)
Theorem initializeFilters_committed (s : State) (stored : option (byType (list string))) :
  storedCommitted s stored →
  ∃ s', initializeFilters s = (s', Normal tt)
    ∧ data s' = data s
    ∧ (let committed := selectedItems s' in
       match stored with
       | Some selection =>
           (∀ k, k ∈ rule committed ↔ k ∈ rule selection ∧ k ∈ keys (rules (data s)))
           ∧ (∀ k, k ∈ stage committed ↔ k ∈ stage selection ∧ k ∈ keys (stages (data s)))
           ∧ (∀ k, k ∈ weapon committed ↔ k ∈ weapon selection ∧ k ∈ keys (weapons (data s)))
       | None =>
           committed = ByType (keys (rules (data s))) (keys (stages (data s)))
                              (keys (weapons (data s)))
       end)
    ∧ tempFilterSelections s' = selectedItems s'
    ∧ rule (selectedItems s') ⊆ keys (rules (data s'))
    ∧ stage (selectedItems s') ⊆ keys (stages (data s'))
    ∧ weapon (selectedItems s') ⊆ keys (weapons (data s'))
    ∧ rule (tempFilterSelections s') ⊆ keys (rules (data s'))
    ∧ stage (tempFilterSelections s') ⊆ keys (stages (data s'))
    ∧ weapon (tempFilterSelections s') ⊆ keys (weapons (data s')).
Proof.
  intros Hstored. unfold initializeFilters, bind at 1. cbn [modify].
  unfold bind at 1.
  match goal with |- context [loadSelectedItems ?x] =>
    destruct (loadSelectedItems_stored x stored) as (s1 & -> & Hdata & Hsel) end.
  { destruct stored; exact Hstored. }
  cbn in Hdata, Hsel.
  destruct stored as [selection|]; cbn [fmap option_fmap option_map];
    unfold bind, modify, ret; cbn;
    eexists; (split; [reflexivity|]); cbn; rewrite ?Hsel, ?Hdata; unfold keys; cbn.
  - split_and!; try done; try apply elem_of_filter_includes;
      intros k Hk; by apply elem_of_filter_includes in Hk as [_ ?].
  - split_and!; done.
Qed.

(** ** The pool of a draw *)

Lemma filter_includes_ext (selected : list string) (items : list Item) :
  filter (λ item, includes selected (key item)) items
  = filter (λ item, key item ∈ selected) items.
Proof.
  apply list_filter_iff. intros item. unfold includes.
  by rewrite bool_decide_spec.
Qed.

Lemma availableItems_own (selected : list string) (items : list Item) :
  (if bool_decide (length selected = 0) then Normal (Items items)
   else Normal (Items (filter (λ item, includes selected (key item)) items)))
  = Normal (Items (if bool_decide (selected = []) then items
                   else filter (λ item, key item ∈ selected) items)).
Proof.
  rewrite filter_includes_ext.
  destruct selected; simpl; repeat case_bool_decide; done.
Qed.

(** C3.  For each of the three catalog types, [getAvailableItems] returns
    the whole catalog when the saved selection of the type is empty, and
    otherwise the catalog items whose key is in the saved selection, in
    catalog order. *)
Theorem getAvailableItems_fallback (s : State) :
  getAvailableItems s "rule"
  = Normal (Items (if bool_decide (rule (selectedItems s) = []) then rules (data s)
                   else filter (λ item, key item ∈ rule (selectedItems s)) (rules (data s))))
  ∧ getAvailableItems s "stage"
    = Normal (Items (if bool_decide (stage (selectedItems s) = []) then stages (data s)
                     else filter (λ item, key item ∈ stage (selectedItems s)) (stages (data s))))
  ∧ getAvailableItems s "weapon"
    = Normal (Items (if bool_decide (weapon (selectedItems s) = []) then weapons (data s)
                     else filter (λ item, key item ∈ weapon (selectedItems s)) (weapons (data s)))).
Proof.
  unfold getAvailableItems. cbn [getProp bool_decide]. simpl.
  split_and!; apply availableItems_own.
Qed.

(** ** The refresh *)

Ltac cacheEntryCases k :=
  destruct (decide (k = "spla-weapons")) as [->|];
    [simplify_map_eq; auto|];
  destruct (decide (k = "spla-stages")) as [->|];
    [simplify_map_eq; auto|];
  destruct (decide (k = "spla-rules")) as [->|];
    simplify_map_eq; auto.

(** The state [fetchAndCacheData] reaches when the three requests succeed:
    the catalogs are in memory whatever the store does, and each cache
    entry is either the one found or the catalog in memory. *)
Lemma fetchAndCacheData_fetched env s rulesData stagesData weaponsData :
  remote env (rule API_URLS) = Ok rulesData →
  remote env (stage API_URLS) = Ok stagesData →
  remote env (weapon API_URLS) = Ok weaponsData →
  ∀ s' r, fetchAndCacheData env s = (s', r) →
  data s' = {| rules := filter (λ item, negb (includes (excludedRule EXCLUDED_ITEMS) (key item))) rulesData;
               stages := filter (λ item, negb (includes (excludedStage EXCLUDED_ITEMS) (key item))) stagesData;
               weapons := weaponsData |}
  ∧ (∀ k, localStorage s' !! k = localStorage s !! k
          ∨ (k = rule CACHE_KEYS
             ∧ localStorage s' !! k = Some (Json (CatalogJson (rules (data s')))))
          ∨ (k = stage CACHE_KEYS
             ∧ localStorage s' !! k = Some (Json (CatalogJson (stages (data s')))))
          ∨ (k = weapon CACHE_KEYS
             ∧ localStorage s' !! k = Some (Json (CatalogJson (weapons (data s'))))))
  ∧ (r = Normal tt ∨ r = Throw QuotaExceeded)
  ∧ (r = Normal tt ↔
     setItemThrows env (rule CACHE_KEYS) = false
     ∧ setItemThrows env (stage CACHE_KEYS) = false
     ∧ setItemThrows env (weapon CACHE_KEYS) = false)
  ∧ (r = Normal tt → console s' = console s)
  ∧ (∀ e, r = Throw e → console s' = (console s ++ [ErrorFetching e])%list)
  ∧ selectedItems s' = selectedItems s
  ∧ tempFilterSelections s' = tempFilterSelections s
  ∧ dom s' = dom s.
Proof.
  intros Hr Hs Hw s' r.
  unfold fetchAndCacheData, tryCatch, fetchFromAPI. rewrite Hr, Hs, Hw.
  unfold bind, ret, modify, get, throw, consoleError, setItem. cbn.
  destruct (setItemThrows env "spla-rules") eqn:E1; cbn;
    [|destruct (setItemThrows env "spla-stages") eqn:E2; cbn;
      [|destruct (setItemThrows env "spla-weapons") eqn:E3; cbn]];
    intros [= <- <-]; cbn; split_and!;
    try done; try (by left); try (by right);
    try (split; [done | intros; destruct_and?; done]);
    try (intros e [= <-]; done).
  - intros k. cacheEntryCases k.
  - intros k. cacheEntryCases k.
  - intros k. cacheEntryCases k.
Qed.

(** C4.  When the three requests succeed, the rule and stage catalogs that
    [fetchAndCacheData] leaves in [data] are the fetched ones without the
    items whose key is in [EXCLUDED_ITEMS] for the type (nothing else is
    dropped), the weapon catalog is the fetched one, and every cache entry
    is either left as found or holds the catalog now in [data]; when no
    write is refused, the three cache entries hold the three catalogs. *)
Theorem refresh_applies_exclusions (env : Env) (s : State)
    (rulesData stagesData weaponsData : list Item) :
  remote env (rule API_URLS) = Ok rulesData →
  remote env (stage API_URLS) = Ok stagesData →
  remote env (weapon API_URLS) = Ok weaponsData →
  let s' := (fetchAndCacheData env s).1 in
  (∀ item, item ∈ rules (data s') ↔
           item ∈ rulesData ∧ key item ∉ excludedRule EXCLUDED_ITEMS)
  ∧ (∀ item, item ∈ stages (data s') ↔
             item ∈ stagesData ∧ key item ∉ excludedStage EXCLUDED_ITEMS)
  ∧ weapons (data s') = weaponsData
  ∧ (localStorage s' !! rule CACHE_KEYS = localStorage s !! rule CACHE_KEYS
     ∨ localStorage s' !! rule CACHE_KEYS = Some (Json (CatalogJson (rules (data s')))))
  ∧ (localStorage s' !! stage CACHE_KEYS = localStorage s !! stage CACHE_KEYS
     ∨ localStorage s' !! stage CACHE_KEYS = Some (Json (CatalogJson (stages (data s')))))
  ∧ (localStorage s' !! weapon CACHE_KEYS = localStorage s !! weapon CACHE_KEYS
     ∨ localStorage s' !! weapon CACHE_KEYS = Some (Json (CatalogJson (weapons (data s')))))
  ∧ ((fetchAndCacheData env s).2 = Normal tt →
     localStorage s' !! rule CACHE_KEYS = Some (Json (CatalogJson (rules (data s'))))
     ∧ localStorage s' !! stage CACHE_KEYS = Some (Json (CatalogJson (stages (data s'))))
     ∧ localStorage s' !! weapon CACHE_KEYS = Some (Json (CatalogJson (weapons (data s'))))).
Proof.
  intros Hr Hs Hw. destruct (fetchAndCacheData env s) as [s' r] eqn:E. cbn.
  destruct (fetchAndCacheData_fetched env s _ _ _ Hr Hs Hw s' r E)
    as (Hdata & Hstore & _ & Hnormal & _).
  assert (∀ excluded (items : list Item) item,
            item ∈ filter (λ item, negb (includes excluded (key item))) items
            ↔ item ∈ items ∧ key item ∉ excluded) as Hfilter.
  { intros excluded items item. rewrite list_elem_of_filter. unfold includes.
    rewrite negb_True, bool_decide_spec. tauto. }
  split_and!.
  - intros item. rewrite Hdata. apply Hfilter.
  - intros item. rewrite Hdata. apply Hfilter.
  - by rewrite Hdata.
  - destruct (Hstore (rule CACHE_KEYS)) as [?|[[_ ?]|[[? _]|[? _]]]]; auto; done.
  - destruct (Hstore (stage CACHE_KEYS)) as [?|[[? _]|[[_ ?]|[? _]]]]; auto; done.
  - destruct (Hstore (weapon CACHE_KEYS)) as [?|[[? _]|[[? _]|[_ ?]]]]; auto; done.
  - intros ->. destruct Hnormal as [Hnormal _].
    destruct (Hnormal eq_refl) as (T1 & T2 & T3). clear Hnormal Hstore.
    revert E. unfold fetchAndCacheData, tryCatch, fetchFromAPI. rewrite Hr, Hs, Hw.
    unfold bind, ret, modify, get, setItem. cbn in T1, T2, T3 |- *.
    rewrite T1. cbn. rewrite T2. cbn. rewrite T3. cbn.
    intros [= <-]. cbn. by simplify_map_eq.
Qed.

(** C9, as the code has it.  When the three requests succeed and the store
    refuses one of the three cache writes, [fetchAndCacheData] logs the
    failure under its fetch message and throws it again, with the fetched
    catalogs already in [data]; [refreshData] then reports that the update
    failed and does not rebuild the selections. *)
Theorem refresh_rethrows_store_failure (env : Env) (s : State)
    (rulesData stagesData weaponsData : list Item) :
  remote env (rule API_URLS) = Ok rulesData →
  remote env (stage API_URLS) = Ok stagesData →
  remote env (weapon API_URLS) = Ok weaponsData →
  setItemThrows env (rule CACHE_KEYS) = true
  ∨ setItemThrows env (stage CACHE_KEYS) = true
  ∨ setItemThrows env (weapon CACHE_KEYS) = true →
  (∃ s', fetchAndCacheData env s = (s', Throw QuotaExceeded)
         ∧ console s' = (console s ++ [ErrorFetching QuotaExceeded])%list
         ∧ weapons (data s') = weaponsData)
  ∧ (∃ s', refreshData env s = (s', Normal tt)
           ∧ loadingStatus (dom s') = Some "更新に失敗しました"
           ∧ console s' = (console s ++ [ErrorFetching QuotaExceeded;
                                         ErrorRefreshing QuotaExceeded])%list
           ∧ selectedItems s' = selectedItems s
           ∧ tempFilterSelections s' = tempFilterSelections s).
Proof.
  intros Hr Hs Hw Hrefused.
  assert (∀ s0, ∃ s', fetchAndCacheData env s0 = (s', Throw QuotaExceeded)
            ∧ console s' = (console s0 ++ [ErrorFetching QuotaExceeded])%list
            ∧ weapons (data s') = weaponsData
            ∧ selectedItems s' = selectedItems s0
            ∧ tempFilterSelections s' = tempFilterSelections s0
            ∧ dom s' = dom s0) as Hfetch.
  { intros s0. destruct (fetchAndCacheData env s0) as [s' r] eqn:E.
    destruct (fetchAndCacheData_fetched env s0 _ _ _ Hr Hs Hw s' r E)
      as (Hdata & _ & [-> | ->] & Hnormal & _ & Hlog & Hsel & Htmp & Hdom).
    - destruct Hnormal as [Hnormal _]. destruct (Hnormal eq_refl) as (T1 & T2 & T3).
      destruct Hrefused as [?|[?|?]]; congruence.
    - exists s'. rewrite Hdata. split_and!; auto. }
  split.
  - destruct (Hfetch s) as (s' & E & Hlog & Hweapons & _). eauto.
  - unfold refreshData, tryCatch, bind at 1. unfold clearCache, bind, removeItem, modify.
    cbn.
    match goal with |- context [fetchAndCacheData env ?x] =>
      destruct (Hfetch x) as (s' & -> & Hlog & _ & Hsel & Htmp & Hdom) end.
    cbn in *. eexists. split; [reflexivity|]. cbn.
    rewrite Hlog, Hsel, Htmp, <- app_assoc. done.
Qed.

(** ** The draw *)

(** C5.  When the pool [getAvailableItems] returns for a type is empty,
    [runRoulette] only raises the notice that nothing is available, naming
    the type through [getTypeName]: no result is written, no write is
    queued, no random number is drawn; the state is otherwise the one
    found.  The three catalog types are named [ルール], [ステージ] and [ブキ]. *)
Theorem runRoulette_refuses_empty_pool (env : Env) (s : State) (type : string) (items : pool) :
  getAvailableItems s type = Normal items →
  poolLength items = Some 0 →
  runRoulette env type s
  = (withAlerts (alerts s ++ [NoneAvailable (getTypeName type)]) s, Normal tt)
  ∧ (let s' := (runRoulette env type s).1 in
     currentResults s' = currentResults s
     ∧ timers s' = timers s
     ∧ currentResults (runTimers s') = currentResults (runTimers s)
     ∧ randomCalls s' = randomCalls s)
  ∧ getTypeName "rule" = LabelText "ルール"
  ∧ getTypeName "stage" = LabelText "ステージ"
  ∧ getTypeName "weapon" = LabelText "ブキ".
Proof.
  intros Hpool Hempty.
  assert (runRoulette env type s
          = (withAlerts (alerts s ++ [NoneAvailable (getTypeName type)]) s, Normal tt)) as E.
  { unfold runRoulette, bind, get. rewrite Hpool.
    rewrite bool_decide_eq_true_2 by done. done. }
  rewrite E. split_and!; done.
Qed.

Lemma getProp_unknown {A} (o : byType A) (type : string) :
  type ∉ ["rule"; "stage"; "weapon"] →
  assoc type objectPrototype = None →
  getProp o type = Undefined.
Proof.
  intros Hnot Hproto. unfold getProp. rewrite Hproto.
  rewrite !not_elem_of_cons in Hnot. destruct Hnot as (? & ? & ? & _).
  by rewrite !bool_decide_eq_false_2.
Qed.

(** C10, amended.  [getAvailableItems] is total on the three catalog
    types, the only type arguments the script passes: it returns an array
    without throwing, and a draw on an empty one is refused through the
    empty-pool branch.  It is not total beyond them: for a type name that
    is neither a catalog type nor a member of [Object.prototype],
    [selectedItems[type]] is undefined and reading its [length] throws a
    [TypeError], which [runRoulette] throws on without a notice and
    without touching the state. *)
Theorem getAvailableItems_catalog_types_only (env : Env) (s : State) (type : string) :
  (type ∈ ["rule"; "stage"; "weapon"] →
   ∃ items, getAvailableItems s type = Normal (Items items)
            ∧ (items = [] →
               runRoulette env type s
               = (withAlerts (alerts s ++ [NoneAvailable (getTypeName type)]) s, Normal tt)))
  ∧ (type ∉ ["rule"; "stage"; "weapon"] →
     assoc type objectPrototype = None →
     getAvailableItems s type = Throw TypeError
     ∧ runRoulette env type s = (s, Throw TypeError)).
Proof.
  split.
  - intros Htype.
    assert (∃ items, getAvailableItems s type = Normal (Items items)) as [items E].
    { rewrite !elem_of_cons in Htype.
      destruct Htype as [-> | [-> | [-> | Hnil]]]; [| | | by apply elem_of_nil in Hnil];
        unfold getAvailableItems; cbn [getProp bool_decide]; simpl;
        rewrite availableItems_own; eauto. }
    exists items. split; [exact E|]. intros ->.
    unfold runRoulette, bind, get. rewrite E.
    rewrite bool_decide_eq_true_2 by done. done.
  - intros Hnot Hproto.
    assert (getAvailableItems s type = Throw TypeError) as E.
    { unfold getAvailableItems. by rewrite !getProp_unknown. }
    split; [done|].
    unfold runRoulette, bind, get. by rewrite E.
Qed.

(** ** The shuffle *)

(** Rounding moves a number by at most one part in [2^53]. *)
Lemma roundToDouble_le (p : N) : (2 ^ 53 * roundToDouble p ≤ (2 ^ 53 + 1) * p)%N.
Proof.
  unfold roundToDouble.
  set (shift := (N.size p - 53)%N).
  assert (2 ^ shift ≠ 0)%N as Hpos by (apply N.pow_nonzero; lia).
  pose proof (N.div_mod p (2 ^ shift)%N Hpos) as Hdm.
  pose proof (N.mod_lt p (2 ^ shift)%N Hpos) as Hr.
  set (q := (p `div` 2 ^ shift)%N) in *. set (r := (p `mod` 2 ^ shift)%N) in *.
  destruct ((2 ^ shift <? 2 * r) || ((2 * r =? 2 ^ shift) && N.odd q))%N eqn:Hup; [|nia].
  assert (2 ^ shift ≤ 2 * r)%N as Hhalf.
  { apply orb_true_iff in Hup as [H|H].
    - apply N.ltb_lt in H. lia.
    - apply andb_true_iff in H as [H _]. apply N.eqb_eq in H. lia. }
  assert (2 ^ 53 * 2 ^ shift ≤ 2 * p)%N as Hbig; [|nia].
  destruct (decide (p = 0%N)) as [->|Hp0].
  - subst r. rewrite N.Div0.mod_0_l in Hhalf. lia.
  - assert (shift ≠ 0%N) as Hs.
    { intros Hs. rewrite Hs in *. change (2 ^ 0)%N with 1%N in *. lia. }
    rewrite <- N.pow_add_r.
    replace (53 + shift)%N with (N.size p) by lia.
    rewrite N.size_log2 by done. rewrite N.pow_succ_r'.
    pose proof (N.log2_spec p). lia.
Qed.

Lemma significand_lt (u : unitInterval) : (significand u < 2 ^ 53)%N.
Proof. unfold significand. apply N.mod_lt. lia. Qed.

(** The rounded product of a double below one and [n] stays below [n]. *)
Lemma floorTimes_lt (u : unitInterval) (n : nat) : 0 < n → floorTimes u n < n.
Proof.
  intros Hn. unfold floorTimes, timesDouble, exponent.
  pose proof (roundToDouble_le (significand u * N.of_nat n)) as Hle.
  pose proof (significand_lt u) as Hm.
  assert (roundToDouble (significand u * N.of_nat n) < 2 ^ (53 + scale u) * N.of_nat n)%N as Hlt.
  { rewrite N.pow_add_r.
    assert (1 ≤ 2 ^ scale u)%N by (pose proof (N.pow_nonzero 2 (scale u)); lia).
    nia. }
  apply N.Div0.div_lt_upper_bound in Hlt. lia.
Qed.

Lemma floorTimes_floorOf (u : unitInterval) (n : nat) : floorOf u n (floorTimes u n).
Proof.
  unfold floorOf, floorTimes. rewrite N2Nat.id.
  assert (2 ^ exponent u ≠ 0)%N as Hpos by (apply N.pow_nonzero; lia).
  pose proof (N.div_mod (timesDouble u n) (2 ^ exponent u)%N Hpos) as Hdm.
  pose proof (N.mod_lt (timesDouble u n) (2 ^ exponent u)%N Hpos) as Hr.
  set (d := (2 ^ exponent u)%N) in *. set (t := timesDouble u n) in *.
  set (q := (t `div` d)%N) in *. set (r := (t `mod` d)%N) in *.
  split; lia.
Qed.

Lemma foldl_ext_elem_of {B C} (f g : B → C → B) (l : list C) :
  (∀ acc k, k ∈ l → f acc k = g acc k) → ∀ b, foldl f b l = foldl g b l.
Proof.
  induction l as [|k l IH]; intros Hfg b; cbn; [done|].
  rewrite Hfg by left. apply IH. intros acc k' Hk'. apply Hfg. by right.
Qed.

Section ShuffleProperties.
Context {A : Type} (env : Env).
Implicit Types (m : Machine A) (elements : list A).

Lemma length_swapElements i j elements :
  length (swapElements i j elements) = length elements.
Proof.
  unfold swapElements.
  destruct (elements !! i), (elements !! j); by rewrite ?length_insert.
Qed.

Lemma swapElements_Permutation i j elements : swapElements i j elements ≡ₚ elements.
Proof.
  unfold swapElements.
  destruct (elements !! i) eqn:Hi, (elements !! j) eqn:Hj; try done.
  by apply Permutation_insert_swap.
Qed.

Lemma shuffleLoop_result i : ∀ m shuffled elements,
  arrays m !! shuffled = Some elements →
  ∃ result,
    shuffleLoop env shuffled i m
    = ({| arrays := <[shuffled := result]> (arrays m);
          randomCount := randomCount m + i |}, Normal tt)
    ∧ result = foldl (λ acc k, swapElements k
                 (floorTimes (random env (randomCount m + (i - k))) (k + 1)) acc)
                 elements (reverse (seq 1 i))
    ∧ result ≡ₚ elements.
Proof.
  induction i as [|i IH]; intros m shuffled elements Hm.
  - exists elements. cbn. rewrite list_insert_id by done.
    rewrite Nat.add_0_r. by destruct m.
  - cbn [shuffleLoop]. unfold bind at 1. unfold randomIndex. unfold bind at 1.
    unfold swap, modify. cbn [arrays randomCount]. rewrite Hm.
    set (j := floorTimes (random env (randomCount m)) (S i + 1)).
    set (m1 := {| arrays := <[shuffled := swapElements (S i) j elements]> (arrays m);
                  randomCount := S (randomCount m) |}).
    destruct (IH m1 shuffled (swapElements (S i) j elements)) as (result & -> & Hfold & Hperm).
    { cbn. apply list_lookup_insert_eq. by eapply lookup_lt_Some. }
    exists result. split_and!.
    + cbn. rewrite list_insert_insert_eq. do 2 f_equal. lia.
    + rewrite seq_S, reverse_snoc. cbn [foldl].
      rewrite Nat.sub_diag, Nat.add_0_r. fold j. rewrite Hfold. cbn [randomCount m1].
      apply foldl_ext_elem_of. intros acc k Hk.
      apply elem_of_reverse, elem_of_seq in Hk.
      do 3 f_equal. lia.
    + by rewrite Hperm, swapElements_Permutation.
Qed.
Lemma picked_le calls n i : picked env calls n i ≤ i.
Proof. unfold picked. pose proof (floorTimes_lt (random env (calls + (n - 1 - i))) (i + 1)). lia. Qed.

Lemma shuffleArray_result m array elements :
  arrays m !! array = Some elements →
  ∃ result,
    shuffleArray env array m
    = ({| arrays := arrays m ++ [result];
          randomCount := randomCount m + (length elements - 1) |},
       Normal (length (arrays m)))
    ∧ result = fisherYates (picked env (randomCount m) (length elements)) elements
    ∧ result ≡ₚ elements.
Proof.
  intros Hm. unfold shuffleArray, bind at 1. unfold spread. rewrite Hm.
  unfold bind at 1. unfold get. cbn [arrays].
  rewrite list_lookup_middle by done. cbn [default].
  unfold bind. change (id elements) with elements.
  edestruct (shuffleLoop_result (length elements - 1)
              {| arrays := arrays m ++ [elements]; randomCount := randomCount m |}
              (length (arrays m)) elements) as (result & -> & Hfold & Hperm).
  { cbn. by apply list_lookup_middle. }
  exists result. split_and!; [|done..].
  cbn. rewrite insert_app_r_alt, Nat.sub_diag by done. done.
Qed.

Lemma swapElements_swapped i j elements :
  j ≤ i → i < length elements → swapped i j elements (swapElements i j elements).
Proof.
  intros Hj Hi. unfold swapElements.
  destruct (lookup_lt_is_Some_2 elements i) as [x Hx]; [lia|].
  destruct (lookup_lt_is_Some_2 elements j) as [y Hy]; [lia|].
  rewrite Hx, Hy. unfold swapped. rewrite !length_insert. split; [done|].
  destruct (decide (i = j)) as [->|Hij].
  - rewrite list_lookup_insert_eq by (rewrite length_insert; lia).
    split_and!; [congruence | congruence |].
    intros k Hk _. by rewrite !list_lookup_insert_ne.
  - split_and!.
    + rewrite list_lookup_insert_ne by done. rewrite list_lookup_insert_eq by lia. done.
    + rewrite list_lookup_insert_eq by (rewrite length_insert; lia). done.
    + intros k Hki Hkj. by rewrite !list_lookup_insert_ne.
Qed.

(** The loop of [shuffleArray] takes the steps of the specification. *)
Lemma foldl_fisherYatesFrom : ∀ i calls elements,
  i ≤ length elements - 1 →
  fisherYatesFrom (random env) i calls elements
    (foldl (λ acc k, swapElements k
              (floorTimes (random env (calls + (i - k))) (k + 1)) acc)
       elements (reverse (seq 1 i))).
Proof.
  induction i as [|i IH]; intros calls elements Hi; [constructor|].
  rewrite seq_S, reverse_snoc. cbn [foldl Nat.add].
  rewrite Nat.sub_diag, Nat.add_0_r.
  set (j := floorTimes (random env calls) (S i + 1)).
  assert (j ≤ S i) as Hj.
  { pose proof (floorTimes_lt (random env calls) (S i + 1)). lia. }
  apply (fisherYates_step _ i calls j elements (swapElements (S i) j elements)).
  - apply floorTimes_floorOf.
  - exact Hj.
  - apply swapElements_swapped; lia.
  - erewrite foldl_ext_elem_of; [apply (IH (S calls)); rewrite length_swapElements; lia|].
    intros acc k Hk. apply elem_of_reverse, elem_of_seq in Hk. cbv beta.
    do 3 f_equal. lia.
Qed.

(** C8.  [shuffleArray] returns a new array object.  Its elements are those
    of the input array after the steps of Fisher-Yates: for [i] from
    [length - 1] down to [1], the integer part [j] of the next
    [Math.random()] times [i + 1], which is in [[0, i]], and the elements
    at [i] and [j] exchanged.  They are a permutation of the input of the
    same length, and every array object that existed before the call, the
    input among them, is left as it was. *)
Theorem shuffleArray_permutes (m : Machine A) (array : nat) (elements : list A) :
  arrays m !! array = Some elements →
  ∃ m' shuffled result,
    shuffleArray env array m = (m', Normal shuffled)
    ∧ arrays m' !! shuffled = Some result
    ∧ fisherYatesFrom (random env) (length elements - 1) (randomCount m) elements result
    ∧ result ≡ₚ elements
    ∧ length result = length elements
    ∧ randomCount m' = randomCount m + (length elements - 1)
    ∧ shuffled ≠ array
    ∧ arrays m' !! array = Some elements
    ∧ (∀ a, a < length (arrays m) → arrays m' !! a = arrays m !! a).
Proof.
  intros Hm. destruct (shuffleArray_result m array elements Hm) as (result & E & Hfy & Hperm).
  eexists _, _, result. split; [exact E|]. cbn.
  pose proof (lookup_lt_Some _ _ _ Hm) as Hlt.
  split_and!.
  - by apply list_lookup_middle.
  - rewrite Hfy. unfold fisherYates.
    erewrite foldl_ext_elem_of; [by apply foldl_fisherYatesFrom|].
    intros acc k Hk. apply elem_of_reverse, elem_of_seq in Hk.
    unfold picked. reflexivity.
  - done.
  - by rewrite Hperm.
  - done.
  - lia.
  - by rewrite lookup_app_l.
  - intros a Ha. by rewrite lookup_app_l.
Qed.

End ShuffleProperties.

(** ** The team division *)

Lemma memberNamesFrom_rendered steps : ∀ i s,
  i + steps ≤ length (memberNameInputs (dom s)) →
  memberNamesFrom (S i) steps s
  = (s, Normal (take steps (drop i (memberNameInputs (dom s))))).
Proof.
  induction steps as [|steps IH]; intros i s Hlen; cbn [memberNamesFrom].
  - by rewrite take_0.
  - unfold bind at 1. unfold memberNameValue.
    destruct (lookup_lt_is_Some_2 (memberNameInputs (dom s)) i) as [v Hv]; [lia|].
    rewrite Hv. unfold bind at 1. rewrite IH by lia. unfold ret.
    do 2 f_equal. rewrite (drop_S _ _ _ Hv). done.
Qed.

Lemma shuffleMembers_result env (members : list string) (s : State) :
  ∃ shuffledMembers,
    shuffleMembers env members s
    = (withRandomCalls (randomCalls s + (length members - 1)) s, Normal shuffledMembers)
    ∧ shuffledMembers = fisherYates (picked env (randomCalls s) (length members)) members
    ∧ shuffledMembers ≡ₚ members.
Proof.
  unfold shuffleMembers.
  destruct (shuffleArray_result env {| arrays := [members]; randomCount := randomCalls s |}
              0 members eq_refl) as (result & -> & Hfy & Hperm).
  exists result. cbn. done.
Qed.


Lemma splitTeams_result env s :
  memberCount (dom s) ≤ length (memberNameInputs (dom s)) →
  let n := memberCount (dom s) in
  let members := take n (memberNameInputs (dom s)) in
  ∃ shuffledMembers,
    splitTeams env s
    = (withRandomCalls (randomCalls s + (n - 1)) s,
       Normal (take (ceilHalf n) shuffledMembers, drop (ceilHalf n) shuffledMembers))
    ∧ shuffledMembers = fisherYates (picked env (randomCalls s) n) members
    ∧ shuffledMembers ≡ₚ members
    ∧ length members = n.
Proof.
  intros Hlen n members.
  assert (length members = n) as Hn by (unfold members; rewrite length_take; lia).
  unfold splitTeams, bind at 1. unfold get. unfold bind at 1.
  rewrite memberNamesFrom_rendered by (cbn; lia). rewrite drop_0. fold n members.
  unfold bind.
  destruct (shuffleMembers_result env members s) as (shuffled & -> & Hfy & Hperm).
  exists shuffled. rewrite Hn in *. done.
Qed.

Lemma Permutation_pair_same (x : string) (l : list string) : l ≡ₚ [x; x] → l = [x; x].
Proof.
  intros Hperm. pose proof (Permutation_length Hperm) as Hlen.
  destruct l as [|a [|b [|c l]]]; cbn in Hlen; try lia.
  assert (∀ y, y ∈ [x; x] → y = x) as Hx.
  { intros y Hy. apply elem_of_cons in Hy as [->|Hy]; [done|].
    by apply list_elem_of_singleton in Hy. }
  rewrite (Hx a), (Hx b); [done | rewrite <- Hperm; right; left | rewrite <- Hperm; left].
Qed.

(** C7, as the code has it.  With two members both named [X], whatever the
    shuffle does, each slice holds one [X] and [displayTeamResults] matches
    both to member 1: member 1 is first put in alpha, then overwritten with
    bravo, and member 2 gets no team. *)
Theorem duplicate_names_leave_member_unassigned (env : Env) (s : State) :
  ∃ s', divideTeams env (withDom (withMembers 2 ["X"; "X"] (dom s)) s) = (s', Normal tt)
        ∧ currentTeams s' = {[ 1 := bravo ]}
        ∧ currentTeams s' !! 1 = Some bravo
        ∧ currentTeams s' !! 2 = None.
Proof.
  set (s0 := withDom (withMembers 2 ["X"; "X"] (dom s)) s).
  destruct (splitTeams_result env s0) as (shuffled & E & _ & Hperm & _); [cbn; lia|].
  cbn in Hperm. apply Permutation_pair_same in Hperm as ->.
  unfold divideTeams, bind at 1. rewrite E. cbn.
  eexists. split; [reflexivity|]. cbn.
  split_and!; [|done..].
  apply map_eq. intros i. destruct (decide (i = 1)) as [->|]; by simplify_map_eq.
Qed.

(** When the names are pairwise distinct the lookup by name is a lookup by
    index, and every member gets the team of the slice its name is in. *)









(** * The theorems at sample inputs *)

Lemma initializeFilters_committed_witness :
  storedCommitted loadedState (Some sampleStored)
  ∧ ∃ s', initializeFilters loadedState = (s', Normal tt)
    ∧ data s' = data loadedState
    ∧ (let committed := selectedItems s' in
       (∀ k, k ∈ rule committed ↔ k ∈ rule sampleStored ∧ k ∈ keys (rules (data loadedState)))
       ∧ (∀ k, k ∈ stage committed ↔ k ∈ stage sampleStored ∧ k ∈ keys (stages (data loadedState)))
       ∧ (∀ k, k ∈ weapon committed ↔ k ∈ weapon sampleStored ∧ k ∈ keys (weapons (data loadedState))))
    ∧ tempFilterSelections s' = selectedItems s'
    ∧ rule (selectedItems s') ⊆ keys (rules (data s'))
    ∧ stage (selectedItems s') ⊆ keys (stages (data s'))
    ∧ weapon (selectedItems s') ⊆ keys (weapons (data s'))
    ∧ rule (tempFilterSelections s') ⊆ keys (rules (data s'))
    ∧ stage (tempFilterSelections s') ⊆ keys (stages (data s'))
    ∧ weapon (tempFilterSelections s') ⊆ keys (weapons (data s')).
Proof.
  split; [reflexivity|].
  apply (initializeFilters_committed loadedState (Some sampleStored)). reflexivity.
Defined.

Lemma refresh_applies_exclusions_witness :
  remote sampleEnv (rule API_URLS) = Ok sampleRules
  ∧ remote sampleEnv (stage API_URLS) = Ok sampleStages
  ∧ remote sampleEnv (weapon API_URLS) = Ok sampleWeapons
  ∧ (let s' := (fetchAndCacheData sampleEnv initialState).1 in
     (∀ item, item ∈ rules (data s') ↔
              item ∈ sampleRules ∧ key item ∉ excludedRule EXCLUDED_ITEMS)
     ∧ (∀ item, item ∈ stages (data s') ↔
                item ∈ sampleStages ∧ key item ∉ excludedStage EXCLUDED_ITEMS)
     ∧ weapons (data s') = sampleWeapons
     ∧ (localStorage s' !! rule CACHE_KEYS = localStorage initialState !! rule CACHE_KEYS
        ∨ localStorage s' !! rule CACHE_KEYS = Some (Json (CatalogJson (rules (data s')))))
     ∧ (localStorage s' !! stage CACHE_KEYS = localStorage initialState !! stage CACHE_KEYS
        ∨ localStorage s' !! stage CACHE_KEYS = Some (Json (CatalogJson (stages (data s')))))
     ∧ (localStorage s' !! weapon CACHE_KEYS = localStorage initialState !! weapon CACHE_KEYS
        ∨ localStorage s' !! weapon CACHE_KEYS = Some (Json (CatalogJson (weapons (data s')))))
     ∧ ((fetchAndCacheData sampleEnv initialState).2 = Normal tt →
        localStorage s' !! rule CACHE_KEYS = Some (Json (CatalogJson (rules (data s'))))
        ∧ localStorage s' !! stage CACHE_KEYS = Some (Json (CatalogJson (stages (data s'))))
        ∧ localStorage s' !! weapon CACHE_KEYS = Some (Json (CatalogJson (weapons (data s')))))).
Proof.
  split; [reflexivity|]. split; [reflexivity|]. split; [reflexivity|].
  apply (refresh_applies_exclusions sampleEnv initialState sampleRules sampleStages sampleWeapons);
    reflexivity.
Defined.

Lemma runRoulette_refuses_empty_pool_witness :
  getAvailableItems initialState "stage" = Normal (Items [])
  ∧ poolLength (Items []) = Some 0
  ∧ runRoulette sampleEnv "stage" initialState
    = (withAlerts (alerts initialState ++ [NoneAvailable (getTypeName "stage")]) initialState,
       Normal tt)
  ∧ (let s' := (runRoulette sampleEnv "stage" initialState).1 in
     currentResults s' = currentResults initialState
     ∧ timers s' = timers initialState
     ∧ currentResults (runTimers s') = currentResults (runTimers initialState)
     ∧ randomCalls s' = randomCalls initialState)
  ∧ getTypeName "rule" = LabelText "ルール"
  ∧ getTypeName "stage" = LabelText "ステージ"
  ∧ getTypeName "weapon" = LabelText "ブキ".
Proof.
  split; [reflexivity|]. split; [reflexivity|].
  apply (runRoulette_refuses_empty_pool sampleEnv initialState "stage" (Items []));
    reflexivity.
Defined.


Lemma shuffleArray_permutes_witness :
  arrays {| arrays := [[10; 20; 30; 40]]; randomCount := 0 |} !! 0 = Some [10; 20; 30; 40]
  ∧ ∃ m' shuffled result,
      shuffleArray sampleEnv 0 {| arrays := [[10; 20; 30; 40]]; randomCount := 0 |}
      = (m', Normal shuffled)
      ∧ arrays m' !! shuffled = Some result
      ∧ fisherYatesFrom (random sampleEnv) (length [10; 20; 30; 40] - 1)
          (randomCount {| arrays := [[10; 20; 30; 40]]; randomCount := 0 |})
          [10; 20; 30; 40] result
      ∧ result ≡ₚ [10; 20; 30; 40]
      ∧ length result = length [10; 20; 30; 40]
      ∧ randomCount m'
        = randomCount {| arrays := [[10; 20; 30; 40]]; randomCount := 0 |}
          + (length [10; 20; 30; 40] - 1)
      ∧ shuffled ≠ 0
      ∧ arrays m' !! 0 = Some [10; 20; 30; 40]
      ∧ (∀ a, a < length (arrays {| arrays := [[10; 20; 30; 40]]; randomCount := 0 |}) →
              arrays m' !! a
              = arrays {| arrays := [[10; 20; 30; 40]]; randomCount := 0 |} !! a).
Proof.
  split; [reflexivity|].
  apply (shuffleArray_permutes sampleEnv
           {| arrays := [[10; 20; 30; 40]]; randomCount := 0 |} 0 [10; 20; 30; 40]).
  reflexivity.
Defined.

Lemma refresh_rethrows_store_failure_witness :
  remote fullStoreEnv (rule API_URLS) = Ok sampleRules
  ∧ remote fullStoreEnv (stage API_URLS) = Ok sampleStages
  ∧ remote fullStoreEnv (weapon API_URLS) = Ok sampleWeapons
  ∧ (setItemThrows fullStoreEnv (rule CACHE_KEYS) = true
     ∨ setItemThrows fullStoreEnv (stage CACHE_KEYS) = true
     ∨ setItemThrows fullStoreEnv (weapon CACHE_KEYS) = true)
  ∧ (∃ s', fetchAndCacheData fullStoreEnv initialState = (s', Throw QuotaExceeded)
           ∧ console s' = console initialState ++ [ErrorFetching QuotaExceeded]
           ∧ weapons (data s') = sampleWeapons)
  ∧ (∃ s', refreshData fullStoreEnv initialState = (s', Normal tt)
           ∧ loadingStatus (dom s') = Some "更新に失敗しました"
           ∧ console s' = console initialState ++ [ErrorFetching QuotaExceeded;
                                                    ErrorRefreshing QuotaExceeded]
           ∧ selectedItems s' = selectedItems initialState
           ∧ tempFilterSelections s' = tempFilterSelections initialState).
Proof.
  split; [reflexivity|]. split; [reflexivity|]. split; [reflexivity|].
  split; [left; reflexivity|].
  apply (refresh_rethrows_store_failure fullStoreEnv initialState
           sampleRules sampleStages sampleWeapons);
    [reflexivity | reflexivity | reflexivity | left; reflexivity].
Defined.

Lemma getAvailableItems_catalog_types_only_witness :
  "stage" ∈ ["rule"; "stage"; "weapon"]
  ∧ ("foo" ∉ ["rule"; "stage"; "weapon"])
  ∧ assoc "foo" objectPrototype = None
  ∧ (∃ items, getAvailableItems initialState "stage" = Normal (Items items)
              ∧ (items = [] →
                 runRoulette sampleEnv "stage" initialState
                 = (withAlerts (alerts initialState ++ [NoneAvailable (getTypeName "stage")])
                      initialState, Normal tt)))
  ∧ getAvailableItems loadedState "foo" = Throw TypeError
  ∧ runRoulette sampleEnv "foo" loadedState = (loadedState, Throw TypeError).
Proof.
  assert ("stage" ∈ ["rule"; "stage"; "weapon"]) as Hin
    by (apply (bool_decide_unpack _); vm_compute; exact I).
  assert ("foo" ∉ ["rule"; "stage"; "weapon"]) as Hnot
    by (apply (bool_decide_unpack _); vm_compute; exact I).
  split; [exact Hin|]. split; [exact Hnot|]. split; [reflexivity|].
  split.
  - exact (proj1 (getAvailableItems_catalog_types_only sampleEnv initialState "stage") Hin).
  - exact (proj2 (getAvailableItems_catalog_types_only sampleEnv loadedState "foo")
             Hnot eq_refl).
Defined.

(** C10 as stated fails: [foo] is not one of the three types, yet
    [getAvailableItems] does not return the empty array for it and the draw
    is not refused with a notice. *)
Lemma unknown_type_is_not_refused :
  ("foo" ∉ ["rule"; "stage"; "weapon"])
  ∧ getAvailableItems loadedState "foo" ≠ Normal (Items [])
  ∧ (∃ e, getAvailableItems loadedState "foo" = Throw e)
  ∧ (runRoulette sampleEnv "foo" loadedState).2 ≠ Normal tt
  ∧ alerts (runRoulette sampleEnv "foo" loadedState).1 = alerts loadedState.
Proof.
  split; [apply (bool_decide_unpack _); vm_compute; exact I|].
  split; [discriminate|]. split; [by exists TypeError|].
  split; [discriminate | reflexivity].
Qed.

(** ** Runs of the embedding *)

(** A refresh at startup caches the filtered catalogs and selects
    everything. *)
Example refresh_at_startup :
  let s := (refreshData sampleEnv initialState).1 in
  keys (rules (data s)) = ["area"; "nawabari"]
  ∧ keys (stages (data s)) = ["yunohana"]
  ∧ keys (weapons (data s)) = ["wakaba"; "tricolor"]
  ∧ selectedItems s = ByType ["area"; "nawabari"] ["yunohana"] ["wakaba"; "tricolor"]
  ∧ tempFilterSelections s = selectedItems s
  ∧ localStorage s !! "spla-stages" = Some (Json (CatalogJson [sampleItem "yunohana"]))
  ∧ resultCards (dom s) = 3.
Proof. vm_compute. repeat split. Qed.

(** A weapon draw for three members writes three slots once the timers
    have run, each with an item of the pool. *)
Example weapon_draw_three_members :
  let s := (refreshData sampleEnv initialState).1 in
  let s' := runTimers (runRoulette sampleEnv "weapon" s).1 in
  key <$> currentResults s' !! "1-weapon" = Some "wakaba"
  ∧ key <$> currentResults s' !! "2-weapon" = Some "wakaba"
  ∧ key <$> currentResults s' !! "3-weapon" = Some "wakaba"
  ∧ currentResults s' !! "4-weapon" = None
  ∧ randomCalls s' = 3.
Proof. vm_compute. repeat split. Qed.

(** A single member goes to alpha. *)
Example one_member_is_alpha :
  let s := withDom (withMembers 1 ["A"] sampleDom) initialState in
  splitTeams sampleEnv s = (s, Normal (["A"], []))
  ∧ currentTeams (divideTeams sampleEnv s).1 !! 1 = Some alpha
  ∧ currentTeams (divideTeams sampleEnv s).1 !! 2 = None.
Proof. vm_compute. repeat split. Qed.

(** A type name found on [Object.prototype]: [toString] has length 0 and is
    taken for an empty pool, [constructor] has length 1 and the filter call
    throws. *)
Example prototype_member_types :
  getAvailableItems loadedState "toString" = Normal (Member "toString" (Some 0))
  ∧ alerts (runRoulette sampleEnv "toString" loadedState).1
    = [NoneAvailable (LabelMember "toString")]
  ∧ getAvailableItems loadedState "constructor" = Throw TypeError.
Proof. vm_compute. repeat split. Qed.

(** The double product is rounded before the floor is taken:
    [0.8333333333333333 * 6] is [5] as a double where the exact product is
    below [5], and [0.02040816326530612 * 49], the double nearest to
    [1/49] times [49], stays below [1]. *)
Example rounded_products :
  floorTimes {| bits := 7505999378950826; scale := 0 |} 6 = 5
  ∧ floorTimes {| bits := 5882252574524729; scale := 5 |} 49 = 0
  ∧ floorTimes {| bits := 5882252574524730; scale := 5 |} 49 = 1.
Proof. vm_compute. repeat split. Qed.

(** A member name with markup in it: what [querySelector] finds in the
    cards is the parser's answer, here that the weapon element of the
    first card is gone.  Both members draw, the first gets no weapon. *)
Example markup_in_a_name :
  let s := (initializeResults
              (withDom (withMembers 2 ["<!--"; "B"] sampleDom) loadedState)).1 in
  let s' := runTimers (runRoulette sampleEnv "weapon" s).1 in
  resultCards (dom s) = 2
  ∧ cardNames (dom s) = ["<!--"; "B"]
  ∧ currentResults s' !! "1-weapon" = None
  ∧ key <$> currentResults s' !! "2-weapon" = Some "wakaba"
  ∧ randomCalls s' = 2.
Proof. vm_compute. repeat split. Qed.

(** * Further properties *)

(** ** Editing the filters *)

Lemma changed_false_iff (temp saved : list string) :
  NoDup temp → NoDup saved →
  changed temp saved = false ↔ ∀ k, k ∈ temp ↔ k ∈ saved.
Proof.
  intros Htemp Hsaved. unfold changed.
  rewrite orb_false_iff, !negb_false_iff, bool_decide_eq_true, forallb_forall.
  split.
  - intros [Hlen Hall].
    assert (∀ k, k ∈ temp → k ∈ saved) as Hsub.
    { intros k Hk. apply includes_elem, Hall. by apply list_elem_of_In. }
    assert (temp ≡ₚ saved) as Hperm.
    { apply submseteq_length_Permutation; [by apply NoDup_submseteq | lia]. }
    intros k. by rewrite Hperm.
  - intros Hiff. split.
    + apply Permutation_length. by apply NoDup_Permutation.
    + intros k Hk. apply includes_elem, Hiff. by apply list_elem_of_In.
Qed.

Lemma filtersChanged_false s :
  filtersChanged s = false ↔
  ∀ t, changed (selection t (tempFilterSelections s)) (selection t (selectedItems s)) = false.
Proof.
  unfold filtersChanged. rewrite !orb_false_iff. split.
  - intros [[? ?] ?] []; done.
  - intros H. split_and!; [apply (H Rule) | apply (H Stage) | apply (H Weapon)].
Qed.

Lemma selection_withSelection {A} (t t' : catalogType) (x : A) (o : byType A) :
  selection t' (withSelection t x o) = if decide (t' = t) then x else selection t' o.
Proof. destruct t, t'; done. Qed.

(** Each intent leaves the catalogs alone and moves the selections as
    follows. *)
Lemma checkFilterChanges_frame s :
  data (checkFilterChanges s).1 = data s
  ∧ selectedItems (checkFilterChanges s).1 = selectedItems s
  ∧ tempFilterSelections (checkFilterChanges s).1 = tempFilterSelections s.
Proof. done. Qed.

Lemma onFilterCheckboxChange_temp t itemKey checked s :
  let s' := (onFilterCheckboxChange t itemKey checked s).1 in
  data s' = data s
  ∧ selectedItems s' = selectedItems s
  ∧ tempFilterSelections s'
    = withSelection t
        (if checked then
           if includes (selection t (tempFilterSelections s)) itemKey
           then selection t (tempFilterSelections s)
           else selection t (tempFilterSelections s) ++ [itemKey]
         else filter (λ key, key ≠ itemKey) (selection t (tempFilterSelections s)))
        (tempFilterSelections s)
  ∧ applyFilterSettingsBtn (dom s') = filtersChanged s'.
Proof.
  unfold onFilterCheckboxChange, bind, modify, checkFilterChanges. cbn.
  assert (∀ l : list string,
            filter (λ key, negb (bool_decide (key = itemKey))) l
            = filter (λ key, key ≠ itemKey) l) as Hfilter.
  { intros l. apply list_filter_iff. intros k.
    rewrite negb_True, bool_decide_spec. done. }
  destruct checked; [destruct (includes _ itemKey) eqn:Hin|]; cbn;
    rewrite ?Hfilter; split_and!; try done.
  destruct t, (tempFilterSelections s); done.
Qed.

Lemma saveSelectedItems_data env s :
  ∃ s', saveSelectedItems env s = (s', Normal tt) ∧ data s' = data s.
Proof.
  unfold saveSelectedItems, tryCatch, bind, get, setItem, consoleError, modify.
  destruct (setItemThrows env CACHE_KEYS_selectedItems); cbn; eauto.
Qed.

Lemma applyFilterSettings_data env s : data (applyFilterSettings env s).1 = data s.
Proof.
  unfold applyFilterSettings, bind at 1. simpl.
  unfold bind at 1.
  destruct (saveSelectedItems_data env
              (withSelectedItems (ByType (rule (tempFilterSelections s))
                 (stage (tempFilterSelections s)) (weapon (tempFilterSelections s))) s))
    as (s2 & -> & Hd).
  unfold bind, saveCurrentFilterState, modify. simpl.
  match goal with |- context [initializeResults ?x] =>
    pose proof (initializeResults_frame x) as (Hf & _);
    destruct (initializeResults x) as [s3 r3] end.
  simpl in *. destruct r3; simpl; congruence.
Qed.

(** What [initializeFilters] leaves, whatever the store holds: the saved
    selections are catalog keys in catalog order, and the temporary ones
    are either their copy or, when the stored value made it throw, the ones
    found. *)
Lemma initializeFilters_outcome s s' r :
  initializeFilters s = (s', r) →
  data s' = data s
  ∧ (∀ t, sublist (selection t (selectedItems s')) (map key (catalog t (data s))))
  ∧ (tempFilterSelections s' = selectedItems s'
     ∨ tempFilterSelections s' = tempFilterSelections s).
Proof.
  unfold initializeFilters, loadSelectedItems, bind, get, modify, ret, throw,
    consoleError, modify. cbn.
  destruct (localStorage s !! CACHE_KEYS_selectedItems) as [[[items|cached]|text]|];
    [| | case_bool_decide |]; cbn.
  - destruct (rules (data s)) eqn:E1, (stages (data s)) eqn:E2,
      (weapons (data s)) eqn:E3; cbn;
      intros [= <- <-]; cbn;
      (split_and!; [done | intros []; cbn; rewrite ?E1, ?E2, ?E3; reflexivity | auto]).
  - intros [= <- <-]. cbn.
    split_and!; [done | intros []; cbn; apply sublist_filter | by left].
  - intros [= <- <-]. cbn. split_and!; [done | intros []; reflexivity | by left].
  - intros [= <- <-]. cbn. split_and!; [done | intros []; reflexivity | by left].
  - intros [= <- <-]. cbn. split_and!; [done | intros []; reflexivity | by left].
Qed.

Lemma handleSelectAll_temp t checked s :
  let s' := (runFilterIntent sampleEnv (SelectAll t checked) s).1 in
  data s' = data s
  ∧ selectedItems s' = selectedItems s
  ∧ tempFilterSelections s'
    = withSelection t (if checked then map key (catalog t (data s)) else [])
        (tempFilterSelections s)
  ∧ applyFilterSettingsBtn (dom s') = filtersChanged s'.
Proof. destruct t; done. Qed.

Lemma runFilterIntent_withinCatalog env intent s :
  withinCatalog s → rendered (data s) intent →
  data (runFilterIntent env intent s).1 = data s
  ∧ withinCatalog (runFilterIntent env intent s).1.
Proof.
  intros Hinv Hrendered.
  destruct intent as [t itemKey checked|t checked| |]; cbn [runFilterIntent].
  - destruct (onFilterCheckboxChange_temp t itemKey checked s) as (Hd & Hsel & Htmp & _).
    split; [done|]. intros t'. destruct (Hinv t') as (Hk & Hs & Ht & Hss & Hts).
    rewrite Hd, Hsel, Htmp, selection_withSelection.
    split_and!; try done; case_decide as Heq; try done; subst t'.
    + destruct checked; [destruct (includes _ itemKey) eqn:Hin; [done|]|].
      * apply NoDup_app. split_and!; [done | | apply NoDup_singleton].
        intros k Hk' ->%list_elem_of_singleton.
        apply includes_elem in Hk'. congruence.
      * by apply NoDup_filter.
    + destruct checked; [destruct (includes _ itemKey) eqn:Hin; [done|]|].
      * intros k [Hk'| ->%list_elem_of_singleton]%elem_of_app; [by apply Hts | done].
      * intros k [_ Hk']%list_elem_of_filter. by apply Hts.
  - assert (runFilterIntent env (SelectAll t checked) s
            = runFilterIntent sampleEnv (SelectAll t checked) s) as E by (by destruct t).
    change (match t with Rule => _ | Stage => _ | Weapon => _ end)
      with (runFilterIntent env (SelectAll t checked)). rewrite E.
    destruct (handleSelectAll_temp t checked s) as (Hd & Hsel & Htmp & _).
    split; [done|]. intros t'. destruct (Hinv t') as (Hk & Hs & Ht & Hss & Hts).
    rewrite Hd, Hsel, Htmp, selection_withSelection.
    split_and!; try done; case_decide as Heq; try done; subst t';
      destruct checked;
      first [done | apply NoDup_nil_2 | by intros ? ? | by intros ? ?%elem_of_nil].
  - pose proof (applyFilterSettings_data env s) as Hd.
    destruct (applyFilterSettings env s) as [s' r] eqn:E.
    apply applyFilterSettings_selected in E as (Hsel & Htmp & _). cbn in *.
    split; [done|]. intros t'. destruct (Hinv t') as (Hk & Hs & Ht & Hss & Hts).
    rewrite Hd, Hsel, Htmp. done.
  - destruct (initializeFilters s) as [s' r] eqn:E.
    apply initializeFilters_outcome in E as (Hd & Hsub & Htmp). cbn.
    split; [done|]. intros t'. destruct (Hinv t') as (Hk & Hs & Ht & Hss & Hts).
    rewrite Hd.
    assert (NoDup (selection t' (selectedItems s'))) by (by apply (sublist_NoDup _ _ Hk (Hsub t'))).
    assert (selection t' (selectedItems s') ⊆ map key (catalog t' (data s))).
    { intros k Hk'. by apply (elem_of_sublist _ _ _ Hk' (Hsub t')). }
    destruct Htmp as [-> | ->]; done.
Qed.

(** X1.  The selections stay within the catalog.  Through any sequence of
    checkbox clicks on rendered items, select-all clicks, applications and
    re-initializations, whatever the store holds or refuses, the saved and
    the temporary selections hold keys of the catalog, each at most once,
    and the catalogs are not touched. *)
Theorem runFilterIntents_withinCatalog (env : Env) (intents : list filterIntent) (s : State) :
  withinCatalog s →
  Forall (rendered (data s)) intents →
  data (runFilterIntents env intents s) = data s
  ∧ withinCatalog (runFilterIntents env intents s).
Proof.
  unfold runFilterIntents. revert s.
  induction intents as [|intent intents IH]; intros s Hinv Hall; cbn [foldl]; [done|].
  apply Forall_cons in Hall as [Hintent Hall].
  destruct (runFilterIntent_withinCatalog env intent s Hinv Hintent) as [Hd Hinv'].
  destruct (IH (runFilterIntent env intent s).1 Hinv') as [Hd' Hinv'']; [by rewrite Hd|].
  split; [congruence | done].
Qed.

Lemma filtersChanged_false_iff (s : State) :
  withinCatalog s →
  filtersChanged s = false ↔
  ∀ t k, k ∈ selection t (tempFilterSelections s) ↔ k ∈ selection t (selectedItems s).
Proof.
  intros Hinv. rewrite filtersChanged_false.
  split; intros H t; destruct (Hinv t) as (_ & Hs & Ht & _).
  - by apply changed_false_iff.
  - by apply changed_false_iff.
Qed.

(** X2.  The dirty flag is set difference.  With the selections within the
    catalog, the change test of [checkFilterChanges] is false exactly when,
    for each type, the temporary and the saved selection have the same
    keys; the order of the keys does not matter. *)
Theorem filtersChanged_iff_differ (s : State) :
  withinCatalog s →
  filtersChanged s = false ↔
  ∀ t k, k ∈ selection t (tempFilterSelections s) ↔ k ∈ selection t (selectedItems s).
Proof.
  intros Hinv. rewrite filtersChanged_false.
  split; intros H t; destruct (Hinv t) as (_ & Hs & Ht & _).
  - by apply changed_false_iff.
  - by apply changed_false_iff.
Qed.

Lemma filter_includes_all (selected : list string) (items : list Item) :
  (∀ item, item ∈ items → key item ∈ selected) →
  filter (λ item, includes selected (key item)) items = items.
Proof.
  induction items as [|item items IH]; intros Hall; [done|].
  rewrite filter_cons_True.
  - f_equal. apply IH. intros item' Hitem'. apply Hall. by right.
  - apply Is_true_true, includes_elem, Hall. left.
Qed.

Lemma filter_includes_own_keys (items : list Item) :
  filter (λ item, includes (map key items) (key item)) items = items.
Proof. apply filter_includes_all. intros item Hitem. by apply list_elem_of_fmap_2. Qed.

(** X3.  An empty filter does not block a draw.  Ticking or clearing the
    select-all checkbox of a type and applying the settings both leave
    [getAvailableItems] returning the whole catalog of the type. *)
Theorem select_all_or_none_then_apply (env : Env) (s : State) (t : catalogType)
    (checked : bool) :
  getAvailableItems (runFilterIntents env [SelectAll t checked; ApplyFilters] s) (typeName t)
  = Normal (Items (catalog t (data s)))
  ∧ selection t (selectedItems (runFilterIntents env [SelectAll t checked; ApplyFilters] s))
    = (if checked then map key (catalog t (data s)) else []).
Proof.
  unfold runFilterIntents. cbn [foldl].
  assert (runFilterIntent env (SelectAll t checked) s
          = runFilterIntent sampleEnv (SelectAll t checked) s) as -> by (by destruct t).
  destruct (handleSelectAll_temp t checked s) as (Hd & _ & Htmp & _).
  set (s1 := (runFilterIntent sampleEnv (SelectAll t checked) s).1) in *.
  cbn [runFilterIntent].
  pose proof (applyFilterSettings_data env s1) as Hd2.
  destruct (applyFilterSettings env s1) as [s2 r] eqn:E.
  apply applyFilterSettings_selected in E as (Hsel & _). cbn [fst] in *.
  assert (selection t (selectedItems s2)
          = if checked then map key (catalog t (data s)) else []) as Hselected.
  { rewrite Hsel, Htmp, selection_withSelection. by case_decide. }
  split; [|done].
  assert (data s2 = data s) as Hdata by congruence.
  unfold getAvailableItems. rewrite Hdata.
  destruct t; cbn in Hselected; cbn [typeName getProp bool_decide]; simpl;
    rewrite Hselected; destruct checked; cbn; try done;
    case_bool_decide as Hlen; try (by rewrite filter_includes_own_keys);
    rewrite length_map in Hlen; by apply nil_length_inv in Hlen as ->.
Qed.

(** X4.  Unticking a selected item and ticking it again.  From a clean state
    within the catalog, unticking an item of the selection shows the apply
    button, and ticking it again hides the button, although the key has
    moved to the end of the temporary selection. *)
Theorem untick_then_tick_is_clean (s : State) (t : catalogType) (itemKey : string) :
  withinCatalog s →
  filtersChanged s = false →
  itemKey ∈ selection t (tempFilterSelections s) →
  let s1 := (onFilterCheckboxChange t itemKey false s).1 in
  let s2 := (onFilterCheckboxChange t itemKey true s1).1 in
  applyFilterSettingsBtn (dom s1) = true
  ∧ applyFilterSettingsBtn (dom s2) = false
  ∧ selection t (tempFilterSelections s2)
    = filter (λ key, key ≠ itemKey) (selection t (tempFilterSelections s)) ++ [itemKey].
Proof.
  intros Hinv Hclean Hin s1 s2.
  assert (itemKey ∈ map key (catalog t (data s))) as Hrendered
    by (by apply (Hinv t)).
  destruct (onFilterCheckboxChange_temp t itemKey false s) as (Hd1 & Hsel1 & Htmp1 & Hbtn1).
  destruct (runFilterIntent_withinCatalog sampleEnv (ToggleItem t itemKey false) s Hinv Hrendered)
    as [_ Hinv1].
  cbn [runFilterIntent] in Hinv1. fold s1 in Hd1, Hsel1, Htmp1, Hbtn1, Hinv1.
  destruct (onFilterCheckboxChange_temp t itemKey true s1) as (Hd2 & Hsel2 & Htmp2 & Hbtn2).
  destruct (runFilterIntent_withinCatalog sampleEnv (ToggleItem t itemKey true) s1 Hinv1)
    as [_ Hinv2];
    [change (itemKey ∈ map key (catalog t (data s1))); by rewrite Hd1|].
  cbn [runFilterIntent] in Hinv2. fold s2 in Hd2, Hsel2, Htmp2, Hbtn2, Hinv2.
  pose proof (proj1 (filtersChanged_false_iff s Hinv) Hclean) as Hsame.
  assert (selection t (tempFilterSelections s1)
          = filter (λ key, key ≠ itemKey) (selection t (tempFilterSelections s))) as Ht1.
  { rewrite Htmp1, selection_withSelection. by case_decide. }
  assert (includes (selection t (tempFilterSelections s1)) itemKey = false) as Hout.
  { apply not_true_iff_false. rewrite includes_elem, Ht1, list_elem_of_filter. tauto. }
  assert (selection t (tempFilterSelections s2)
          = filter (λ key, key ≠ itemKey) (selection t (tempFilterSelections s)) ++ [itemKey])
    as Ht2.
  { rewrite Htmp2, selection_withSelection, Hout, Ht1. by case_decide. }
  split_and!; [| |done].
  - rewrite Hbtn1. apply not_false_iff_true. intros Hno.
    pose proof (proj1 (filtersChanged_false_iff s1 Hinv1) Hno t itemKey) as Hiff.
    rewrite Hsel1 in Hiff. apply Hsame, Hiff in Hin.
    apply includes_elem in Hin. congruence.
  - rewrite Hbtn2. apply (filtersChanged_false_iff s2 Hinv2). intros t' k.
    rewrite Hsel2, Hsel1, <- Hsame.
    destruct (decide (t' = t)) as [->|Hne].
    + rewrite Ht2, elem_of_app, list_elem_of_filter, list_elem_of_singleton.
      destruct (decide (k = itemKey)) as [->|]; tauto.
    + rewrite Htmp2, selection_withSelection, decide_False by done.
      rewrite Htmp1, selection_withSelection, decide_False by done. done.
Qed.

(** X5.  The select-all checkbox.  With the selections within the catalog,
    [updateGroupSelectAllCheckbox] ticks the select-all checkbox of a type
    exactly when the catalog of the type is not empty and every one of its
    keys is in the temporary selection, although it compares counts only. *)
Theorem updateGroupSelectAllCheckbox_iff (s : State) (t : catalogType) :
  withinCatalog s →
  updateGroupSelectAllCheckbox t s = true ↔
  catalog t (data s) ≠ []
  ∧ ∀ item, item ∈ catalog t (data s) → key item ∈ selection t (tempFilterSelections s).
Proof.
  intros Hinv. destruct (Hinv t) as (Hk & _ & Ht & _ & Hts).
  unfold updateGroupSelectAllCheckbox. cbn zeta.
  rewrite andb_true_iff, !bool_decide_eq_true.
  assert (catalog t (data s) ≠ [] ↔ 0 < length (catalog t (data s))) as ->.
  { destruct (catalog t (data s)); cbn; split; (done || lia). }
  split; intros [Hpos H]; (split; [done|]).
  - assert (selection t (tempFilterSelections s) ≡ₚ map key (catalog t (data s))) as Hperm.
    { apply submseteq_length_Permutation; [by apply NoDup_submseteq|].
      rewrite length_map. lia. }
    intros item Hitem. rewrite Hperm. apply list_elem_of_fmap. eauto.
  - rewrite <- (length_map key). apply Permutation_length, NoDup_Permutation; try done.
    intros k. split; [apply Hts|].
    intros (item & -> & Hitem)%list_elem_of_fmap. by apply H.
Qed.

(** ** The catalog cache *)

Lemma kept_filter (rulesData stagesData weaponsData : list Item) :
  {| rules := filter (λ item, negb (includes (excludedRule EXCLUDED_ITEMS) (key item))) rulesData;
     stages := filter (λ item, negb (includes (excludedStage EXCLUDED_ITEMS) (key item))) stagesData;
     weapons := weaponsData |}
  = kept rulesData stagesData weaponsData.
Proof.
  unfold kept. f_equal; apply list_filter_iff; intros item; unfold includes;
    by rewrite negb_True, bool_decide_spec.
Qed.

Lemma fetchAndCacheData_fails (env : Env) (s : State) :
  ¬ allFetched env →
  ∃ e, fetchAndCacheData env s = (withConsole (console s ++ [ErrorFetching e]) s, Throw e)
       ∧ (e = NetworkError ∨ ∃ status, e = ApiError status).
Proof.
  intros Hfail.
  destruct (remote env (rule API_URLS)) as [r| |] eqn:Er,
    (remote env (stage API_URLS)) as [st| |] eqn:Es,
    (remote env (weapon API_URLS)) as [w| |] eqn:Ew;
    try (destruct Hfail; by exists r, st, w);
    unfold fetchAndCacheData, tryCatch, fetchFromAPI; rewrite ?Er, ?Es, ?Ew;
    eexists; (split; [reflexivity | eauto]).
Qed.

(** X6.  No partial catalog update.  When one of the three requests fails,
    [fetchAndCacheData] throws the failure of the first failing request
    after logging it, and leaves the catalogs, the cache and everything
    else but the console as found. *)
Theorem fetchAndCacheData_all_or_nothing (env : Env) (s : State) :
  ¬ allFetched env →
  ∃ e, fetchAndCacheData env s = (withConsole (console s ++ [ErrorFetching e]) s, Throw e)
       ∧ (e = NetworkError ∨ ∃ status, e = ApiError status).
Proof.
  intros Hfail.
  destruct (remote env (rule API_URLS)) as [r| |] eqn:Er,
    (remote env (stage API_URLS)) as [st| |] eqn:Es,
    (remote env (weapon API_URLS)) as [w| |] eqn:Ew;
    try (destruct Hfail; by exists r, st, w);
    unfold fetchAndCacheData, tryCatch, fetchFromAPI; rewrite ?Er, ?Es, ?Ew;
    eexists; (split; [reflexivity | eauto]).
Qed.

Lemma clearCache_result s :
  clearCache s
  = (withLocalStorage
       (delete CACHE_KEYS_selectedItems
          (delete (weapon CACHE_KEYS)
             (delete (stage CACHE_KEYS) (delete (rule CACHE_KEYS) (localStorage s))))) s,
     Normal tt).
Proof. done. Qed.

(** X7.  A refresh that cannot fetch.  When one of the three requests fails,
    [refreshData] completes normally with the failure message shown; the
    catalogs and the selections in memory are kept, but the three cached
    catalogs and the stored selection have been removed from the store. *)
Theorem refreshData_offline (env : Env) (s : State) :
  ¬ allFetched env →
  ∃ s' e, refreshData env s = (s', Normal tt)
    ∧ loadingStatus (dom s') = Some "更新に失敗しました"
    ∧ console s' = console s ++ [ErrorFetching e; ErrorRefreshing e]
    ∧ data s' = data s
    ∧ selectedItems s' = selectedItems s
    ∧ tempFilterSelections s' = tempFilterSelections s
    ∧ (∀ k, k ∈ [rule CACHE_KEYS; stage CACHE_KEYS; weapon CACHE_KEYS;
                 CACHE_KEYS_selectedItems] → localStorage s' !! k = None)
    ∧ (∀ k, k ∉ [rule CACHE_KEYS; stage CACHE_KEYS; weapon CACHE_KEYS;
                 CACHE_KEYS_selectedItems] → localStorage s' !! k = localStorage s !! k).
Proof.
  intros Hfail. unfold refreshData, tryCatch, bind at 1. rewrite clearCache_result.
  unfold bind at 1.
  match goal with |- context [fetchAndCacheData env ?x] =>
    destruct (fetchAndCacheData_fails env x Hfail) as (e & -> & _) end.
  cbn. eexists _, e. split; [reflexivity|]. cbn.
  split_and!; try done.
  - by rewrite <- app_assoc.
  - intros k Hk. rewrite !elem_of_cons, elem_of_nil in Hk.
    destruct Hk as [->|[->|[->|[->|[]]]]]; by simplify_map_eq.
  - intros k Hk. rewrite !not_elem_of_cons in Hk. destruct Hk as (? & ? & ? & ? & _).
    by simplify_map_eq.
Qed.

Lemma fetchAndCacheData_stored env s rulesData stagesData weaponsData :
  remote env (rule API_URLS) = Ok rulesData →
  remote env (stage API_URLS) = Ok stagesData →
  remote env (weapon API_URLS) = Ok weaponsData →
  setItemThrows env (rule CACHE_KEYS) = false →
  setItemThrows env (stage CACHE_KEYS) = false →
  setItemThrows env (weapon CACHE_KEYS) = false →
  let d := kept rulesData stagesData weaponsData in
  fetchAndCacheData env s
  = (withLocalStorage
       (<[weapon CACHE_KEYS := Json (CatalogJson (weapons d))]>
          (<[stage CACHE_KEYS := Json (CatalogJson (stages d))]>
             (<[rule CACHE_KEYS := Json (CatalogJson (rules d))]> (localStorage s))))
       (withData d s), Normal tt).
Proof.
  intros Hr Hs Hw T1 T2 T3 d.
  unfold fetchAndCacheData, tryCatch, fetchFromAPI. rewrite Hr, Hs, Hw.
  unfold bind, ret, modify, get, setItem.
  rewrite kept_filter, T1, T2, T3. done.
Qed.

Lemma initializeResults_loop s : ∀ steps i,
  i ≤ length (memberNameInputs (dom s)) →
  forUpTo (λ i, do memberName <- memberNameValue i;
                modify (λ s, withDom (withResultCards i (dom s)) s))%prog
    (S i) steps (withDom (withResultCards i (dom s)) s)
  = (withDom (withResultCards (min (i + steps) (length (memberNameInputs (dom s)))) (dom s)) s,
     if decide (i + steps ≤ length (memberNameInputs (dom s)))
     then Normal tt else Throw TypeError).
Proof.
  induction steps as [|steps IH]; intros i Hi; cbn [forUpTo].
  - unfold ret. rewrite Nat.add_0_r, Nat.min_l, decide_True by lia. done.
  - unfold bind at 1. unfold bind at 1. unfold memberNameValue. cbn [dom withDom memberNameInputs withResultCards].
    destruct (memberNameInputs (dom s) !! i) as [v|] eqn:Hv.
    + apply lookup_lt_Some in Hv. unfold modify. cbn [dom withDom].
      change (withDom (withResultCards (S i) (withResultCards i (dom s))) (withDom (withResultCards i (dom s)) s))
        with (withDom (withResultCards (S i) (dom s)) s).
      rewrite IH by lia. replace (S i + steps) with (i + S steps) by lia. done.
    + apply lookup_ge_None in Hv.
      rewrite Nat.min_r, decide_False by lia.
      replace (length (memberNameInputs (dom s))) with i by lia. done.
Qed.

Lemma initializeResults_result (s : State) :
  initializeResults s
  = (withDom (withResultCards
                (min (memberCount (dom s)) (length (memberNameInputs (dom s)))) (dom s)) s,
     if decide (memberCount (dom s) ≤ length (memberNameInputs (dom s)))
     then Normal tt else Throw TypeError).
Proof.
  unfold initializeResults, forFrom1, bind at 1. cbn [modify]. unfold bind, get.
  cbn [dom withDom memberCount withResultCards].
  pose proof (initializeResults_loop s (memberCount (dom s)) 0) as Hloop.
  cbn [Nat.add] in Hloop. rewrite <- Hloop by lia. done.
Qed.

(** X8.  Rendering the result cards.  [initializeResults] renders one card
    per member while the member's name input exists: with all inputs
    rendered it completes with [memberCount] cards; otherwise it throws a
    [TypeError] at the first missing input, leaving the cards rendered so
    far.  Nothing but the page changes. *)
Theorem initializeResults_cards (s : State) :
  initializeResults s
  = (withDom (withResultCards
                (min (memberCount (dom s)) (length (memberNameInputs (dom s)))) (dom s)) s,
     if decide (memberCount (dom s) ≤ length (memberNameInputs (dom s)))
     then Normal tt else Throw TypeError).
Proof.
  unfold initializeResults, forFrom1, bind at 1. cbn [modify]. unfold bind, get.
  cbn [dom withDom memberCount withResultCards].
  pose proof (initializeResults_loop s (memberCount (dom s)) 0) as Hloop.
  cbn [Nat.add] in Hloop. rewrite <- Hloop by lia. done.
Qed.

Lemma initializeFilters_after_clear s :
  localStorage s !! CACHE_KEYS_selectedItems = None →
  let all := ByType (map key (rules (data s))) (map key (stages (data s)))
                    (map key (weapons (data s))) in
  initializeFilters s = (withTempFilterSelections all (withSelectedItems all s), Normal tt).
Proof.
  intros Hnone all. unfold initializeFilters, loadSelectedItems, bind, get, modify, ret.
  cbn. rewrite Hnone. done.
Qed.

Lemma initializeFilters_stored s cached :
  localStorage s !! CACHE_KEYS_selectedItems = Some (Json (SelectionJson cached)) →
  let selected :=
    ByType (filter (λ key, key ∈ rule cached) (map key (rules (data s))))
           (filter (λ key, key ∈ stage cached) (map key (stages (data s))))
           (filter (λ key, key ∈ weapon cached) (map key (weapons (data s)))) in
  initializeFilters s
  = (withTempFilterSelections selected (withSelectedItems selected s), Normal tt).
Proof.
  intros Hsome selected. unfold initializeFilters, loadSelectedItems, bind, get, modify, ret.
  cbn. rewrite Hsome. cbn.
  assert (∀ c (l : list string),
            filter (λ key, includes c key) l = filter (λ key : string, key ∈ c) l) as Hf.
  { intros c l. apply list_filter_iff. intros k. unfold includes. by rewrite bool_decide_spec. }
  rewrite !Hf. done.
Qed.

(** X9.  A refresh that succeeds.  With the three requests answered, the
    three cache writes accepted and the member inputs rendered,
    [refreshData] completes normally: the catalogs are the fetched ones
    without the excluded keys, the store holds them and no stored selection
    any more, every item of every catalog is selected again whatever was
    selected before, the temporary selections equal the saved ones, and one
    result card per member is rendered. *)
Theorem refreshData_selects_all (env : Env) (s : State)
    (rulesData stagesData weaponsData : list Item) :
  remote env (rule API_URLS) = Ok rulesData →
  remote env (stage API_URLS) = Ok stagesData →
  remote env (weapon API_URLS) = Ok weaponsData →
  setItemThrows env (rule CACHE_KEYS) = false →
  setItemThrows env (stage CACHE_KEYS) = false →
  setItemThrows env (weapon CACHE_KEYS) = false →
  inputsRendered s →
  let d := kept rulesData stagesData weaponsData in
  ∃ s', refreshData env s = (s', Normal tt)
    ∧ data s' = d
    ∧ selectedItems s' = ByType (map key (rules d)) (map key (stages d)) (map key (weapons d))
    ∧ tempFilterSelections s' = selectedItems s'
    ∧ localStorage s' !! CACHE_KEYS_selectedItems = None
    ∧ localStorage s' !! rule CACHE_KEYS = Some (Json (CatalogJson (rules d)))
    ∧ localStorage s' !! stage CACHE_KEYS = Some (Json (CatalogJson (stages d)))
    ∧ localStorage s' !! weapon CACHE_KEYS = Some (Json (CatalogJson (weapons d)))
    ∧ resultCards (dom s') = memberCount (dom s)
    ∧ loadingStatus (dom s') = loadingStatus (dom s)
    ∧ console s' = console s.
Proof.
  intros Hr Hs Hw T1 T2 T3 Hinputs d.
  unfold refreshData, tryCatch, bind at 1. rewrite clearCache_result.
  unfold bind at 1.
  rewrite (fetchAndCacheData_stored env _ _ _ _ Hr Hs Hw T1 T2 T3). fold d.
  unfold initializeUI, bind. rewrite initializeFilters_after_clear by (by simplify_map_eq).
  rewrite initializeResults_result. cbn [dom withTempFilterSelections withSelectedItems
    withLocalStorage withData].
  rewrite decide_True by exact Hinputs.
  eexists. split; [reflexivity|]. cbn.
  unfold inputsRendered in Hinputs.
  split_and!; try done; try (by simplify_map_eq). lia.
Qed.

(** X10.  Saving and loading the selection.  [saveSelectedItems] never throws.
    When the store accepts the write, [loadSelectedItems] then returns the
    saved selections; when the store refuses it, the store is left as found
    and the refusal is logged. *)
Theorem saveSelectedItems_then_load (env : Env) (s : State) :
  ∃ s', saveSelectedItems env s = (s', Normal tt)
    ∧ selectedItems s' = selectedItems s
    ∧ (if setItemThrows env CACHE_KEYS_selectedItems
       then localStorage s' = localStorage s
            ∧ console s' = console s ++ [ErrorSavingSelected QuotaExceeded]
       else loadSelectedItems s' = (s', Normal (Some (SelectionJson (selectedItems s))))
            ∧ console s' = console s).
Proof.
  unfold saveSelectedItems, tryCatch, bind, get, setItem, consoleError, modify.
  destruct (setItemThrows env CACHE_KEYS_selectedItems); cbn;
    eexists; (split; [reflexivity|]); cbn; [done|].
  split_and!; try done.
  unfold loadSelectedItems, bind, get, ret. cbn. by simplify_map_eq.
Qed.

Lemma applyFilterSettings_result env s :
  ∃ s', applyFilterSettings env s
        = (s', if decide (memberCount (dom s) ≤ length (memberNameInputs (dom s)))
               then Normal tt else Throw TypeError)
    ∧ data s' = data s
    ∧ selectedItems s' = tempFilterSelections s
    ∧ tempFilterSelections s' = tempFilterSelections s
    ∧ filterStateSnapshot s' = tempFilterSelections s
    ∧ applyFilterSettingsBtn (dom s') = false
    ∧ currentResults s' = currentResults s
    ∧ localStorage s'
      = (if setItemThrows env CACHE_KEYS_selectedItems then localStorage s
         else <[CACHE_KEYS_selectedItems := Json (SelectionJson (tempFilterSelections s))]>
                (localStorage s)).
Proof.
  unfold applyFilterSettings, saveSelectedItems, saveCurrentFilterState, tryCatch, bind,
    get, setItem, consoleError, modify.
  cbn [selectedItems withSelectedItems].
  destruct (setItemThrows env CACHE_KEYS_selectedItems); rewrite initializeResults_result;
    cbn; rewrite !byType_eta; eexists; (split; [reflexivity|]); cbn; done.
Qed.

(** X11.  An applied selection survives a reload.  With the selections within
    the catalog and the store accepting the write, applying the filter
    settings and then running [initializeFilters], as a page load does,
    completes normally with the saved selection holding, for each type,
    the keys that were applied, and with no change pending. *)
Theorem applied_selection_survives_reload (env : Env) (s : State) :
  setItemThrows env CACHE_KEYS_selectedItems = false →
  withinCatalog s →
  let s1 := (applyFilterSettings env s).1 in
  ∃ s2, initializeFilters s1 = (s2, Normal tt)
    ∧ (∀ t k, k ∈ selection t (selectedItems s2)
              ↔ k ∈ selection t (tempFilterSelections s))
    ∧ tempFilterSelections s2 = selectedItems s2
    ∧ filtersChanged s2 = false
    ∧ data s2 = data s.
Proof.
  intros Hstore Hinv s1.
  destruct (applyFilterSettings_result env s) as (s1' & E & Hd & Hsel & Htmp & _ & _ & _ & Hls).
  unfold s1. rewrite E. cbn [fst]. clear s1 E. rewrite Hstore in Hls.
  rewrite (initializeFilters_stored s1' (tempFilterSelections s))
    by (rewrite Hls; by simplify_map_eq).
  eexists. split; [reflexivity|]. cbn. rewrite Hd.
  split_and!; try done.
  - intros t k. destruct (Hinv t) as (_ & _ & _ & _ & Hts).
    destruct t; cbn in *; rewrite list_elem_of_filter; split; try tauto;
      intros Hk; split; try done; by apply Hts.
  - apply filtersChanged_same. done.
Qed.

(** ** Draws from a pool that is not empty *)

Lemma selectRandomItem_nonempty env (items : list Item) s :
  items ≠ [] →
  ∃ item, selectRandomItem env (Items items) s
          = (withRandomCalls (S (randomCalls s)) s, Normal (Some item))
    ∧ item ∈ items
    ∧ items !! floorTimes (random env (randomCalls s)) (length items) = Some item.
Proof.
  intros Hne. unfold selectRandomItem. cbn [poolLength].
  destruct (length items) as [|n] eqn:Hlen; [by apply nil_length_inv in Hlen|].
  unfold bind, randomBelow, ret.
  destruct (lookup_lt_is_Some_2 items (floorTimes (random env (randomCalls s)) (S n)))
    as [item Hitem].
  { rewrite Hlen. apply floorTimes_lt. lia. }
  exists item. rewrite Hitem. split_and!; [done | | done].
  by eapply list_elem_of_lookup_2.
Qed.

Lemma foldl_insert_lookup_notin (l : list (string * Item)) : ∀ (m : gmap string Item) k,
  k ∉ l.*1 → foldl (λ results w, <[w.1 := w.2]> results) m l !! k = m !! k.
Proof.
  induction l as [|[k' v'] l IH]; intros m k Hk; cbn; [done|].
  rewrite fmap_cons, not_elem_of_cons in Hk. destruct Hk as [Hne Hk].
  rewrite IH by done. cbn in *. by rewrite lookup_insert_ne.
Qed.

Lemma foldl_insert_lookup_in (l : list (string * Item)) : ∀ (m : gmap string Item) k v,
  NoDup l.*1 → (k, v) ∈ l →
  foldl (λ results w, <[w.1 := w.2]> results) m l !! k = Some v.
Proof.
  induction l as [|[k' v'] l IH]; intros m k v Hnodup Hin; cbn.
  - by apply elem_of_nil in Hin.
  - rewrite fmap_cons in Hnodup. apply NoDup_cons in Hnodup as [Hk' Hnodup].
    apply elem_of_cons in Hin as [[= -> ->]|Hin].
    + rewrite foldl_insert_lookup_notin by done. cbn. by rewrite lookup_insert_eq.
    + by apply IH.
Qed.

Lemma string_app_length (s t : string) :
  String.length (s +:+ t) = String.length s + String.length t.
Proof. induction s as [|a s IH]; simpl; [done | by f_equal]. Qed.

Lemma string_app_inj_r (t : string) : ∀ s1 s2, s1 +:+ t = s2 +:+ t → s1 = s2.
Proof.
  induction s1 as [|a s1 IH]; intros [|b s2] H; simpl in H.
  - done.
  - apply (f_equal String.length) in H. rewrite !string_app_length in H. simpl in H. lia.
  - apply (f_equal String.length) in H. rewrite !string_app_length in H. simpl in H. lia.
  - injection H as -> H. f_equal. by apply IH.
Qed.

Lemma weaponEntries_elem_of cards (drawn : list Item) : ∀ i k item,
  (k, item) ∈ weaponEntries i cards drawn ↔
  ∃ j, drawn !! j = Some item ∧ S (i + j) ≤ cards ∧ k = pretty (S (i + j)) +:+ "-weapon".
Proof.
  induction drawn as [|d drawn IH]; intros i k item; cbn [weaponEntries].
  - split; [by intros ?%elem_of_nil | by intros (j & ? & _)].
  - rewrite elem_of_app, IH. split.
    + intros [Hhead|(j & Hj & Hle & ->)].
      * case_bool_decide; [|by apply elem_of_nil in Hhead].
        apply list_elem_of_singleton in Hhead as [= -> ->].
        exists 0. rewrite Nat.add_0_r. done.
      * exists (S j). rewrite <- Nat.add_succ_comm. done.
    + intros ([|j] & Hj & Hle & ->).
      * left. injection Hj as ->. rewrite Nat.add_0_r in *.
        rewrite bool_decide_eq_true_2 by done. by apply list_elem_of_singleton.
      * right. exists j. rewrite <- Nat.add_succ_comm in *. done.
Qed.

Lemma weaponEntries_NoDup cards (drawn : list Item) : ∀ i,
  NoDup (weaponEntries i cards drawn).*1.
Proof.
  induction drawn as [|d drawn IH]; intros i; cbn [weaponEntries]; [constructor|].
  rewrite fmap_app. apply NoDup_app. split_and!; [| |apply IH].
  - case_bool_decide; [apply NoDup_singleton | constructor].
  - intros k Hk Hk'. case_bool_decide; [|by apply elem_of_nil in Hk].
    apply list_elem_of_singleton in Hk as ->.
    apply list_elem_of_fmap in Hk' as ([k item] & Hkey & Hin). cbn in Hkey.
    apply weaponEntries_elem_of in Hin as (j & _ & _ & ->).
    apply string_app_inj_r, (inj pretty) in Hkey. lia.
Qed.

Lemma runRoulette_common_result (env : Env) (s : State) (type : string) (items : list Item) :
  type = "rule" ∨ type = "stage" →
  getAvailableItems s type = Normal (Items items) →
  items ≠ [] →
  let present := if bool_decide (type = "rule") then commonRule (dom s)
                 else commonStage (dom s) in
  ∃ item,
    items !! floorTimes (random env (randomCalls s)) (length items) = Some item
    ∧ item ∈ items
    ∧ runRoulette env type s
      = (withTimers (timers s ++ if present then [("common-" +:+ type, item)] else [])
           (withRandomCalls (S (randomCalls s)) s), Normal tt).
Proof.
  intros Htype Hpool Hne present.
  destruct (selectRandomItem_nonempty env items s Hne) as (item & Hsel & Hin & Hidx).
  exists item.
  assert (runRoulette env type s
          = (withTimers (timers s ++ if present then [("common-" +:+ type, item)] else [])
               (withRandomCalls (S (randomCalls s)) s), Normal tt)) as E.
  { unfold runRoulette, bind at 1. unfold get. unfold bind at 1. rewrite Hpool.
    rewrite bool_decide_eq_false_2.
    2: { cbn. intros [= Hlen]. by apply nil_length_inv in Hlen. }
    assert (bool_decide (type = "rule") || bool_decide (type = "stage") = true) as ->.
    { destruct Htype as [-> | ->]; done. }
    unfold bind at 1. rewrite Hsel. unfold bind, get, queueResult, modify, ret.
    cbn [dom withRandomCalls]. fold present.
    destruct present; cbn; [done|]. by rewrite app_nil_r; destruct s. }
  split_and!; done.
Qed.

(** X12.  A rule or stage draw.  For [type] one of [rule] and [stage] with a
    pool that is not empty, [runRoulette] raises no notice and calls
    [Math.random] once; it picks the item of the pool at the index [j] that
    is the integer part of the double product of that number and the
    length of the pool, an index of the pool.  When the result element is
    on the page it queues the write of that item to the slot
    [common-<type>], which is the slot's content once the timers have run;
    otherwise nothing is queued. *)
Theorem runRoulette_common_draw (env : Env) (s : State) (type : string) (items : list Item) :
  type = "rule" ∨ type = "stage" →
  getAvailableItems s type = Normal (Items items) →
  items ≠ [] →
  let present := if bool_decide (type = "rule") then commonRule (dom s)
                 else commonStage (dom s) in
  ∃ j item,
    floorOf (random env (randomCalls s)) (length items) j
    ∧ j < length items
    ∧ items !! j = Some item
    ∧ item ∈ items
    ∧ runRoulette env type s
      = (withTimers (timers s ++ if present then [("common-" +:+ type, item)] else [])
           (withRandomCalls (S (randomCalls s)) s), Normal tt)
    ∧ (present = true →
       currentResults (runTimers (runRoulette env type s).1) !! ("common-" +:+ type)
       = Some item).
Proof.
  intros Htype Hpool Hne present.
  destruct (runRoulette_common_result env s type items Htype Hpool Hne)
    as (item & Hidx & Hin & E).
  fold present in E.
  exists (floorTimes (random env (randomCalls s)) (length items)), item.
  split_and!; try done.
  - apply floorTimes_floorOf.
  - by eapply lookup_lt_Some.
  - intros Hpresent. rewrite E, Hpresent. unfold runTimers. cbn.
    rewrite foldl_app. cbn. by rewrite lookup_insert_eq.
Qed.

Lemma weapon_loop env (items : list Item) :
  items ≠ [] →
  ∀ steps i s,
  forallb plainText (cardNames (dom s)) = true →
  ∃ drawn,
    length drawn = steps
    ∧ Forall (λ item, item ∈ items) drawn
    ∧ forUpTo (drawForMember env (Items items) "weapon") (S i) steps s
      = (withTimers (timers s ++ weaponEntries i (resultCards (dom s)) drawn)
           (withRandomCalls (randomCalls s + steps) s), Normal tt).
Proof.
  intros Hne. induction steps as [|steps IH]; intros i s Hplain.
  - exists []. split_and!; [done | constructor |]. cbn.
    rewrite app_nil_r, Nat.add_0_r. by destruct s.
  - cbn [forUpTo]. unfold bind at 1.
    assert (drawForMember env (Items items) "weapon" (S i) s
            = (withTimers
                 (timers s ++ if bool_decide (S i ≤ resultCards (dom s))
                              then [(pretty (S i) +:+ "-weapon", (default (sampleItem "") (items !! floorTimes (random env (randomCalls s)) (length items))))] else [])
                 (withRandomCalls (S (randomCalls s)) s), Normal tt)
            ∧ (default (sampleItem "") (items !! floorTimes (random env (randomCalls s)) (length items))) ∈ items) as [-> Hin].
    { unfold drawForMember, bind at 1.
      destruct (selectRandomItem_nonempty env items s Hne) as (item & -> & Hin & Hidx).
      rewrite Hidx. cbn [default]. split; [|done].
      unfold bind, get, hasResultElement. cbn [dom withRandomCalls].
      rewrite Hplain. rewrite bool_decide_eq_true_2 by done. cbn [andb].
      rewrite (bool_decide_ext (1 ≤ S i ≤ resultCards (dom s)) (S i ≤ resultCards (dom s)))
        by lia.
      case_bool_decide; unfold queueResult, modify, ret; cbn; [done|].
      by rewrite app_nil_r. }
    match goal with |- context [forUpTo _ (S (S i)) steps ?x] =>
      destruct (IH (S i) x Hplain) as (drawn & Hlen & Hall & ->) end.
    exists ((default (sampleItem "") (items !! floorTimes (random env (randomCalls s)) (length items))) :: drawn). split_and!; [cbn; lia | by constructor |].
    unfold withTimers, withRandomCalls. cbn. rewrite <- app_assoc.
    f_equal. f_equal. lia.
Qed.

Lemma runRoulette_weapon_result (env : Env) (s : State) (items : list Item) :
  getAvailableItems s "weapon" = Normal (Items items) →
  items ≠ [] →
  forallb plainText (cardNames (dom s)) = true →
  ∃ drawn,
    length drawn = memberCount (dom s)
    ∧ Forall (λ item, item ∈ items) drawn
    ∧ runRoulette env "weapon" s
      = (withTimers (timers s ++ weaponEntries 0 (resultCards (dom s)) drawn)
           (withRandomCalls (randomCalls s + memberCount (dom s)) s), Normal tt).
Proof.
  intros Hpool Hne Hplain.
  destruct (weapon_loop env items Hne (memberCount (dom s)) 0 s Hplain)
    as (drawn & Hlen & Hall & E).
  exists drawn.
  assert (runRoulette env "weapon" s
          = (withTimers (timers s ++ weaponEntries 0 (resultCards (dom s)) drawn)
               (withRandomCalls (randomCalls s + memberCount (dom s)) s), Normal tt)) as E'.
  { unfold runRoulette, bind at 1. unfold get. unfold bind at 1. rewrite Hpool.
    rewrite bool_decide_eq_false_2.
    2: { cbn. intros [= Hl]. by apply nil_length_inv in Hl. }
    cbn [bool_decide orb]. exact E. }
  split_and!; done.
Qed.

(** X13.  A weapon draw.  With a weapon pool that is not empty and the
    result cards rendered from names that are plain text, no [<] in them,
    [runRoulette('weapon')] raises no notice and draws one item of the pool
    per member, [memberCount] random numbers in all, also for members whose
    result card is missing; it queues one write per member with a rendered
    card, and once the timers have run the slot [<i>-weapon] of every such
    member holds an item of the pool.  Nothing else changes. *)
Theorem runRoulette_weapon_draw (env : Env) (s : State) (items : list Item) :
  getAvailableItems s "weapon" = Normal (Items items) →
  items ≠ [] →
  forallb plainText (cardNames (dom s)) = true →
  ∃ drawn,
    length drawn = memberCount (dom s)
    ∧ Forall (λ item, item ∈ items) drawn
    ∧ runRoulette env "weapon" s
      = (withTimers (timers s ++ weaponEntries 0 (resultCards (dom s)) drawn)
           (withRandomCalls (randomCalls s + memberCount (dom s)) s), Normal tt)
    ∧ ∀ i, 1 ≤ i ≤ memberCount (dom s) → i ≤ resultCards (dom s) →
           ∃ item, item ∈ items
                   ∧ currentResults (runTimers (runRoulette env "weapon" s).1)
                     !! (pretty i +:+ "-weapon") = Some item.
Proof.
  intros Hpool Hne Hplain.
  destruct (runRoulette_weapon_result env s items Hpool Hne Hplain)
    as (drawn & Hlen & Hall & E).
  exists drawn. split_and!; try done.
  intros i Hi Hcard. rewrite E. unfold runTimers. cbn.
  destruct (lookup_lt_is_Some_2 drawn (i - 1)) as [item Hitem]; [lia|].
  exists item. split.
  - rewrite Forall_forall in Hall. apply Hall. by eapply list_elem_of_lookup_2.
  - rewrite foldl_app. apply foldl_insert_lookup_in; [apply weaponEntries_NoDup|].
    apply weaponEntries_elem_of. exists (i - 1).
    replace (S (0 + (i - 1))) with i by lia. done.
Qed.

(** ** The shuffle reaches every permutation *)

Section FisherYatesReach.
Context {A : Type}.
Implicit Types (l q target : list A).

Lemma swapElements_app_l i j q r :
  i < length q → j < length q →
  swapElements i j (q ++ r) = swapElements i j q ++ r.
Proof.
  intros Hi Hj. unfold swapElements. rewrite !lookup_app_l by done.
  destruct (q !! i) as [x|], (q !! j) as [y|]; try done.
  rewrite insert_app_l by done. rewrite insert_app_l by (by rewrite length_insert). done.
Qed.

Lemma foldl_swap_snoc (pick : nat → nat) (idxs : list nat) : ∀ q y,
  (∀ i, i ∈ idxs → i < length q) →
  (∀ i, pick i ≤ i) →
  foldl (λ acc i, swapElements i (pick i) acc) (q ++ [y]) idxs
  = foldl (λ acc i, swapElements i (pick i) acc) q idxs ++ [y].
Proof.
  induction idxs as [|i idxs IH]; intros q y Hidx Hpick; cbn [foldl]; [done|].
  assert (i < length q) as Hi by (apply Hidx; left).
  pose proof (Hpick i) as Hj.
  rewrite swapElements_app_l by lia.
  apply IH; [|done]. intros i' Hi'. rewrite length_swapElements. apply Hidx. by right.
Qed.

Lemma swapElements_last i j l y :
  length l = S i → l !! j = Some y →
  swapElements i j l = take i (swapElements i j l) ++ [y].
Proof.
  intros Hlen Hj.
  assert (swapElements i j l !! i = Some y) as Hlast.
  { unfold swapElements. rewrite Hj.
    destruct (lookup_lt_is_Some_2 l i) as [x Hx]; [lia|]. rewrite Hx.
    destruct (decide (i = j)) as [->|Hne].
    - rewrite list_lookup_insert_eq by (rewrite length_insert; lia). congruence.
    - rewrite list_lookup_insert_ne by done. apply list_lookup_insert_eq. lia. }
  rewrite <- (take_S_r _ _ _ Hlast). rewrite take_ge; [done|].
  rewrite length_swapElements. lia.
Qed.

Lemma fisherYates_reaches target : ∀ l,
  target ≡ₚ l →
  ∃ pick, (∀ i, pick i ≤ i) ∧ fisherYates pick l = target.
Proof.
  induction target as [|y t0 IH] using rev_ind; intros l Hperm.
  - apply Permutation_nil_l in Hperm as <-. exists (λ _, 0). split; [intros; lia | done].
  - assert (length l = S (length t0)) as Hlen.
    { rewrite <- Hperm, length_app. cbn. lia. }
    destruct (length t0) as [|k] eqn:Hk.
    + apply nil_length_inv in Hk as ->. cbn in Hperm.
      apply Permutation_singleton_l in Hperm as <-.
      exists (λ _, 0). split; [intros; lia | done].
    + assert (y ∈ l) as Hy by (rewrite <- Hperm, elem_of_app; right; left).
      apply list_elem_of_lookup in Hy as [j Hj].
      pose proof (lookup_lt_Some _ _ _ Hj) as Hjlt.
      pose proof (swapElements_last (S k) j l y Hlen Hj) as Hsplit.
      set (q := take (S k) (swapElements (S k) j l)) in *.
      assert (length q = S k) as Hq.
      { unfold q. rewrite length_take, length_swapElements. lia. }
      destruct (IH q) as (pick' & Hpick' & Hfy).
      { apply (Permutation_app_inv_r [y]). rewrite <- Hsplit.
        by rewrite swapElements_Permutation. }
      exists (λ i, if decide (i = S k) then j else pick' i). split.
      * intros i. case_decide; [lia | apply Hpick'].
      * unfold fisherYates in *. rewrite Hlen.
        replace (S (S k) - 1) with (S k) by lia.
        rewrite seq_S, reverse_snoc. cbn [foldl Nat.add].
        rewrite decide_True by done. rewrite Hsplit.
        rewrite foldl_swap_snoc.
        -- f_equal. rewrite Hq in Hfy. replace (S k - 1) with k in Hfy by lia.
           rewrite <- Hfy. apply foldl_ext_elem_of. intros acc i Hi.
           apply elem_of_reverse, elem_of_seq in Hi.
           rewrite decide_False by lia. done.
        -- intros i Hi. apply elem_of_reverse, elem_of_seq in Hi. lia.
        -- intros i. case_decide; [lia | apply Hpick'].
Qed.
End FisherYatesReach.

(** A number that fits in 53 bits is not rounded. *)
Lemma roundToDouble_exact (p : N) :
  (p `mod` 2 ^ (N.size p - 53) = 0)%N → roundToDouble p = p.
Proof.
  intros Hr. unfold roundToDouble. rewrite Hr.
  assert (2 ^ (N.size p - 53) ≠ 0)%N as Hpos by (apply N.pow_nonzero; lia).
  pose proof (N.div_mod p (2 ^ (N.size p - 53))%N Hpos) as Hdm. rewrite Hr in Hdm.
  replace (2 ^ (N.size p - 53) <? 2 * 0)%N with false by (symmetry; apply N.ltb_ge; lia).
  replace (2 * 0 =? 2 ^ (N.size p - 53))%N with false by (symmetry; apply N.eqb_neq; lia).
  cbn [orb andb]. lia.
Qed.

Lemma roundedProduct_exact (J M : N) :
  (J < M → M ≤ 2 ^ 26 →
   roundToDouble (((J * 2 ^ 26 + M - 1) `div` M * 2 ^ 27) `mod` 2 ^ 53 * M) `div` 2 ^ 53
   = J)%N.
Proof.
  intros HJ HM.
  pose proof (N.div_mod (J * 2 ^ 26 + M - 1) M ltac:(lia)) as Hdm.
  pose proof (N.mod_lt (J * 2 ^ 26 + M - 1) M ltac:(lia)) as Hr.
  generalize dependent ((J * 2 ^ 26 + M - 1) `mod` M)%N.
  generalize dependent ((J * 2 ^ 26 + M - 1) `div` M)%N. intros c r Hdm Hr.
  assert (J * 2 ^ 26 ≤ c * M ∧ c * M ≤ J * 2 ^ 26 + M - 1)%N as [Hlo Hhi] by nia.
  clear Hdm Hr.
  assert (c < 2 ^ 26)%N as Hc by nia.
  rewrite (N.mod_small (c * 2 ^ 27)) by lia.
  set (p := (c * 2 ^ 27 * M)%N).
  assert (roundToDouble p = p) as ->.
  { apply roundToDouble_exact.
    assert (N.size p - 53 ≤ 27)%N as Hshift.
    { assert (N.size p < 81)%N; [|lia].
      apply (N.pow_lt_mono_r_iff 2); [lia|].
      pose proof (N.size_le p). unfold p in *.
      assert (c * 2 ^ 27 * M < 2 ^ 79)%N by nia. lia. }
    set (shift := (N.size p - 53)%N) in *.
    replace p with (c * M * 2 ^ (27 - shift) * 2 ^ shift)%N.
    - apply N.Div0.mod_mul.
    - rewrite <- N.mul_assoc, <- N.pow_add_r.
      replace (27 - shift + shift)%N with 27%N by lia. unfold p. lia. }
  symmetry. apply (N.div_unique _ _ _ ((c * M - J * 2 ^ 26) * 2 ^ 27)%N); unfold p; lia.
Qed.

Lemma floorTimes_doubleAbove (j n : nat) :
  j < n → (N.of_nat n ≤ 2 ^ 26)%N → floorTimes (doubleAbove j n) n = j.
Proof.
  intros Hj Hn.
  unfold floorTimes, timesDouble, significand, exponent, doubleAbove. cbn [bits scale].
  change (53 + 0)%N with 53%N.
  rewrite roundedProduct_exact by lia. apply Nat2N.id.
Qed.

(** X14.  The shuffle can return every permutation.  For every rearrangement
    of an input array of at most [2^26] elements there are doubles in
    [[0, 1)], multiples of [2^-26] whose products with the indices are
    exact, such that [shuffleArray] returns exactly that rearrangement when
    [Math.random] returns them. *)
Theorem shuffleArray_reaches_every_permutation {A} (env0 : Env) (m : Machine A)
    (array : nat) (elements target : list A) :
  arrays m !! array = Some elements →
  (N.of_nat (length elements) ≤ 2 ^ 26)%N →
  target ≡ₚ elements →
  ∃ rand m',
    shuffleArray {| random := rand; remote := remote env0;
                    setItemThrows := setItemThrows env0; markup := markup env0 |} array m
    = (m', Normal (length (arrays m)))
    ∧ arrays m' !! length (arrays m) = Some target.
Proof.
  intros Hm Hsize Hperm.
  destruct (fisherYates_reaches target elements Hperm) as (pick & Hpick & Hfy).
  set (n := length elements) in *.
  set (rand := λ k, let i := n - 1 - (k - randomCount m) in doubleAbove (pick i) (i + 1)).
  set (env := {| random := rand; remote := remote env0;
                 setItemThrows := setItemThrows env0; markup := markup env0 |}).
  destruct (shuffleArray_result env m array elements Hm) as (result & E & Hresult & _).
  exists rand. eexists. split; [exact E|]. cbn.
  rewrite list_lookup_middle by done. f_equal.
  rewrite Hresult, <- Hfy. unfold fisherYates. apply foldl_ext_elem_of.
  intros acc i Hi. apply elem_of_reverse, elem_of_seq in Hi.
  f_equal. unfold picked. cbn [random env]. unfold rand. fold n.
  replace (n - 1 - (randomCount m + (n - 1 - i) - randomCount m)) with i by lia.
  apply floorTimes_doubleAbove; [pose proof (Hpick i); lia | lia].
Qed.

(** X15.  What the shuffle costs.  [shuffleArray] calls [Math.random] once per
    element but the first, allocates exactly one array, and returns an
    array of zero or one element unchanged without any call. *)
Theorem shuffleArray_random_calls {A} (env : Env) (m : Machine A) (array : nat)
    (elements : list A) :
  arrays m !! array = Some elements →
  ∃ m' shuffled,
    shuffleArray env array m = (m', Normal shuffled)
    ∧ randomCount m' = randomCount m + (length elements - 1)
    ∧ length (arrays m') = S (length (arrays m))
    ∧ (length elements ≤ 1 → arrays m' !! shuffled = Some elements
                             ∧ randomCount m' = randomCount m).
Proof.
  intros Hm. destruct (shuffleArray_result env m array elements Hm) as (result & E & _ & Hperm).
  eexists _, _. split; [exact E|]. cbn. split_and!; [done | |].
  - rewrite length_app. cbn. lia.
  - intros Hshort. split; [|lia]. rewrite list_lookup_middle by done. f_equal.
    destruct elements as [|x [|y elements]]; cbn in Hshort; try lia.
    + by apply Permutation_nil_r in Hperm.
    + by apply Permutation_singleton_r in Hperm.
Qed.

(** ** Team division, continued *)

Lemma memberNamesFrom_missing steps : ∀ i s,
  length (memberNameInputs (dom s)) < i + steps →
  i ≤ length (memberNameInputs (dom s)) →
  memberNamesFrom (S i) steps s = (s, Throw TypeError).
Proof.
  induction steps as [|steps IH]; intros i s Hshort Hi; [lia|].
  cbn [memberNamesFrom]. unfold bind at 1. unfold memberNameValue.
  destruct (memberNameInputs (dom s) !! i) as [v|] eqn:Hv; [|done].
  apply lookup_lt_Some in Hv. unfold bind. rewrite IH by lia. done.
Qed.

(** X16.  Team division with a missing name input.  When fewer name inputs
    are rendered than [memberCount] says, [divideTeams] throws a
    [TypeError] before it shuffles: no random number is drawn and the teams
    assigned before stay as they were. *)
Theorem divideTeams_missing_input (env : Env) (s : State) :
  length (memberNameInputs (dom s)) < memberCount (dom s) →
  divideTeams env s = (s, Throw TypeError).
Proof.
  intros Hshort. unfold divideTeams, splitTeams, bind, get.
  rewrite memberNamesFrom_missing by (cbn; lia). done.
Qed.



(** ** The member settings *)

Lemma snapshotNames_lookup (a : App) : ∀ n b (names : gmap nat string) i,
  foldl (λ names i, match memberInput a i with
                    | Some v => <[i := v]> names
                    | None => names
                    end) names (seq b n) !! i
  = if decide (b ≤ i < b + n)
    then match memberInput a i with Some v => Some v | None => names !! i end
    else names !! i.
Proof.
  induction n as [|n IH]; intros b names i; cbn [seq foldl].
  - rewrite decide_False by lia. done.
  - rewrite IH. destruct (decide (i = b)) as [->|Hne].
    + rewrite decide_False, decide_True by lia.
      destruct (memberInput a b); [by rewrite lookup_insert_eq | done].
    + destruct (decide (S b ≤ i < S b + n)), (decide (b ≤ i < b + S n)); try lia;
        destruct (memberInput a i); try done;
        destruct (memberInput a b); try done; by rewrite lookup_insert_ne.
Qed.

Lemma memberInput_rendered (a : App) (i : nat) :
  1 ≤ i ≤ length (memberNameInputs (dom (core a))) →
  ∃ v, memberInput a i = Some v ∧ memberNameInputs (dom (core a)) !! (i - 1) = Some v.
Proof.
  intros Hi. destruct i as [|i]; [lia|]. cbn. rewrite Nat.sub_0_r.
  destruct (lookup_lt_is_Some_2 (memberNameInputs (dom (core a))) i) as [v Hv]; [lia|].
  eauto.
Qed.

(** The test of [checkMemberChanges] against a snapshot that holds the
    names [saved] of the rendered inputs. *)
Lemma memberChanges_false_iff (a : App) (snapshot : MemberSnapshot) (saved : list string) :
  memberStateSnapshot a = Some snapshot →
  (∀ i, 1 ≤ i ≤ snapshotMemberCount snapshot →
        snapshotMemberNames snapshot !! i = saved !! (i - 1)) →
  snapshotMemberCount snapshot ≤ length saved →
  memberCount (dom (core a)) ≤ length (memberNameInputs (dom (core a))) →
  memberChanges a = false ↔
  memberCount (dom (core a)) = snapshotMemberCount snapshot
  ∧ teamDivisionToggle a = snapshotTeamDivisionEnabled snapshot
  ∧ take (memberCount (dom (core a))) (memberNameInputs (dom (core a)))
    = take (memberCount (dom (core a))) saved.
Proof.
  intros Hsnap Hnames Hsaved Hrendered. unfold memberChanges. rewrite Hsnap.
  rewrite !orb_false_iff, !negb_false_iff, !bool_decide_eq_true.
  assert (∀ n, n = snapshotMemberCount snapshot →
               n ≤ length (memberNameInputs (dom (core a))) →
    existsb (λ i, match memberInput a i with
                  | Some currentValue =>
                      negb (bool_decide (currentValue
                                         = default "" (snapshotMemberNames snapshot !! i)))
                  | None => false
                  end) (seq 1 n) = false
    ↔ take n (memberNameInputs (dom (core a))) = take n saved) as Hloop.
  { intros n -> Hn. rewrite <- not_true_iff_false, existsb_exists. split.
    - intros Hno. apply list_eq. intros j. rewrite !lookup_take.
      case_decide as Hj; [|done].
      destruct (memberInput_rendered a (S j)) as (v & Hv & Hv'); [lia|].
      cbn in Hv'. rewrite Nat.sub_0_r in Hv'. rewrite Hv'.
      destruct (decide (Some v = saved !! j)) as [|Hdiff]; [done|].
      destruct Hno. exists (S j). split; [apply in_seq; lia|].
      rewrite Hv, (Hnames (S j)) by lia. cbn. rewrite Nat.sub_0_r.
      apply negb_true_iff, bool_decide_eq_false. intros ->.
      destruct (lookup_lt_is_Some_2 saved j) as [w Hw]; [lia|].
      rewrite Hw in *. done.
    - intros Htake (i & Hi & Hdiff). apply in_seq in Hi.
      destruct (memberInput_rendered a i) as (v & Hv & Hv'); [lia|].
      rewrite Hv, (Hnames i) in Hdiff by lia.
      apply negb_true_iff, bool_decide_eq_false in Hdiff. apply Hdiff.
      assert (take (snapshotMemberCount snapshot) (memberNameInputs (dom (core a))) !! (i - 1)
              = take (snapshotMemberCount snapshot) saved !! (i - 1)) as Hi' by (by rewrite Htake).
      rewrite !lookup_take, !decide_True, Hv' in Hi' by lia. by rewrite <- Hi'. }
  split.
  - intros [[Hc Ht] Hx]. split_and!; [done..|]. apply Hloop; [done | lia | done].
  - intros (Hc & Ht & Hx). split_and!; [done..|]. apply Hloop; [done | lia | done].
Qed.

(** X18.  The confirm button shows real differences.  After
    [saveCurrentMemberState] on rendered inputs, whatever the user then
    sets the count, the names and the team division checkbox to (with the
    inputs of the new count rendered), [checkMemberChanges] hides the
    confirm button exactly when the count and the checkbox are as saved and
    the names of the counted members are the saved ones. *)
Theorem checkMemberChanges_iff_differs (a : App) (count' : nat) (names' : list string)
    (toggle' : bool) :
  inputsRendered (core a) →
  count' ≤ length names' →
  let a1 := (saveCurrentMemberState a).1 in
  let a2 := withTeamDivisionToggle toggle'
              (withCore (withDom (withMembers count' names' (dom (core a1))) (core a1)) a1) in
  confirmMembersBtn (checkMemberChanges a2).1 = false ↔
  count' = memberCount (dom (core a))
  ∧ toggle' = teamDivisionToggle a
  ∧ take count' names' = take count' (memberNameInputs (dom (core a))).
Proof.
  intros Hrendered Hcount' a1 a2.
  change (confirmMembersBtn (checkMemberChanges a2).1) with (memberChanges a2).
  destruct (memberStateSnapshot a2) as [snapshot|] eqn:Hsnap; [|done].
  injection Hsnap as Hsnap.
  rewrite (memberChanges_false_iff a2 snapshot (memberNameInputs (dom (core a))));
    subst snapshot; try done.
  intros i Hi. cbn in Hi |- *. rewrite snapshotNames_lookup, decide_True by lia.
  destruct (memberInput_rendered a i) as (v & -> & ->); [|done].
  unfold inputsRendered in Hrendered. lia.
Qed.

Lemma divideTeams_completes env s :
  inputsRendered s →
  ∃ teams, divideTeams env s
           = (withCurrentTeams teams
                (withRandomCalls (randomCalls s + (memberCount (dom s) - 1)) s), Normal tt).
Proof.
  intros Hlen. destruct (splitTeams_result env s Hlen) as (shuffled & E & _).
  unfold divideTeams, bind at 1. rewrite E. cbn [fst snd].
  unfold displayTeamResults, bind at 1. unfold get. unfold bind at 1.
  rewrite memberNamesFrom_rendered by (cbn; exact Hlen).
  unfold bind, modify. eexists. reflexivity.
Qed.

Lemma memberNameKey_inj (i j : nat) : memberNameKey i = memberNameKey j → i = j.
Proof. unfold memberNameKey. intros H. simplify_eq/=. by apply (inj pretty). Qed.

Lemma storeMemberNames_accepted env (a : App) :
  (∀ k, setItemThrows env k = false) →
  ∀ steps i (m : gmap string string),
  storeMemberNames env i steps (withMemberStorage m a)
  = (withMemberStorage
       (foldl (λ m j, match memberInput a j with
                      | Some v => <[memberNameKey j := v]> m
                      | None => m
                      end) m (seq i steps)) a, Normal tt).
Proof.
  intros Hstore. induction steps as [|steps IH]; intros i m; cbn [storeMemberNames seq foldl].
  - done.
  - unfold bind at 1. unfold get. unfold bind at 1.
    change (memberInput (withMemberStorage m a) i) with (memberInput a i).
    destruct (memberInput a i) as [v|].
    + unfold setMemberItem. rewrite Hstore. cbv beta iota. apply IH.
    + unfold ret. cbv beta iota. apply IH.
Qed.

Lemma storedNames_lookup (a : App) : ∀ n b (m : gmap string string) i,
  foldl (λ m j, match memberInput a j with
                | Some v => <[memberNameKey j := v]> m
                | None => m
                end) m (seq b n) !! memberNameKey i
  = if decide (b ≤ i < b + n)
    then match memberInput a i with Some v => Some v | None => m !! memberNameKey i end
    else m !! memberNameKey i.
Proof.
  induction n as [|n IH]; intros b m i; cbn [seq foldl].
  - rewrite decide_False by lia. done.
  - rewrite IH. destruct (decide (i = b)) as [->|Hne].
    + rewrite decide_False, decide_True by lia.
      destruct (memberInput a b); [by rewrite lookup_insert_eq | done].
    + assert (memberNameKey b ≠ memberNameKey i) by (intros ?%memberNameKey_inj; done).
      destruct (decide (S b ≤ i < S b + n)), (decide (b ≤ i < b + S n)); try lia;
        destruct (memberInput a i); try done;
        destruct (memberInput a b); try done; by rewrite lookup_insert_ne.
Qed.

Lemma storedNames_other (a : App) (k : string) :
  (∀ i, k ≠ memberNameKey i) →
  ∀ n b (m : gmap string string),
  foldl (λ m j, match memberInput a j with
                | Some v => <[memberNameKey j := v]> m
                | None => m
                end) m (seq b n) !! k = m !! k.
Proof.
  intros Hk. induction n as [|n IH]; intros b m; cbn [seq foldl]; [done|].
  rewrite IH. destruct (memberInput a b); [|done]. by rewrite lookup_insert_ne.
Qed.

Lemma confirmMembers_result env a :
  (∀ k, setItemThrows env k = false) →
  inputsRendered (core a) →
  let n := memberCount (dom (core a)) in
  ∃ a', confirmMembers env a = (a', Normal tt)
    ∧ memberStateSnapshot a'
      = Some {| snapshotMemberCount := n;
                snapshotTeamDivisionEnabled := teamDivisionToggle a;
                snapshotMemberNames :=
                  foldl (λ names i, match memberInput a i with
                                    | Some v => <[i := v]> names
                                    | None => names
                                    end) ∅ (seq 1 n) |}
    ∧ teamDivisionToggle a' = teamDivisionToggle a
    ∧ confirmMembersBtn a' = false
    ∧ teamDivisionOnlyBtn a' = teamDivisionToggle a
    ∧ memberStorage a'
      = <["teamDivisionToggle" := if teamDivisionToggle a then "true" else "false"]>
          (foldl (λ m j, match memberInput a j with
                         | Some v => <[memberNameKey j := v]> m
                         | None => m
                         end)
             (<["memberCount" := pretty n]> (memberStorage a)) (seq 1 n))
    ∧ memberCount (dom (core a')) = n
    ∧ memberNameInputs (dom (core a')) = memberNameInputs (dom (core a))
    ∧ resultCards (dom (core a')) = n
    ∧ (teamDivisionToggle a = false → currentTeams (core a') = ∅).
Proof.
  intros Hstore Hrendered n.
  unfold confirmMembers, bind at 1. unfold get. unfold bind at 1.
  unfold setMemberItem at 1. rewrite Hstore. fold n.
  unfold bind at 1. rewrite (storeMemberNames_accepted env a Hstore).
  unfold bind at 1. unfold setMemberItem at 1. rewrite Hstore.
  cbn [memberStorage withMemberStorage].
  unfold bind at 1.
  assert (∀ a0, core a0 = core a → ∃ s' b,
            applyTeamDivisionState env (teamDivisionToggle a) a0
            = (withTeamDivisionOnlyBtn b (withCore s' a0), Normal tt)
            ∧ b = teamDivisionToggle a
            ∧ dom s' = dom (core a)
            ∧ (teamDivisionToggle a = false → currentTeams s' = ∅)) as Hteams.
  { intros a0 Hcore. unfold applyTeamDivisionState. destruct (teamDivisionToggle a).
    - destruct (divideTeams_completes env (core a) Hrendered) as (teams & E).
      unfold bind, onCore, modify. rewrite Hcore, E.
      eexists _, _. split; [reflexivity|]. done.
    - unfold bind, onCore, modify. rewrite Hcore.
      eexists _, _. split; [reflexivity|]. done. }
  match goal with |- context [applyTeamDivisionState env _ ?a0] =>
    destruct (Hteams a0 eq_refl) as (s' & b & -> & -> & Hdom & Hoff) end.
  unfold bind, saveCurrentMemberState, modify, onCore.
  cbn [core withCore withMemberStateSnapshot withConfirmMembersBtn withTeamDivisionOnlyBtn
       withMemberStorage].
  rewrite initializeResults_result, Hdom. fold n.
  unfold inputsRendered in Hrendered. rewrite decide_True by exact Hrendered.
  eexists. split; [reflexivity|].
  cbn [core withCore withMemberStateSnapshot withConfirmMembersBtn withTeamDivisionOnlyBtn
       withMemberStorage memberStateSnapshot teamDivisionToggle confirmMembersBtn
       teamDivisionOnlyBtn memberStorage dom withDom memberCount memberNameInputs
       resultCards withResultCards currentTeams].
  rewrite ?Hdom. fold n.
  split_and!; try done.
  - do 2 f_equal. apply foldl_ext_elem_of. intros names i _.
    unfold memberInput. cbn [core withCore withTeamDivisionOnlyBtn withMemberStorage].
    by rewrite Hdom.
  - fold n in Hrendered. lia.
Qed.


Lemma confirmMembers_stored_names (env : Env) (a : App) :
  (∀ k, setItemThrows env k = false) →
  inputsRendered (core a) →
  ∀ i, 1 ≤ i ≤ memberCount (dom (core a)) →
       memberStorage (confirmMembers env a).1 !! memberNameKey i
       = memberNameInputs (dom (core a)) !! (i - 1).
Proof.
  intros Hstore Hrendered i Hi.
  destruct (confirmMembers_result env a Hstore Hrendered)
    as (a1 & E & _ & _ & _ & _ & Hm & _).
  rewrite E. cbn [fst]. rewrite Hm.
  assert ("teamDivisionToggle" ≠ memberNameKey i) as Ht by discriminate.
  unfold inputsRendered in Hrendered.
  rewrite lookup_insert_ne by done.
  rewrite storedNames_lookup, decide_True by lia.
  destruct (memberInput_rendered a i) as (v & -> & ->); [lia | done].
Qed.

(** X20.  What confirming stores.  Under the same conditions the store holds
    the member count as a decimal text, the team division state as [true]
    or [false], and the name of every counted member under its key; names
    stored earlier for members beyond the count are left in the store. *)
Theorem confirmMembers_stores (env : Env) (a : App) :
  (∀ k, setItemThrows env k = false) →
  inputsRendered (core a) →
  let n := memberCount (dom (core a)) in
  let a' := (confirmMembers env a).1 in
  memberStorage a' !! "memberCount" = Some (pretty n)
  ∧ memberStorage a' !! "teamDivisionToggle"
    = Some (if teamDivisionToggle a then "true" else "false")
  ∧ (∀ i, 1 ≤ i ≤ n →
          memberStorage a' !! memberNameKey i
          = memberNameInputs (dom (core a)) !! (i - 1))
  ∧ (∀ i, n < i → memberStorage a' !! memberNameKey i = memberStorage a !! memberNameKey i).
Proof.
  intros Hstore Hrendered n a'.
  destruct (confirmMembers_result env a Hstore Hrendered)
    as (a1 & E & _ & _ & _ & _ & Hm & _).
  unfold a'. rewrite E. cbn [fst]. rewrite Hm. fold n.
  assert (∀ i, "memberCount" ≠ memberNameKey i) as Hc by (intros i; discriminate).
  assert (∀ i, "teamDivisionToggle" ≠ memberNameKey i) as Ht by (intros i; discriminate).
  unfold inputsRendered in Hrendered.
  split_and!.
  - rewrite lookup_insert_ne by done. rewrite storedNames_other by done.
    by rewrite lookup_insert_eq.
  - by rewrite lookup_insert_eq.
  - intros i Hi. rewrite lookup_insert_ne by (by apply not_eq_sym).
    rewrite storedNames_lookup, decide_True by lia.
    destruct (memberInput_rendered a i) as (v & -> & ->); [lia | done].
  - intros i Hi. rewrite lookup_insert_ne by (by apply not_eq_sym).
    rewrite storedNames_lookup, decide_False by lia.
    by rewrite lookup_insert_ne by (by apply not_eq_sym).
Qed.

(** X21.  Confirmed names come back, empty ones as placeholders.  After a
    confirmation under the same conditions, [initializeMemberNames], as run
    by a page load or a change of the count, renders exactly one input per
    counted member; it holds the confirmed name, except that a member
    confirmed with the empty name gets the placeholder [メンバー<i>]. *)
Theorem confirmed_names_reload (env : Env) (a : App) :
  (∀ k, setItemThrows env k = false) →
  inputsRendered (core a) →
  let n := memberCount (dom (core a)) in
  let a'' := (initializeMemberNames (confirmMembers env a).1).1 in
  length (memberNameInputs (dom (core a''))) = n
  ∧ memberCount (dom (core a'')) = n
  ∧ ∀ i v, i < n → memberNameInputs (dom (core a)) !! i = Some v →
           memberNameInputs (dom (core a'')) !! i
           = Some (if bool_decide (v = "") then "メンバー" +:+ pretty (S i) else v).
Proof.
  intros Hstore Hrendered n a''.
  pose proof (confirmMembers_stored_names env a Hstore Hrendered) as Hnames.
  destruct (confirmMembers_result env a Hstore Hrendered)
    as (a1 & E & _ & _ & _ & _ & _ & Hcount & _).
  unfold a'' in *. rewrite E in *. cbn [fst] in *.
  unfold initializeMemberNames, modify. cbn. rewrite Hcount. fold n.
  split_and!; [by rewrite length_map, length_seq | done |].
  intros i v Hi Hv. rewrite list_lookup_fmap, lookup_seq_lt by done. cbn.
  rewrite (Hnames (S i)) by (fold n; lia). cbn. rewrite Nat.sub_0_r, Hv. done.
Qed.

Lemma storeMemberNames_outcome env (a : App) : ∀ steps i (m : gmap string string),
  ∃ m' r,
    storeMemberNames env i steps (withMemberStorage m a) = (withMemberStorage m' a, r)
    ∧ (r = Normal tt ∨ r = Throw QuotaExceeded)
    ∧ (r = Normal tt ↔
       ∀ j, i ≤ j < i + steps → memberInput a j ≠ None →
            setItemThrows env (memberNameKey j) = false).
Proof.
  induction steps as [|steps IH]; intros i m; cbn [storeMemberNames].
  - exists m, (Normal tt). split_and!; [done | by left |]. split; [intros; lia | done].
  - unfold bind at 1. unfold get. unfold bind at 1.
    change (memberInput (withMemberStorage m a) i) with (memberInput a i).
    destruct (memberInput a i) as [v|] eqn:Hv.
    + unfold setMemberItem. destruct (setItemThrows env (memberNameKey i)) eqn:Hthrows.
      * exists m, (Throw QuotaExceeded). split_and!; [done | by right |].
        split; [done|]. intros H. rewrite (H i) in Hthrows; [done | lia | congruence].
      * cbv beta iota.
        destruct (IH (S i) (<[memberNameKey i := v]> m)) as (m' & r & E & Hr & Hiff).
        exists m', r. split_and!; [exact E | done |]. rewrite Hiff. split.
        -- intros H j Hj Hin. destruct (decide (j = i)) as [->|]; [done|]. apply H; [lia|done].
        -- intros H j Hj Hin. apply H; [lia | done].
    + unfold ret. cbv beta iota.
      destruct (IH (S i) m) as (m' & r & E & Hr & Hiff).
      exists m', r. split_and!; [exact E | done |]. rewrite Hiff. split.
      * intros H j Hj Hin. destruct (decide (j = i)) as [->|]; [done|]. apply H; [lia|done].
      * intros H j Hj Hin. apply H; [lia | done].
Qed.

(** X22.  A refused write aborts the confirmation.  With the counted name
    inputs rendered, when the store refuses the write of the count, of the
    name of a counted member or of the team division state,
    [confirmMembers] throws the refusal: unlike the filter settings it is
    not caught.  Nothing but the store has changed by then: the snapshot,
    the buttons, the teams and the result cards are as before. *)
Theorem confirmMembers_refused (env : Env) (a : App) :
  inputsRendered (core a) →
  setItemThrows env "memberCount" = true
  ∨ (∃ j, 1 ≤ j ≤ memberCount (dom (core a)) ∧ setItemThrows env (memberNameKey j) = true)
  ∨ setItemThrows env "teamDivisionToggle" = true →
  ∃ m, confirmMembers env a = (withMemberStorage m a, Throw QuotaExceeded).
Proof.
  intros Hrendered Hrefused. unfold inputsRendered in Hrendered.
  unfold confirmMembers, bind at 1. unfold get. unfold bind at 1.
  unfold setMemberItem at 1.
  destruct (setItemThrows env "memberCount") eqn:Hc.
  { exists (memberStorage a). by destruct a. }
  unfold bind at 1.
  destruct (storeMemberNames_outcome env a (memberCount (dom (core a))) 1
              (<["memberCount" := pretty (memberCount (dom (core a)))]> (memberStorage a)))
    as (m' & r & -> & [-> | ->] & Hiff); [|by exists m'].
  unfold bind at 1. unfold setMemberItem at 1.
  destruct (setItemThrows env "teamDivisionToggle") eqn:Ht; [by exists m'|].
  destruct Hrefused as [?|[(j & Hj & Hthrows)|?]]; try done.
  destruct (memberInput_rendered a j) as (v & Hv & _); [lia|].
  rewrite (proj1 Hiff eq_refl j) in Hthrows; [done | lia | congruence].
Qed.

(** ** The page load *)

Lemma loadFromCache_complete (a : App) (d : Data) :
  cacheComplete (core a) d →
  loadFromCache a
  = (a, Normal (ByType (CatalogJson (rules d)) (CatalogJson (stages d))
                       (CatalogJson (weapons d)))).
Proof.
  intros (Hr & Hs & Hw & _). unfold loadFromCache. rewrite Hr, Hs, Hw. done.
Qed.

Lemma loadFromCache_incomplete (a : App) :
  (∀ d, ¬ cacheComplete (core a) d) →
  ∃ a' cached,
    loadFromCache a = (a', Normal cached)
    ∧ core a' = core a
    ∧ memberStateSnapshot a' = memberStateSnapshot a
    ∧ teamDivisionToggle a' = teamDivisionToggle a
    ∧ match cachedItems (rule cached), cachedItems (stage cached),
            cachedItems (weapon cached) with
      | Some _, Some _, Some _ => False
      | _, _, _ => True
      end.
Proof.
  intros Hinc. unfold loadFromCache, parseCached.
  destruct (localStorage (core a) !! rule CACHE_KEYS) as [[[r|?]|tr]|] eqn:Hr;
    try case_bool_decide;
    destruct (localStorage (core a) !! stage CACHE_KEYS) as [[[st|?]|ts]|] eqn:Hs;
    try case_bool_decide;
    destruct (localStorage (core a) !! weapon CACHE_KEYS) as [[[w|?]|tw]|] eqn:Hw;
    try case_bool_decide;
    eexists _, _; (split; [reflexivity|]); cbn;
    split_and!; try done;
    try (destruct r; done); try (destruct r; destruct st; done).
  destruct r as [|ir r]; [done|]. destruct st as [|ist st]; [done|].
  destruct w as [|iw w]; [done|]. cbn.
  apply (Hinc {| rules := ir :: r; stages := ist :: st; weapons := iw :: w |}).
  unfold cacheComplete. cbn. done.
Qed.

Lemma initializeFilters_usable s :
  selectionEntryUsable s →
  ∃ s', initializeFilters s = (s', Normal tt)
    ∧ data s' = data s
    ∧ dom s' = dom s
    ∧ localStorage s' = localStorage s
    ∧ tempFilterSelections s' = selectedItems s'
    ∧ (∀ t, sublist (selection t (selectedItems s')) (map key (catalog t (data s)))).
Proof.
  intros Husable.
  unfold initializeFilters, loadSelectedItems, bind, get, modify, ret, throw,
    consoleError, modify. cbn.
  destruct (localStorage s !! CACHE_KEYS_selectedItems) as [[[items|cached]|text]|] eqn:E;
    [by destruct (Husable items) | | case_bool_decide |]; cbn;
    eexists; (split; [reflexivity|]); cbn;
    (split_and!; [done.. |]); intros []; cbn; first [apply sublist_filter | reflexivity].
Qed.

Lemma initializeUI_usable s :
  selectionEntryUsable s →
  inputsRendered s →
  ∃ s', initializeUI s = (s', Normal tt)
    ∧ data s' = data s
    ∧ localStorage s' = localStorage s
    ∧ memberCount (dom s') = memberCount (dom s)
    ∧ memberNameInputs (dom s') = memberNameInputs (dom s)
    ∧ loadingStatus (dom s') = loadingStatus (dom s)
    ∧ tempFilterSelections s' = selectedItems s'
    ∧ (∀ t, sublist (selection t (selectedItems s')) (map key (catalog t (data s)))).
Proof.
  intros Husable Hrendered.
  destruct (initializeFilters_usable s Husable) as (s1 & E & Hd & Hdom & Hls & Htmp & Hsub).
  unfold initializeUI, bind. rewrite E. cbv beta iota.
  rewrite initializeResults_result, Hdom.
  unfold inputsRendered in Hrendered. rewrite decide_True by done.
  eexists. split; [reflexivity|]. cbn. split_and!; done.
Qed.

Lemma initializeButtonVisibilityApp_result (a : App) :
  ∃ a', initializeButtonVisibilityApp a = (a', Normal tt)
    ∧ memberStateSnapshot a'
      = Some {| snapshotMemberCount := memberCount (dom (core a));
                snapshotTeamDivisionEnabled := teamDivisionToggle a;
                snapshotMemberNames :=
                  foldl (λ names i, match memberInput a i with
                                    | Some v => <[i := v]> names
                                    | None => names
                                    end) ∅ (seq 1 (memberCount (dom (core a)))) |}
    ∧ teamDivisionToggle a' = teamDivisionToggle a
    ∧ data (core a') = data (core a)
    ∧ dom (core a') = dom (core a)
    ∧ localStorage (core a') = localStorage (core a)
    ∧ selectedItems (core a') = selectedItems (core a)
    ∧ tempFilterSelections (core a') = selectedItems (core a).
Proof.
  unfold initializeButtonVisibilityApp, saveCurrentMemberState, initializeButtonVisibility,
    saveCurrentFilterState, bind, modify, onCore. cbn.
  eexists. split; [reflexivity|]. cbn. rewrite byType_eta. done.
Qed.

Lemma snapshot_after_load_clean (a' a : App) :
  memberStateSnapshot a'
  = Some {| snapshotMemberCount := memberCount (dom (core a));
            snapshotTeamDivisionEnabled := teamDivisionToggle a;
            snapshotMemberNames :=
              foldl (λ names i, match memberInput a i with
                                | Some v => <[i := v]> names
                                | None => names
                                end) ∅ (seq 1 (memberCount (dom (core a)))) |} →
  teamDivisionToggle a' = teamDivisionToggle a →
  dom (core a') = dom (core a) →
  inputsRendered (core a) →
  memberChanges a' = false.
Proof.
  intros Hsnap Htoggle Hdom Hrendered. unfold inputsRendered in Hrendered.
  apply (memberChanges_false_iff a' _ (memberNameInputs (dom (core a))) Hsnap).
  - intros i Hi. cbn in Hi |- *. rewrite snapshotNames_lookup, decide_True by lia.
    destruct (memberInput_rendered a i) as (v & -> & ->); [lia | done].
  - done.
  - by rewrite Hdom.
  - by rewrite Hdom, Htoggle.
Qed.

(** X23.  A page load from a complete cache.  When the three cache entries
    hold catalogs that are not empty, the stored selection is usable and
    the member inputs are rendered, [loadDataFromCacheOrAPI] completes
    normally without a request, whatever the remote source would answer:
    the catalogs are the cached ones exactly as cached, the exclusion list
    is not applied to them, the store is left as found, the selections are
    keys of the cached catalogs with no change pending, and the member
    snapshot is taken so that the confirm button is hidden. *)
Theorem loadDataFromCacheOrAPI_uses_cache (a : App) (d : Data) :
  cacheComplete (core a) d →
  selectionEntryUsable (core a) →
  inputsRendered (core a) →
  ∃ a', (∀ env, loadDataFromCacheOrAPI env a = (a', Normal tt))
    ∧ data (core a') = d
    ∧ localStorage (core a') = localStorage (core a)
    ∧ loadingStatus (dom (core a')) = loadingStatus (dom (core a))
    ∧ tempFilterSelections (core a') = selectedItems (core a')
    ∧ (∀ t, sublist (selection t (selectedItems (core a'))) (map key (catalog t d)))
    ∧ memberChanges a' = false.
Proof.
  intros Hcache Husable Hrendered.
  pose proof Hcache as (_ & _ & _ & Hr & Hs & Hw).
  set (s1 := withData {| rules := rules d; stages := stages d; weapons := weapons d |} (core a)).
  destruct (initializeUI_usable s1) as (s2 & E & Hd & Hls & Hcount & Hinputs & Hstatus & Htmp & Hsub);
    [exact Husable | exact Hrendered |].
  destruct (initializeButtonVisibilityApp_result (withCore s2 (withCore s1 a)))
    as (a' & E' & Hsnap & Htoggle & Hd' & Hdom' & Hls' & Hsel' & Htmp').
  cbn [core withCore] in Hd', Hdom', Hls', Hsel', Htmp'.
  exists a'. split_and!.
  - intros env. unfold loadDataFromCacheOrAPI, tryCatch, bind at 1.
    rewrite (loadFromCache_complete a d Hcache). cbn [rule stage weapon].
    assert (cachedItems (CatalogJson (rules d)) = Some (rules d)) as ->
      by (destruct (rules d); done).
    assert (cachedItems (CatalogJson (stages d)) = Some (stages d)) as ->
      by (destruct (stages d); done).
    assert (cachedItems (CatalogJson (weapons d)) = Some (weapons d)) as ->
      by (destruct (weapons d); done).
    unfold bind at 1. unfold bind at 1. unfold onCore at 1, modify. fold s1.
    unfold onCore at 1. cbn [core withCore]. rewrite E. rewrite E'. done.
  - rewrite Hd', Hd. cbn. by destruct d.
  - by rewrite Hls', Hls.
  - by rewrite Hdom', Hstatus.
  - by rewrite Hsel', Htmp'.
  - intros t. rewrite Hsel'.
    replace d with (data s1) by (by destruct d). apply Hsub.
  - apply (snapshot_after_load_clean a' _ Hsnap Htoggle Hdom').
    unfold inputsRendered in *. cbn [core withCore]. rewrite Hcount, Hinputs. exact Hrendered.
Qed.

Lemma loadFromCache_normal (a : App) :
  ∃ a0 cached, loadFromCache a = (a0, Normal cached)
    ∧ core a0 = core a
    ∧ memberStateSnapshot a0 = memberStateSnapshot a
    ∧ teamDivisionToggle a0 = teamDivisionToggle a.
Proof.
  unfold loadFromCache.
  destruct (parseCached _); [destruct (parseCached _); [destruct (parseCached _)|]|];
    eexists _, _; (split; [reflexivity|]); done.
Qed.

Lemma onCore_seq (p1 p2 : prog State unit) (a : App) :
  ∃ s' r, (onCore p1 ;;; onCore p2)%prog a = (withCore s' a, r)
    ∧ (p1 ;;; p2)%prog (core a) = (s', r).
Proof.
  unfold bind, onCore. destruct (p1 (core a)) as [s1 [[]|e]]; cbn.
  - destruct (p2 s1) as [s2 r]. eexists _, _. split; reflexivity.
  - eexists _, _. split; reflexivity.
Qed.

Lemma fetchAndCacheData_dom env s : dom (fetchAndCacheData env s).1 = dom s.
Proof.
  destruct (remote env (rule API_URLS)) as [r| |] eqn:Er,
    (remote env (stage API_URLS)) as [st| |] eqn:Es,
    (remote env (weapon API_URLS)) as [w| |] eqn:Ew.
  1: { destruct (fetchAndCacheData env s) as [s' c] eqn:E. cbn [fst].
       by destruct (fetchAndCacheData_fetched env s _ _ _ Er Es Ew s' c E)
         as (_ & _ & _ & _ & _ & _ & _ & _ & ->). }
  all: destruct (fetchAndCacheData_fails env s) as (e & -> & _); [|done];
    intros (? & ? & ? & ? & ? & ?); congruence.
Qed.

Lemma initializeFilters_dom s : dom (initializeFilters s).1 = dom s.
Proof.
  unfold initializeFilters, loadSelectedItems, bind, get, modify, ret, throw,
    consoleError, modify. cbn.
  destruct (localStorage s !! CACHE_KEYS_selectedItems) as [[[items|cached]|text]|];
    [| | case_bool_decide |]; cbn; try done.
  destruct (rules (data s)), (stages (data s)), (weapons (data s)); done.
Qed.

Lemma initializeUI_status s :
  loadingStatus (dom (initializeUI s).1) = loadingStatus (dom s).
Proof.
  unfold initializeUI, bind. pose proof (initializeFilters_dom s) as Hdom.
  destruct (initializeFilters s) as [s1 [[]|e]]; cbn [fst] in *; [|by rewrite Hdom].
  rewrite initializeResults_result. cbn. by rewrite Hdom.
Qed.

(** X24.  A page load never throws.  Whatever the store holds and the remote
    source answers, [loadDataFromCacheOrAPI] completes normally: either it
    reached the end, with the member snapshot taken, no filter change
    pending and the status text untouched, or it shows the load error, has
    logged the failure, and has left the member snapshot as it was. *)
Theorem loadDataFromCacheOrAPI_never_throws (env : Env) (a : App) :
  ∃ a', loadDataFromCacheOrAPI env a = (a', Normal tt)
    ∧ ((∃ snapshot, memberStateSnapshot a' = Some snapshot
                    ∧ tempFilterSelections (core a') = selectedItems (core a')
                    ∧ loadingStatus (dom (core a')) = loadingStatus (dom (core a)))
       ∨ (∃ e, loadingStatus (dom (core a')) = Some "エラー: データを読み込めません"
               ∧ last (appConsole a') = Some (ErrorLoadingData e)
               ∧ memberStateSnapshot a' = memberStateSnapshot a)).
Proof.
  unfold loadDataFromCacheOrAPI, tryCatch, bind at 1.
  destruct (loadFromCache_normal a) as (a0 & cached & -> & Hcore & Hsnap & _).
  assert (∀ p1 p2 : prog State unit,
            (∀ s, loadingStatus (dom ((p1 ;;; p2)%prog s).1) = loadingStatus (dom s)) →
    ∃ a', (let (a1, r) := ((onCore p1 ;;; onCore p2) ;;; initializeButtonVisibilityApp)%prog a0 in
           match r with
           | Normal x => (a1, Normal x)
           | Throw error =>
               (modify (λ a, withAppConsole (appConsole a ++ [ErrorLoadingData error]) a) ;;;
                onCore (updateLoadingStatus "エラー: データを読み込めません"))%prog a1
           end) = (a', Normal tt)
      ∧ ((∃ snapshot, memberStateSnapshot a' = Some snapshot
                      ∧ tempFilterSelections (core a') = selectedItems (core a')
                      ∧ loadingStatus (dom (core a')) = loadingStatus (dom (core a)))
         ∨ (∃ e, loadingStatus (dom (core a')) = Some "エラー: データを読み込めません"
                 ∧ last (appConsole a') = Some (ErrorLoadingData e)
                 ∧ memberStateSnapshot a' = memberStateSnapshot a))) as Hboth.
  { intros p1 p2 Hstatus. unfold bind at 1.
    destruct (onCore_seq p1 p2 a0) as (s' & r & -> & Hseq).
    specialize (Hstatus (core a0)). rewrite Hseq in Hstatus. cbn [fst] in Hstatus.
    destruct r as [[]|e].
    - destruct (initializeButtonVisibilityApp_result (withCore s' a0))
        as (a' & -> & Hs & _ & _ & Hdom & _ & Hsel & Htmp).
      exists a'. split; [done|]. left. eexists. split_and!; [exact Hs | congruence |].
      rewrite Hdom. cbn. by rewrite <- Hcore.
    - unfold bind, modify, onCore, updateLoadingStatus, modify. cbn.
      eexists. split; [reflexivity|]. right. exists e. cbn.
      split_and!; [done | by rewrite last_snoc | done]. }
  destruct (cachedItems (rule cached)) as [r|];
    [destruct (cachedItems (stage cached)) as [st|];
       [destruct (cachedItems (weapon cached)) as [w|]|]|];
    apply Hboth; intros s; unfold bind.
  - unfold modify. cbn [fst]. by rewrite initializeUI_status.
  - pose proof (fetchAndCacheData_dom env s) as Hd.
    destruct (fetchAndCacheData env s) as [s0 [[]|e0]]; cbn in *;
      [by rewrite initializeUI_status, Hd | by rewrite Hd].
  - pose proof (fetchAndCacheData_dom env s) as Hd.
    destruct (fetchAndCacheData env s) as [s0 [[]|e0]]; cbn in *;
      [by rewrite initializeUI_status, Hd | by rewrite Hd].
  - pose proof (fetchAndCacheData_dom env s) as Hd.
    destruct (fetchAndCacheData env s) as [s0 [[]|e0]]; cbn in *;
      [by rewrite initializeUI_status, Hd | by rewrite Hd].
Qed.

(** X25.  A first page load without the remote source.  When the cache is not
    complete and one of the three requests fails, [loadDataFromCacheOrAPI]
    completes normally showing the load error: the catalogs, the store, the
    selections, the result cards and the member snapshot are left as they
    were, and the failure is logged once by the fetch and once by the
    load. *)
Theorem loadDataFromCacheOrAPI_offline (env : Env) (a : App) :
  (∀ d, ¬ cacheComplete (core a) d) →
  ¬ allFetched env →
  ∃ a' e, loadDataFromCacheOrAPI env a = (a', Normal tt)
    ∧ loadingStatus (dom (core a')) = Some "エラー: データを読み込めません"
    ∧ data (core a') = data (core a)
    ∧ localStorage (core a') = localStorage (core a)
    ∧ selectedItems (core a') = selectedItems (core a)
    ∧ tempFilterSelections (core a') = tempFilterSelections (core a)
    ∧ resultCards (dom (core a')) = resultCards (dom (core a))
    ∧ memberStateSnapshot a' = memberStateSnapshot a
    ∧ console (core a') = (console (core a) ++ [ErrorFetching e])%list
    ∧ last (appConsole a') = Some (ErrorLoadingData e).
Proof.
  intros Hinc Hfail.
  destruct (loadFromCache_incomplete a Hinc) as (a0 & cached & E & Hcore & Hsnap & _ & Hcached).
  destruct (fetchAndCacheData_fails env (core a0) Hfail) as (e & Efetch & _).
  assert (((onCore (fetchAndCacheData env) ;;; onCore initializeUI) ;;;
           initializeButtonVisibilityApp)%prog a0
          = (withCore (withConsole (console (core a0) ++ [ErrorFetching e]) (core a0)) a0,
             Throw e)) as Hbody.
  { unfold bind at 1. unfold bind at 1. unfold onCore at 1. by rewrite Efetch. }
  eexists _, e. split.
  - unfold loadDataFromCacheOrAPI, tryCatch, bind at 1. rewrite E.
    destruct (cachedItems (rule cached)) as [r|];
      [destruct (cachedItems (stage cached)) as [st|];
         [destruct (cachedItems (weapon cached)) as [w|]; [done|]|]|];
      rewrite Hbody; reflexivity.
  - cbn. rewrite Hcore. split_and!; try done. by rewrite last_snoc.
Qed.

(** X26.  A page load that has to fetch.  When the cache is not complete, the
    three requests are answered, the store accepts the three writes, the
    stored selection is usable and the member inputs are rendered,
    [loadDataFromCacheOrAPI] completes normally: the catalogs are the
    fetched ones without the excluded rules and stages, the three cache
    entries hold exactly these catalogs, so that the next load finds what
    this one kept, the selections are keys of the catalogs with no change
    pending, and the confirm button is hidden. *)
Theorem loadDataFromCacheOrAPI_fetches (env : Env) (a : App)
    (rulesData stagesData weaponsData : list Item) :
  (∀ d, ¬ cacheComplete (core a) d) →
  remote env (rule API_URLS) = Ok rulesData →
  remote env (stage API_URLS) = Ok stagesData →
  remote env (weapon API_URLS) = Ok weaponsData →
  setItemThrows env (rule CACHE_KEYS) = false →
  setItemThrows env (stage CACHE_KEYS) = false →
  setItemThrows env (weapon CACHE_KEYS) = false →
  selectionEntryUsable (core a) →
  inputsRendered (core a) →
  let d := kept rulesData stagesData weaponsData in
  ∃ a', loadDataFromCacheOrAPI env a = (a', Normal tt)
    ∧ data (core a') = d
    ∧ localStorage (core a') !! rule CACHE_KEYS = Some (Json (CatalogJson (rules d)))
    ∧ localStorage (core a') !! stage CACHE_KEYS = Some (Json (CatalogJson (stages d)))
    ∧ localStorage (core a') !! weapon CACHE_KEYS = Some (Json (CatalogJson (weapons d)))
    ∧ localStorage (core a') !! CACHE_KEYS_selectedItems
      = localStorage (core a) !! CACHE_KEYS_selectedItems
    ∧ tempFilterSelections (core a') = selectedItems (core a')
    ∧ (∀ t, sublist (selection t (selectedItems (core a'))) (map key (catalog t d)))
    ∧ memberChanges a' = false.
Proof.
  intros Hinc Hr Hs Hw T1 T2 T3 Husable Hrendered d.
  destruct (loadFromCache_incomplete a Hinc)
    as (a0 & cached & E & Hcore & Hsnap & Htoggle0 & Hcached).
  pose proof (fetchAndCacheData_stored env (core a0) _ _ _ Hr Hs Hw T1 T2 T3) as Efetch.
  cbv zeta in Efetch. fold d in Efetch.
  set (s1 := withLocalStorage _ _) in Efetch.
  assert (localStorage s1 !! CACHE_KEYS_selectedItems
          = localStorage (core a) !! CACHE_KEYS_selectedItems) as Hkey
    by (subst s1; cbn; rewrite Hcore; by simplify_map_eq).
  destruct (initializeUI_usable s1)
    as (s2 & Eui & Hd & Hls & Hcount & Hinputs & Hstatus & Htmp & Hsub).
  { intros items. rewrite Hkey. apply Husable. }
  { unfold inputsRendered in *. subst s1. cbn. by rewrite Hcore. }
  destruct (initializeButtonVisibilityApp_result (withCore s2 (withCore s1 a0)))
    as (a' & E' & Hsnap' & Htoggle & Hd' & Hdom' & Hls' & Hsel' & Htmp').
  cbn [core withCore] in Hd', Hdom', Hls', Hsel', Htmp'.
  assert (((onCore (fetchAndCacheData env) ;;; onCore initializeUI) ;;;
           initializeButtonVisibilityApp)%prog a0 = (a', Normal tt)) as Hbody.
  { unfold bind at 1. unfold bind at 1. unfold onCore at 1. rewrite Efetch.
    unfold onCore at 1. cbn [core withCore]. rewrite Eui. exact E'. }
  exists a'. split_and!.
  - unfold loadDataFromCacheOrAPI, tryCatch, bind at 1. rewrite E.
    destruct (cachedItems (rule cached)) as [r|];
      [destruct (cachedItems (stage cached)) as [st|];
         [destruct (cachedItems (weapon cached)) as [w|]; [done|]|]|];
      rewrite Hbody; reflexivity.
  - rewrite Hd', Hd. done.
  - rewrite Hls', Hls. subst s1. cbn. by simplify_map_eq.
  - rewrite Hls', Hls. subst s1. cbn. by simplify_map_eq.
  - rewrite Hls', Hls. subst s1. cbn. by simplify_map_eq.
  - rewrite Hls', Hls. exact Hkey.
  - by rewrite Hsel', Htmp'.
  - intros t. rewrite Hsel'. apply Hsub.
  - apply (snapshot_after_load_clean a' _ Hsnap' Htoggle Hdom').
    unfold inputsRendered in *. cbn [core withCore]. rewrite Hcount, Hinputs.
    subst s1. cbn. by rewrite Hcore.
Qed.

(** ** The main button *)

Lemma string_app_suffix : ∀ s u t v : string,
  String.length t = String.length v → s +:+ t = u +:+ v → t = v.
Proof.
  induction s as [|a s IH]; intros [|b u] t v Hlen H; simpl in H.
  - done.
  - apply (f_equal String.length) in H. rewrite !string_app_length in H. simpl in H. lia.
  - apply (f_equal String.length) in H. rewrite !string_app_length in H. simpl in H. lia.
  - injection H as _ H. by apply (IH u).
Qed.

Lemma weapon_slot_not_common (i : nat) :
  pretty i +:+ "-weapon" ≠ "common-rule" ∧ pretty i +:+ "-weapon" ≠ "common-stage".
Proof.
  split; intros H.
  - change "common-rule" with ("comm" +:+ "on-rule") in H.
    by apply string_app_suffix in H.
  - change "common-stage" with ("commo" +:+ "n-stage") in H.
    by apply string_app_suffix in H.
Qed.

Lemma getAvailableItems_frame (s s' : State) (type : string) :
  data s' = data s → selectedItems s' = selectedItems s →
  getAvailableItems s' type = getAvailableItems s type.
Proof. unfold getAvailableItems. by intros -> ->. Qed.

(** The three draws in a row, with every result element on the page. *)
Lemma runRoulettes_fill (env : Env) (a : App) (rulesPool stagesPool weaponsPool : list Item) :
  memberCount (dom (core a)) ≤ resultCards (dom (core a)) →
  forallb plainText (cardNames (dom (core a))) = true →
  commonRule (dom (core a)) = true →
  commonStage (dom (core a)) = true →
  getAvailableItems (core a) "rule" = Normal (Items rulesPool) → rulesPool ≠ [] →
  getAvailableItems (core a) "stage" = Normal (Items stagesPool) → stagesPool ≠ [] →
  getAvailableItems (core a) "weapon" = Normal (Items weaponsPool) → weaponsPool ≠ [] →
  ∃ a', (onCore (runRoulette env "rule") ;;;
         onCore (runRoulette env "stage") ;;;
         onCore (runRoulette env "weapon"))%prog a = (a', Normal tt)
    ∧ randomCalls (core a') = randomCalls (core a) + 2 + memberCount (dom (core a))
    ∧ alerts (core a') = alerts (core a)
    ∧ currentTeams (core a') = currentTeams (core a)
    ∧ dom (core a') = dom (core a)
    ∧ (∃ item, item ∈ rulesPool
               ∧ currentResults (runTimers (core a')) !! "common-rule" = Some item)
    ∧ (∃ item, item ∈ stagesPool
               ∧ currentResults (runTimers (core a')) !! "common-stage" = Some item)
    ∧ (∀ i, 1 ≤ i ≤ memberCount (dom (core a)) →
            ∃ item, item ∈ weaponsPool
                    ∧ currentResults (runTimers (core a')) !! (pretty i +:+ "-weapon")
                      = Some item).
Proof.
  intros Hcards Hplain HcommonRule HcommonStage Hr Hrne Hs Hsne Hw Hwne.
  destruct (runRoulette_common_result env (core a) "rule" rulesPool)
    as (ruleItem & _ & HruleIn & Erule); [by left | done | done |].
  cbn [bool_decide] in Erule. simpl in Erule. rewrite HcommonRule in Erule.
  set (s1 := withTimers _ _) in Erule.
  destruct (runRoulette_common_result env s1 "stage" stagesPool)
    as (stageItem & _ & HstageIn & Estage); [by right | done | done |].
  simpl in Estage. rewrite HcommonStage in Estage.
  set (s2 := withTimers _ _) in Estage.
  destruct (runRoulette_weapon_result env s2 weaponsPool)
    as (drawn & Hlen & Hall & Eweapon); [done | done | exact Hplain |].
  set (s3 := withTimers _ _) in Eweapon.
  exists (withCore s3 (withCore s2 (withCore s1 a))). split_and!.
  - unfold bind at 1. unfold onCore at 1. rewrite Erule.
    unfold bind at 1. unfold onCore at 1. cbn [core withCore]. rewrite Estage.
    unfold onCore. cbn [core withCore]. by rewrite Eweapon.
  - cbn. lia.
  - done.
  - done.
  - done.
  - exists ruleItem. split; [done|]. unfold runTimers. cbn. rewrite !foldl_app. cbn.
    rewrite foldl_insert_lookup_notin.
    + rewrite lookup_insert_ne by done. by rewrite lookup_insert_eq.
    + intros ((k & item) & Hk & Hin)%list_elem_of_fmap. cbn in Hk.
      apply weaponEntries_elem_of in Hin as (j & _ & _ & ->).
      symmetry in Hk. by apply weapon_slot_not_common in Hk.
  - exists stageItem. split; [done|]. unfold runTimers. cbn. rewrite !foldl_app. cbn.
    rewrite foldl_insert_lookup_notin.
    + by rewrite lookup_insert_eq.
    + intros ((k & item) & Hk & Hin)%list_elem_of_fmap. cbn in Hk.
      apply weaponEntries_elem_of in Hin as (j & _ & _ & ->).
      symmetry in Hk. by apply weapon_slot_not_common in Hk.
  - intros i Hi. cbn in Hlen.
    destruct (lookup_lt_is_Some_2 drawn (i - 1)) as [item Hitem]; [lia|].
    exists item. split.
    + rewrite Forall_forall in Hall. apply Hall. by eapply list_elem_of_lookup_2.
    + unfold runTimers. cbn. rewrite (foldl_app _ _ (weaponEntries _ _ _)).
      apply foldl_insert_lookup_in; [apply weaponEntries_NoDup|].
      apply weaponEntries_elem_of. exists (i - 1).
      replace (S (0 + (i - 1))) with i by lia. split_and!; [done | lia | done].
Qed.

(** X27.  One press of the main button fills every slot.  With the member
    inputs rendered and the names of the counted members plain text, no
    [<] in them, the two common result elements on the page and the three
    pools not empty, [runAllRoulette] completes normally without a
    notice; once the timers have run, the rule slot and the stage slot hold
    an item of their pool and every counted member has a weapon of the
    weapon pool.  It draws one random number for the rule, one for the
    stage and one per member, after those of the team division when the
    team division is on; when it is off the teams are left as they were. *)
Theorem runAllRoulette_fills_every_slot (env : Env) (a : App)
    (rulesPool stagesPool weaponsPool : list Item) :
  inputsRendered (core a) →
  forallb plainText (take (memberCount (dom (core a))) (memberNameInputs (dom (core a))))
  = true →
  commonRule (dom (core a)) = true →
  commonStage (dom (core a)) = true →
  getAvailableItems (core a) "rule" = Normal (Items rulesPool) → rulesPool ≠ [] →
  getAvailableItems (core a) "stage" = Normal (Items stagesPool) → stagesPool ≠ [] →
  getAvailableItems (core a) "weapon" = Normal (Items weaponsPool) → weaponsPool ≠ [] →
  let n := memberCount (dom (core a)) in
  ∃ a', runAllRoulette env a = (a', Normal tt)
    ∧ randomCalls (core a')
      = randomCalls (core a) + (if teamDivisionToggle a then n - 1 else 0) + 2 + n
    ∧ alerts (core a') = alerts (core a)
    ∧ resultCards (dom (core a')) = n
    ∧ (teamDivisionToggle a = false → currentTeams (core a') = currentTeams (core a))
    ∧ (∃ item, item ∈ rulesPool
               ∧ currentResults (runTimers (core a')) !! "common-rule" = Some item)
    ∧ (∃ item, item ∈ stagesPool
               ∧ currentResults (runTimers (core a')) !! "common-stage" = Some item)
    ∧ (∀ i, 1 ≤ i ≤ n →
            ∃ item, item ∈ weaponsPool
                    ∧ currentResults (runTimers (core a')) !! (pretty i +:+ "-weapon")
                      = Some item).
Proof.
  intros Hrendered Hplain HcommonRule HcommonStage Hr Hrne Hs Hsne Hw Hwne n.
  pose proof Hrendered as Hle. unfold inputsRendered in Hle.
  set (s1 := withDom (withResultCards n (dom (core a))) (core a)).
  assert (onCore initializeResults a = (withCore s1 a, Normal tt)) as E1.
  { unfold onCore. rewrite initializeResults_result, decide_True by exact Hle.
    by rewrite Nat.min_l by exact Hle. }
  assert (∃ a2, (if teamDivisionToggle a then applyTeamDivisionState env true else ret tt)
                  (withCore s1 a) = (a2, Normal tt)
                ∧ data (core a2) = data (core a)
                ∧ selectedItems (core a2) = selectedItems (core a)
                ∧ dom (core a2) = dom s1
                ∧ alerts (core a2) = alerts (core a)
                ∧ randomCalls (core a2)
                  = randomCalls (core a) + (if teamDivisionToggle a then n - 1 else 0)
                ∧ (teamDivisionToggle a = false → currentTeams (core a2) = currentTeams (core a)))
    as (a2 & E2 & Hd2 & Hsel2 & Hdom2 & Halerts2 & Hrc2 & Hteams2).
  { destruct (teamDivisionToggle a).
    - destruct (divideTeams_completes env s1) as (teams & Ediv); [exact Hle|].
      unfold applyTeamDivisionState, bind, onCore, modify. cbn [core withCore].
      rewrite Ediv. eexists. split; [reflexivity|]. cbn. done.
    - eexists. split; [reflexivity|]. cbn. split_and!; try done; lia. }
  destruct (runRoulettes_fill env a2 rulesPool stagesPool weaponsPool)
    as (a' & E3 & Hrc & Halerts & Hteams & Hdom' & Hrule & Hstage & Hweapon);
    try done; try (by rewrite Hdom2);
    try (by rewrite (getAvailableItems_frame (core a) (core a2))).
  rewrite Hdom2 in Hdom'.
  exists a'. split_and!.
  - unfold runAllRoulette. unfold bind at 1. rewrite E1.
    unfold bind at 1, get at 1. cbn [teamDivisionToggle withCore].
    unfold bind at 1. rewrite E2. exact E3.
  - rewrite Hrc, Hrc2, Hdom2. cbn. lia.
  - by rewrite Halerts.
  - by rewrite Hdom'.
  - intros Hoff. rewrite Hteams. by apply Hteams2.
  - exact Hrule.
  - exact Hstage.
  - intros i Hi. apply Hweapon. by rewrite Hdom2.
Qed.


(** ** Instances of the further properties *)

Lemma selectedState_withinCatalog : withinCatalog selectedState.
Proof. intros []; split_and!; apply (bool_decide_unpack _); vm_compute; exact I. Qed.

Lemma offlineEnv_not_fetched : ¬ allFetched offlineEnv.
Proof. intros (r & st & w & H & _). discriminate. Qed.

Lemma sampleApp_cache_incomplete : ∀ d, ¬ cacheComplete (core sampleApp) d.
Proof. intros d (H & _). discriminate. Qed.

Lemma runFilterIntents_withinCatalog_witness :
  (withinCatalog selectedState)
  ∧ (Forall (rendered (data selectedState)) sampleIntents)
  ∧ (data (runFilterIntents sampleEnv sampleIntents selectedState) = data selectedState
    ∧ withinCatalog (runFilterIntents sampleEnv sampleIntents selectedState)).
Proof.
  assert (withinCatalog selectedState) as H1
    by (exact selectedState_withinCatalog).
  assert (Forall (rendered (data selectedState)) sampleIntents) as H2
    by (unfold sampleIntents; repeat (constructor; [first [exact I | unfold rendered; apply (bool_decide_unpack _); vm_compute; exact I]|]); constructor).
  split; [exact H1|].
  split; [exact H2|].
  exact (runFilterIntents_withinCatalog sampleEnv sampleIntents selectedState H1 H2).
Defined.

Lemma filtersChanged_iff_differ_witness :
  (withinCatalog selectedState)
  ∧ (filtersChanged selectedState = false ↔
    ∀ t k, k ∈ selection t (tempFilterSelections selectedState) ↔ k ∈ selection t (selectedItems selectedState)).
Proof.
  assert (withinCatalog selectedState) as H1
    by (exact selectedState_withinCatalog).
  split; [exact H1|].
  exact (filtersChanged_iff_differ selectedState H1).
Defined.

Lemma untick_then_tick_is_clean_witness :
  (withinCatalog selectedState)
  ∧ (filtersChanged selectedState = false)
  ∧ ("area" ∈ selection Rule (tempFilterSelections selectedState))
  ∧ (let s1 := (onFilterCheckboxChange Rule "area" false selectedState).1 in
    let s2 := (onFilterCheckboxChange Rule "area" true s1).1 in
    applyFilterSettingsBtn (dom s1) = true
    ∧ applyFilterSettingsBtn (dom s2) = false
    ∧ selection Rule (tempFilterSelections s2)
      = filter (λ key, key ≠ "area") (selection Rule (tempFilterSelections selectedState)) ++ ["area"]).
Proof.
  assert (withinCatalog selectedState) as H1
    by (exact selectedState_withinCatalog).
  assert (filtersChanged selectedState = false) as H2
    by (reflexivity).
  assert ("area" ∈ selection Rule (tempFilterSelections selectedState)) as H3
    by (apply (bool_decide_unpack _); vm_compute; exact I).
  split; [exact H1|].
  split; [exact H2|].
  split; [exact H3|].
  exact (untick_then_tick_is_clean selectedState Rule "area" H1 H2 H3).
Defined.

Lemma updateGroupSelectAllCheckbox_iff_witness :
  (withinCatalog selectedState)
  ∧ (updateGroupSelectAllCheckbox Rule selectedState = true ↔
    catalog Rule (data selectedState) ≠ []
    ∧ ∀ item, item ∈ catalog Rule (data selectedState) → key item ∈ selection Rule (tempFilterSelections selectedState)).
Proof.
  assert (withinCatalog selectedState) as H1
    by (exact selectedState_withinCatalog).
  split; [exact H1|].
  exact (updateGroupSelectAllCheckbox_iff selectedState Rule H1).
Defined.

Lemma fetchAndCacheData_all_or_nothing_witness :
  (¬ allFetched offlineEnv)
  ∧ (∃ e, fetchAndCacheData offlineEnv initialState = (withConsole (console initialState ++ [ErrorFetching e]) initialState, Throw e)
         ∧ (e = NetworkError ∨ ∃ status, e = ApiError status)).
Proof.
  assert (¬ allFetched offlineEnv) as H1
    by (exact offlineEnv_not_fetched).
  split; [exact H1|].
  exact (fetchAndCacheData_all_or_nothing offlineEnv initialState H1).
Defined.

Lemma refreshData_offline_witness :
  (¬ allFetched offlineEnv)
  ∧ (∃ s' e, refreshData offlineEnv loadedState = (s', Normal tt)
      ∧ loadingStatus (dom s') = Some "更新に失敗しました"
      ∧ console s' = console loadedState ++ [ErrorFetching e; ErrorRefreshing e]
      ∧ data s' = data loadedState
      ∧ selectedItems s' = selectedItems loadedState
      ∧ tempFilterSelections s' = tempFilterSelections loadedState
      ∧ (∀ k, k ∈ [rule CACHE_KEYS; stage CACHE_KEYS; weapon CACHE_KEYS;
                   CACHE_KEYS_selectedItems] → localStorage s' !! k = None)
      ∧ (∀ k, k ∉ [rule CACHE_KEYS; stage CACHE_KEYS; weapon CACHE_KEYS;
                   CACHE_KEYS_selectedItems] → localStorage s' !! k = localStorage loadedState !! k)).
Proof.
  assert (¬ allFetched offlineEnv) as H1
    by (exact offlineEnv_not_fetched).
  split; [exact H1|].
  exact (refreshData_offline offlineEnv loadedState H1).
Defined.

Lemma refreshData_selects_all_witness :
  (remote sampleEnv (rule API_URLS) = Ok sampleRules)
  ∧ (remote sampleEnv (stage API_URLS) = Ok sampleStages)
  ∧ (remote sampleEnv (weapon API_URLS) = Ok sampleWeapons)
  ∧ (setItemThrows sampleEnv (rule CACHE_KEYS) = false)
  ∧ (setItemThrows sampleEnv (stage CACHE_KEYS) = false)
  ∧ (setItemThrows sampleEnv (weapon CACHE_KEYS) = false)
  ∧ (inputsRendered loadedState)
  ∧ (let d := kept sampleRules sampleStages sampleWeapons in
    ∃ s', refreshData sampleEnv loadedState = (s', Normal tt)
      ∧ data s' = d
      ∧ selectedItems s' = ByType (map key (rules d)) (map key (stages d)) (map key (weapons d))
      ∧ tempFilterSelections s' = selectedItems s'
      ∧ localStorage s' !! CACHE_KEYS_selectedItems = None
      ∧ localStorage s' !! rule CACHE_KEYS = Some (Json (CatalogJson (rules d)))
      ∧ localStorage s' !! stage CACHE_KEYS = Some (Json (CatalogJson (stages d)))
      ∧ localStorage s' !! weapon CACHE_KEYS = Some (Json (CatalogJson (weapons d)))
      ∧ resultCards (dom s') = memberCount (dom loadedState)
      ∧ loadingStatus (dom s') = loadingStatus (dom loadedState)
      ∧ console s' = console loadedState).
Proof.
  assert (remote sampleEnv (rule API_URLS) = Ok sampleRules) as H1
    by (reflexivity).
  assert (remote sampleEnv (stage API_URLS) = Ok sampleStages) as H2
    by (reflexivity).
  assert (remote sampleEnv (weapon API_URLS) = Ok sampleWeapons) as H3
    by (reflexivity).
  assert (setItemThrows sampleEnv (rule CACHE_KEYS) = false) as H4
    by (reflexivity).
  assert (setItemThrows sampleEnv (stage CACHE_KEYS) = false) as H5
    by (reflexivity).
  assert (setItemThrows sampleEnv (weapon CACHE_KEYS) = false) as H6
    by (reflexivity).
  assert (inputsRendered loadedState) as H7
    by (unfold inputsRendered; simpl; lia).
  split; [exact H1|].
  split; [exact H2|].
  split; [exact H3|].
  split; [exact H4|].
  split; [exact H5|].
  split; [exact H6|].
  split; [exact H7|].
  exact (refreshData_selects_all sampleEnv loadedState sampleRules sampleStages sampleWeapons H1 H2 H3 H4 H5 H6 H7).
Defined.

Lemma applied_selection_survives_reload_witness :
  (setItemThrows sampleEnv CACHE_KEYS_selectedItems = false)
  ∧ (withinCatalog selectedState)
  ∧ (let s1 := (applyFilterSettings sampleEnv selectedState).1 in
    ∃ s2, initializeFilters s1 = (s2, Normal tt)
      ∧ (∀ t k, k ∈ selection t (selectedItems s2)
                ↔ k ∈ selection t (tempFilterSelections selectedState))
      ∧ tempFilterSelections s2 = selectedItems s2
      ∧ filtersChanged s2 = false
      ∧ data s2 = data selectedState).
Proof.
  assert (setItemThrows sampleEnv CACHE_KEYS_selectedItems = false) as H1
    by (reflexivity).
  assert (withinCatalog selectedState) as H2
    by (exact selectedState_withinCatalog).
  split; [exact H1|].
  split; [exact H2|].
  exact (applied_selection_survives_reload sampleEnv selectedState H1 H2).
Defined.

Lemma runRoulette_common_draw_witness :
  ("rule" = "rule" ∨ "rule" = "stage")
  ∧ (getAvailableItems loadedState "rule" = Normal (Items (rules (data loadedState))))
  ∧ ((rules (data loadedState)) ≠ [])
  ∧ (let present := if bool_decide ("rule" = "rule") then commonRule (dom loadedState)
                   else commonStage (dom loadedState) in
    ∃ j item,
      floorOf (random sampleEnv (randomCalls loadedState)) (length (rules (data loadedState))) j
      ∧ j < length (rules (data loadedState))
      ∧ (rules (data loadedState)) !! j = Some item
      ∧ item ∈ (rules (data loadedState))
      ∧ runRoulette sampleEnv "rule" loadedState
        = (withTimers (timers loadedState ++ if present then [("common-" +:+ "rule", item)] else [])
             (withRandomCalls (S (randomCalls loadedState)) loadedState), Normal tt)
      ∧ (present = true →
         currentResults (runTimers (runRoulette sampleEnv "rule" loadedState).1) !! ("common-" +:+ "rule")
         = Some item)).
Proof.
  assert ("rule" = "rule" ∨ "rule" = "stage") as H1
    by (left; reflexivity).
  assert (getAvailableItems loadedState "rule" = Normal (Items (rules (data loadedState)))) as H2
    by (reflexivity).
  assert ((rules (data loadedState)) ≠ []) as H3
    by (discriminate).
  split; [exact H1|].
  split; [exact H2|].
  split; [exact H3|].
  exact (runRoulette_common_draw sampleEnv loadedState "rule" (rules (data loadedState)) H1 H2 H3).
Defined.

Lemma runRoulette_weapon_draw_witness :
  (getAvailableItems loadedState "weapon" = Normal (Items (weapons (data loadedState))))
  ∧ ((weapons (data loadedState)) ≠ [])
  ∧ (forallb plainText (cardNames (dom loadedState)) = true)
  ∧ (∃ drawn,
      length drawn = memberCount (dom loadedState)
      ∧ Forall (λ item, item ∈ (weapons (data loadedState))) drawn
      ∧ runRoulette sampleEnv "weapon" loadedState
        = (withTimers (timers loadedState ++ weaponEntries 0 (resultCards (dom loadedState)) drawn)
             (withRandomCalls (randomCalls loadedState + memberCount (dom loadedState)) loadedState), Normal tt)
      ∧ ∀ i, 1 ≤ i ≤ memberCount (dom loadedState) → i ≤ resultCards (dom loadedState) →
             ∃ item, item ∈ (weapons (data loadedState))
                     ∧ currentResults (runTimers (runRoulette sampleEnv "weapon" loadedState).1)
                       !! (pretty i +:+ "-weapon") = Some item).
Proof.
  assert (getAvailableItems loadedState "weapon" = Normal (Items (weapons (data loadedState)))) as H1
    by (reflexivity).
  assert ((weapons (data loadedState)) ≠ []) as H2
    by (discriminate).
  assert (forallb plainText (cardNames (dom loadedState)) = true) as H3
    by (reflexivity).
  split; [exact H1|].
  split; [exact H2|].
  split; [exact H3|].
  exact (runRoulette_weapon_draw sampleEnv loadedState (weapons (data loadedState)) H1 H2 H3).
Defined.

Lemma shuffleArray_reaches_every_permutation_witness :
  (arrays sampleMachine !! 0 = Some [10; 20; 30])
  ∧ ((N.of_nat (length [10; 20; 30]) ≤ 2 ^ 26)%N)
  ∧ ([20; 10; 30] ≡ₚ [10; 20; 30])
  ∧ (∃ rand m',
      shuffleArray {| random := rand; remote := remote sampleEnv;
                      setItemThrows := setItemThrows sampleEnv; markup := markup sampleEnv |} 0 sampleMachine
      = (m', Normal (length (arrays sampleMachine)))
      ∧ arrays m' !! length (arrays sampleMachine) = Some [20; 10; 30]).
Proof.
  assert (arrays sampleMachine !! 0 = Some [10; 20; 30]) as H1
    by (reflexivity).
  assert ((N.of_nat (length [10; 20; 30]) ≤ 2 ^ 26)%N) as H2
    by (simpl; lia).
  assert ([20; 10; 30] ≡ₚ [10; 20; 30]) as H3
    by (apply perm_swap).
  split; [exact H1|].
  split; [exact H2|].
  split; [exact H3|].
  exact (shuffleArray_reaches_every_permutation sampleEnv sampleMachine 0 [10; 20; 30] [20; 10; 30] H1 H2 H3).
Defined.

Lemma shuffleArray_random_calls_witness :
  (arrays sampleMachine !! 0 = Some [10; 20; 30])
  ∧ (∃ m' shuffled,
      shuffleArray sampleEnv 0 sampleMachine = (m', Normal shuffled)
      ∧ randomCount m' = randomCount sampleMachine + (length [10; 20; 30] - 1)
      ∧ length (arrays m') = S (length (arrays sampleMachine))
      ∧ (length [10; 20; 30] ≤ 1 → arrays m' !! shuffled = Some [10; 20; 30]
                               ∧ randomCount m' = randomCount sampleMachine)).
Proof.
  assert (arrays sampleMachine !! 0 = Some [10; 20; 30]) as H1
    by (reflexivity).
  split; [exact H1|].
  exact (shuffleArray_random_calls sampleEnv sampleMachine 0 [10; 20; 30] H1).
Defined.

Lemma divideTeams_missing_input_witness :
  (length (memberNameInputs (dom shortState)) < memberCount (dom shortState))
  ∧ (divideTeams sampleEnv shortState = (shortState, Throw TypeError)).
Proof.
  assert (length (memberNameInputs (dom shortState)) < memberCount (dom shortState)) as H1
    by (simpl; lia).
  split; [exact H1|].
  exact (divideTeams_missing_input sampleEnv shortState H1).
Defined.


Lemma checkMemberChanges_iff_differs_witness :
  (inputsRendered (core sampleApp))
  ∧ (2 ≤ length ["A"; "B"])
  ∧ (let a1 := (saveCurrentMemberState sampleApp).1 in
    let a2 := withTeamDivisionToggle true
                (withCore (withDom (withMembers 2 ["A"; "B"] (dom (core a1))) (core a1)) a1) in
    confirmMembersBtn (checkMemberChanges a2).1 = false ↔
    2 = memberCount (dom (core sampleApp))
    ∧ true = teamDivisionToggle sampleApp
    ∧ take 2 ["A"; "B"] = take 2 (memberNameInputs (dom (core sampleApp)))).
Proof.
  assert (inputsRendered (core sampleApp)) as H1
    by (unfold inputsRendered; simpl; lia).
  assert (2 ≤ length ["A"; "B"]) as H2
    by (simpl; lia).
  split; [exact H1|].
  split; [exact H2|].
  exact (checkMemberChanges_iff_differs sampleApp 2 ["A"; "B"] true H1 H2).
Defined.


Lemma confirmMembers_stores_witness :
  ((∀ k, setItemThrows sampleEnv k = false))
  ∧ (inputsRendered (core sampleApp))
  ∧ (let n := memberCount (dom (core sampleApp)) in
    let a' := (confirmMembers sampleEnv sampleApp).1 in
    memberStorage a' !! "memberCount" = Some (pretty n)
    ∧ memberStorage a' !! "teamDivisionToggle"
      = Some (if teamDivisionToggle sampleApp then "true" else "false")
    ∧ (∀ i, 1 ≤ i ≤ n →
            memberStorage a' !! memberNameKey i
            = memberNameInputs (dom (core sampleApp)) !! (i - 1))
    ∧ (∀ i, n < i → memberStorage a' !! memberNameKey i = memberStorage sampleApp !! memberNameKey i)).
Proof.
  assert ((∀ k, setItemThrows sampleEnv k = false)) as H1
    by (intros k; reflexivity).
  assert (inputsRendered (core sampleApp)) as H2
    by (unfold inputsRendered; simpl; lia).
  split; [exact H1|].
  split; [exact H2|].
  exact (confirmMembers_stores sampleEnv sampleApp H1 H2).
Defined.

Lemma confirmed_names_reload_witness :
  ((∀ k, setItemThrows sampleEnv k = false))
  ∧ (inputsRendered (core sampleApp))
  ∧ (let n := memberCount (dom (core sampleApp)) in
    let a'' := (initializeMemberNames (confirmMembers sampleEnv sampleApp).1).1 in
    length (memberNameInputs (dom (core a''))) = n
    ∧ memberCount (dom (core a'')) = n
    ∧ ∀ i v, i < n → memberNameInputs (dom (core sampleApp)) !! i = Some v →
             memberNameInputs (dom (core a'')) !! i
             = Some (if bool_decide (v = "") then "メンバー" +:+ pretty (S i) else v)).
Proof.
  assert ((∀ k, setItemThrows sampleEnv k = false)) as H1
    by (intros k; reflexivity).
  assert (inputsRendered (core sampleApp)) as H2
    by (unfold inputsRendered; simpl; lia).
  split; [exact H1|].
  split; [exact H2|].
  exact (confirmed_names_reload sampleEnv sampleApp H1 H2).
Defined.

Lemma confirmMembers_refused_witness :
  (inputsRendered (core sampleApp))
  ∧ (setItemThrows fullStoreEnv "memberCount" = true
   ∨ (∃ j, 1 ≤ j ≤ memberCount (dom (core sampleApp)) ∧ setItemThrows fullStoreEnv (memberNameKey j) = true)
   ∨ setItemThrows fullStoreEnv "teamDivisionToggle" = true)
  ∧ (∃ m, confirmMembers fullStoreEnv sampleApp = (withMemberStorage m sampleApp, Throw QuotaExceeded)).
Proof.
  assert (inputsRendered (core sampleApp)) as H1
    by (unfold inputsRendered; simpl; lia).
  assert (setItemThrows fullStoreEnv "memberCount" = true
          ∨ (∃ j, 1 ≤ j ≤ memberCount (dom (core sampleApp)) ∧ setItemThrows fullStoreEnv (memberNameKey j) = true)
          ∨ setItemThrows fullStoreEnv "teamDivisionToggle" = true) as H2
    by (left; reflexivity).
  split; [exact H1|].
  split; [exact H2|].
  exact (confirmMembers_refused fullStoreEnv sampleApp H1 H2).
Defined.

Lemma loadDataFromCacheOrAPI_uses_cache_witness :
  (cacheComplete (core cachedApp) sampleCached)
  ∧ (selectionEntryUsable (core cachedApp))
  ∧ (inputsRendered (core cachedApp))
  ∧ (∃ a', (∀ env, loadDataFromCacheOrAPI env cachedApp = (a', Normal tt))
      ∧ data (core a') = sampleCached
      ∧ localStorage (core a') = localStorage (core cachedApp)
      ∧ loadingStatus (dom (core a')) = loadingStatus (dom (core cachedApp))
      ∧ tempFilterSelections (core a') = selectedItems (core a')
      ∧ (∀ t, sublist (selection t (selectedItems (core a'))) (map key (catalog t sampleCached)))
      ∧ memberChanges a' = false).
Proof.
  assert (cacheComplete (core cachedApp) sampleCached) as H1
    by (repeat split; discriminate).
  assert (selectionEntryUsable (core cachedApp)) as H2
    by (intros items; discriminate).
  assert (inputsRendered (core cachedApp)) as H3
    by (unfold inputsRendered; simpl; lia).
  split; [exact H1|].
  split; [exact H2|].
  split; [exact H3|].
  exact (loadDataFromCacheOrAPI_uses_cache cachedApp sampleCached H1 H2 H3).
Defined.

Lemma loadDataFromCacheOrAPI_offline_witness :
  ((∀ d, ¬ cacheComplete (core sampleApp) d))
  ∧ (¬ allFetched offlineEnv)
  ∧ (∃ a' e, loadDataFromCacheOrAPI offlineEnv sampleApp = (a', Normal tt)
      ∧ loadingStatus (dom (core a')) = Some "エラー: データを読み込めません"
      ∧ data (core a') = data (core sampleApp)
      ∧ localStorage (core a') = localStorage (core sampleApp)
      ∧ selectedItems (core a') = selectedItems (core sampleApp)
      ∧ tempFilterSelections (core a') = tempFilterSelections (core sampleApp)
      ∧ resultCards (dom (core a')) = resultCards (dom (core sampleApp))
      ∧ memberStateSnapshot a' = memberStateSnapshot sampleApp
      ∧ console (core a') = (console (core sampleApp) ++ [ErrorFetching e])%list
      ∧ last (appConsole a') = Some (ErrorLoadingData e)).
Proof.
  assert ((∀ d, ¬ cacheComplete (core sampleApp) d)) as H1
    by (exact sampleApp_cache_incomplete).
  assert (¬ allFetched offlineEnv) as H2
    by (exact offlineEnv_not_fetched).
  split; [exact H1|].
  split; [exact H2|].
  exact (loadDataFromCacheOrAPI_offline offlineEnv sampleApp H1 H2).
Defined.

Lemma loadDataFromCacheOrAPI_fetches_witness :
  ((∀ d, ¬ cacheComplete (core sampleApp) d))
  ∧ (remote sampleEnv (rule API_URLS) = Ok sampleRules)
  ∧ (remote sampleEnv (stage API_URLS) = Ok sampleStages)
  ∧ (remote sampleEnv (weapon API_URLS) = Ok sampleWeapons)
  ∧ (setItemThrows sampleEnv (rule CACHE_KEYS) = false)
  ∧ (setItemThrows sampleEnv (stage CACHE_KEYS) = false)
  ∧ (setItemThrows sampleEnv (weapon CACHE_KEYS) = false)
  ∧ (selectionEntryUsable (core sampleApp))
  ∧ (inputsRendered (core sampleApp))
  ∧ (let d := kept sampleRules sampleStages sampleWeapons in
    ∃ a', loadDataFromCacheOrAPI sampleEnv sampleApp = (a', Normal tt)
      ∧ data (core a') = d
      ∧ localStorage (core a') !! rule CACHE_KEYS = Some (Json (CatalogJson (rules d)))
      ∧ localStorage (core a') !! stage CACHE_KEYS = Some (Json (CatalogJson (stages d)))
      ∧ localStorage (core a') !! weapon CACHE_KEYS = Some (Json (CatalogJson (weapons d)))
      ∧ localStorage (core a') !! CACHE_KEYS_selectedItems
        = localStorage (core sampleApp) !! CACHE_KEYS_selectedItems
      ∧ tempFilterSelections (core a') = selectedItems (core a')
      ∧ (∀ t, sublist (selection t (selectedItems (core a'))) (map key (catalog t d)))
      ∧ memberChanges a' = false).
Proof.
  assert ((∀ d, ¬ cacheComplete (core sampleApp) d)) as H1
    by (exact sampleApp_cache_incomplete).
  assert (remote sampleEnv (rule API_URLS) = Ok sampleRules) as H2
    by (reflexivity).
  assert (remote sampleEnv (stage API_URLS) = Ok sampleStages) as H3
    by (reflexivity).
  assert (remote sampleEnv (weapon API_URLS) = Ok sampleWeapons) as H4
    by (reflexivity).
  assert (setItemThrows sampleEnv (rule CACHE_KEYS) = false) as H5
    by (reflexivity).
  assert (setItemThrows sampleEnv (stage CACHE_KEYS) = false) as H6
    by (reflexivity).
  assert (setItemThrows sampleEnv (weapon CACHE_KEYS) = false) as H7
    by (reflexivity).
  assert (selectionEntryUsable (core sampleApp)) as H8
    by (intros items; discriminate).
  assert (inputsRendered (core sampleApp)) as H9
    by (unfold inputsRendered; simpl; lia).
  split; [exact H1|].
  split; [exact H2|].
  split; [exact H3|].
  split; [exact H4|].
  split; [exact H5|].
  split; [exact H6|].
  split; [exact H7|].
  split; [exact H8|].
  split; [exact H9|].
  exact (loadDataFromCacheOrAPI_fetches sampleEnv sampleApp sampleRules sampleStages sampleWeapons H1 H2 H3 H4 H5 H6 H7 H8 H9).
Defined.

Lemma runAllRoulette_fills_every_slot_witness :
  (inputsRendered (core sampleApp))
  ∧ (forallb plainText (take (memberCount (dom (core sampleApp))) (memberNameInputs (dom (core sampleApp))))
   = true)
  ∧ (commonRule (dom (core sampleApp)) = true)
  ∧ (commonStage (dom (core sampleApp)) = true)
  ∧ (getAvailableItems (core sampleApp) "rule" = Normal (Items (rules (data loadedState))))
  ∧ ((rules (data loadedState)) ≠ [])
  ∧ (getAvailableItems (core sampleApp) "stage" = Normal (Items (stages (data loadedState))))
  ∧ ((stages (data loadedState)) ≠ [])
  ∧ (getAvailableItems (core sampleApp) "weapon" = Normal (Items (weapons (data loadedState))))
  ∧ ((weapons (data loadedState)) ≠ [])
  ∧ (let n := memberCount (dom (core sampleApp)) in
    ∃ a', runAllRoulette sampleEnv sampleApp = (a', Normal tt)
      ∧ randomCalls (core a')
        = randomCalls (core sampleApp) + (if teamDivisionToggle sampleApp then n - 1 else 0) + 2 + n
      ∧ alerts (core a') = alerts (core sampleApp)
      ∧ resultCards (dom (core a')) = n
      ∧ (teamDivisionToggle sampleApp = false → currentTeams (core a') = currentTeams (core sampleApp))
      ∧ (∃ item, item ∈ (rules (data loadedState))
                 ∧ currentResults (runTimers (core a')) !! "common-rule" = Some item)
      ∧ (∃ item, item ∈ (stages (data loadedState))
                 ∧ currentResults (runTimers (core a')) !! "common-stage" = Some item)
      ∧ (∀ i, 1 ≤ i ≤ n →
              ∃ item, item ∈ (weapons (data loadedState))
                      ∧ currentResults (runTimers (core a')) !! (pretty i +:+ "-weapon")
                        = Some item)).
Proof.
  assert (inputsRendered (core sampleApp)) as H1
    by (unfold inputsRendered; simpl; lia).
  assert (forallb plainText (take (memberCount (dom (core sampleApp))) (memberNameInputs (dom (core sampleApp))))
          = true) as H2
    by (reflexivity).
  assert (commonRule (dom (core sampleApp)) = true) as H3
    by (reflexivity).
  assert (commonStage (dom (core sampleApp)) = true) as H4
    by (reflexivity).
  assert (getAvailableItems (core sampleApp) "rule" = Normal (Items (rules (data loadedState)))) as H5
    by (reflexivity).
  assert ((rules (data loadedState)) ≠ []) as H6
    by (discriminate).
  assert (getAvailableItems (core sampleApp) "stage" = Normal (Items (stages (data loadedState)))) as H7
    by (reflexivity).
  assert ((stages (data loadedState)) ≠ []) as H8
    by (discriminate).
  assert (getAvailableItems (core sampleApp) "weapon" = Normal (Items (weapons (data loadedState)))) as H9
    by (reflexivity).
  assert ((weapons (data loadedState)) ≠ []) as H10
    by (discriminate).
  split; [exact H1|].
  split; [exact H2|].
  split; [exact H3|].
  split; [exact H4|].
  split; [exact H5|].
  split; [exact H6|].
  split; [exact H7|].
  split; [exact H8|].
  split; [exact H9|].
  split; [exact H10|].
  exact (runAllRoulette_fills_every_slot sampleEnv sampleApp (rules (data loadedState)) (stages (data loadedState)) (weapons (data loadedState)) H1 H2 H3 H4 H5 H6 H7 H8 H9 H10).
Defined.
